(* ===== verification/_CoqProject ===== *)
-Q . S2P
Prelude.v
Icons.v
Base64.v
Recorder.v
Waveform.v
WaveLoop.v
Json.v
Store.v
Auth.v
Pages.v
RecorderUI.v
Analysis.v
Views.v
App.v
