(* ===== verification/Prelude.v ===== *)
(** * VoiceKey: a verification development of the voice-login web app

    The repository is a Next.js application (src/src/...).  A user
    registers by recording a spoken passphrase and logs in by recording
    it again.  The user can also ask a hosted language model for a
    "security assessment" of the stored recording.  Its parts, and how
    they interact:

    - the voice recorder ([components/voice-recorder.tsx]): a React
      component with a five-state status, refs to a MediaRecorder, a
      chunk buffer and an AudioContext, and one effect keyed on the
      microphone stream.  It asks for the microphone, records chunks,
      consolidates them into a Blob on the recorder's [stop] event,
      reads it as a data URI and hands that string to its caller
      ([onRecordingComplete]);
    - the waveform visualiser ([components/waveform-visualizer.tsx]),
      mounted by the recorder while it records: an animation-frame loop
      that samples the analyser's 8-bit frequency bins and turns them
      into an SVG path;
    - the mock authentication store ([context/auth-context.tsx]): two
      localStorage entries (the JSON text of the user record and of a
      boolean) and React state mirroring them; [register], [login],
      [logout];
    - the pages ([app/page.tsx], [app/register/page.tsx],
      [components/header.tsx]): they put the recorder's output
      ([setAudioData]) into the store through [useAuth()];
    - the security analysis ([lib/actions.ts],
      [ai/flows/enhance-voice-print-security.ts],
      [components/security-analysis.tsx]), which sends the stored voice
      print to the remote model and renders its answer;
    - the dashboard ([app/dashboard/page.tsx]), which shows the account
      card and the security analysis, and the header's greeting.

    ** Files (in dependency order)
    - [Prelude] (this file) holds:
      - the reflexive transitive closure [star] of a step relation and
        the deterministic runner [run];
      - the exhaustive checks [all_below] and [all_bytes], which prove a
        fact about every byte or sextet by computation;
      - [upd_nth] (an array store by index) and string lemmas;
      - the [vk] and [vk_rw] hint databases and shared tactics.
    - [Icons] (Module [Icons]): [VoiceKeyLogo], its attributes with the
      caller's props spread over them, as the header and pages render it.
    - [Base64]: [FileReader.readAsDataURL]'s encoding, [data_uri], with
      its decoder and the round trip [parse_data_uri_data_uri].  This is
      a browser function, modelled from the spec (§6, glossary).
    - [Recorder] (Module [Recorder]): the recorder as a deterministic
      event machine [step] on the record [RecState].
      - The record's fields are the React state ([status], [stream],
        [analyserNode]), the three refs, the stream captured by the
        committed effect, and the browser objects the code touches
        (stream tracks, audio contexts, the MediaRecorder and its event
        queue, pending FileReaders, [onRecordingComplete] calls, toasts,
        [close()] calls).
      - Each handler of the file is one definition of the same name
        ([getMicPermission] split at its [await] into
        [getMicPermission] and [permissionSettled], [startRecording],
        [stopRecording], [handleButtonClick], [ondataavailable],
        [onstop], [readerDone] for [onloadend]).
      - [commit] is React's commit after a handler: when [stream]
        changed, it runs the previous effect's cleanup
        [stream_effect_cleanup] with its captured stream.
      - [Inv] is the invariant of every reachable state.
    - [Waveform] (Module [Waveform]): [draw]'s loop on IEEE-754 doubles
      (Rocq's primitive floats, so every rounding is the browser's).
      - [draw_loop] is the loop as written, with its accumulators,
        run for its trip count [bufferLength].
      - [frame_ref] is its structural reference.
      - [render] builds the path string, for any [Number::toString].
    - [WaveLoop] (Module [WaveLoop]): the visualiser's effect and the
      browser's animation-frame scheduler as a machine [wstep]
      (re-render, frame, unmount), with the invariant [WInv], and the
      SVG markup ([svg_view]).
    - [Json] (Module [Json]): [JSON.stringify] and [JSON.parse] (an
      ECMAScript library, modelled from its specification) for null,
      booleans, strings with their escapes, and objects.
    - [Store]: the interface [AuthApi] the pages use (the context type
      [AuthContextType]) and its laws [AuthLaws], the spec's contract of
      the mock (§6).
    - [Auth] (Module [Auth]): [AuthProvider].
      - localStorage is a stdpp [gmap] from strings to strings.
      - [load] is the mount effect; [register], [login] and [logout]
        are the context functions; a reload is a fresh provider over the
        same storage.
      - The instances [auth_api] and [auth_laws] discharge the
        interface.
    - [Pages] (Module [Pages]): the login and register pages and the
      header's logout.
      - Each [async] handler is split at its [await]: the click
        suspends a continuation ([Pending]) with the values its closure
        captured, and [fire] runs it when its timer fires, whether or
        not the page is still mounted.  Pages are numbered instances; a
        setter of an unmounted instance does nothing.
      - The buttons with their [disabled] conditions, the links between
        the pages, and each page's markup ([login_view],
        [register_view]).
      - It is a Section over any store satisfying [AuthLaws].
    - [RecorderUI] (Module [RecorderUI]): the recorder's markup
      ([getButtonContent], the panel of lines 127-134) and the recorder
      composed with its visualiser: after each recorder commit,
      [reconcile] mounts, re-renders or unmounts the [WaveLoop] child;
      [ustep] also runs animation frames.  [UInv] is the invariant of
      the pair.
    - [Analysis] (Module [Analysis]): [analyzeSecurity], the flow (its
      input schema, the output returned as Genkit validated it, a
      missing output thrown as a validation [Error]), the prompt rendered on the input
      ([enhanceVoicePrintSecurityPrompt]: template text, the voice print
      as a media part, the user id), the card's [handleAnalysis] (its
      button disabled while loading) and its markup.  The remote model's
      answer is an input.
    - [Views] (Module [Views]): the header's greeting and markup, and
      [DashboardPage] with its avatar lookup, over the [Auth] store and
      the [Analysis] card.
    - [App] (Module [App]): [Pages] over [Auth], the user's scenarios
      ([register_with_recording], [login_with_recording]), and the
      recorder's data URI followed through registration, the store's
      JSON text, login, the dashboard's card and the flow to the prompt.

    ** What the theorems show (claims C1-C37, see PROJECT.json)
    - Recorder: the payload passed to [onRecordingComplete] decodes to
      exactly the captured bytes (C1), and a full cycle produces one
      payload (C2).  The status follows the spec's machine (C3).  While
      mounted, the microphone is live only while recording (C4).  A
      denied permission returns to idle with no stream (C5), and an
      unsupported browser only raises a toast (C11).  The cleanup is
      idempotent (C10), and [onstop]'s payload format is fixed (C14).
      C6-C9 prove the defects the modelling found: a stream that leaks
      when the component unmounts during the permission prompt, a
      completion after unmount, the analyser's context closed while
      recording, and a rejected [close()] on stop.
    - Store and pages: the spec's register-then-login scenario, both at
      the store (C15) and through the pages for any lawful store (C16).
      The store's invariant (C17) and its entries always parse (C13).
      Logout then reload restores the user (C18); [register] overwrites
      (C19).  On the login page, a login without a registered user
      leaves the store as it was, toasts the failure and clears the
      recording (C20).  The voice print round-trips from the recorder's
      encoding through the register page and the store (C12), and on to
      the prompt the model receives, as its media part (C21).  Logout
      stays on the login page (C22).
    - Waveform: [N + 2] path commands (C23).  An all-128 snapshot is
      drawn on the top edge, not at [H/2] (C24).  The loop computes its
      reference (C25).  Heights are exact and bounded (C26), abscissae
      are exact for 1024 bins (C27), and the string has its command
      count (C28).  The animation loop has at most one scheduled
      callback (C30), is cancelled by teardown (C29), and keeps drawing
      while recording (C31).
    - Recorder with its visualiser: a frame is scheduled only while the
      recorder is mounted and recording, drawing from its analyser
      (C33).  Granting the microphone mounts the visualiser on an
      analyser whose context that same commit closes (C34).  A stop
      click cancels the frame in the same commit (C35).
    - Analysis and views: failures, a missing output included, render
      no assessment and toast the message of [analyzeSecurity]'s
      branch (C32); a success renders the assessment, its word cloud
      when the model sent a non-empty one, with the button disabled
      while the request is in flight (C37).  The session user is always
      [null] or a record of strings, so the header renders its id and
      the request passes the flow's input schema (C36).

    ** Bounds and fuel
    No model function takes fuel except the JSON parser.
    - [Waveform.draw_loop]'s counter is the loop's trip count: the
      [for] loop starts at [i = 0] and stops when [i < bufferLength]
      fails, after exactly [bufferLength] iterations, the counter
      [frame_path] passes.
    - [Json.parse_value] is given the text's length as fuel, which
      exceeds the [size] of any value it reads
      ([Json.size_le_length]); the round trip is proved for every value.
    - Numbers are kept at the width the code has: bytes as
      [Byte.byte], the drawing's numbers as binary64 floats, stream and
      context handles as indices into lists of the browser objects.

    ** Not modelled
    - Markup is kept to its text, attributes and the values it shows:
      CSS classes of the pages and cards, icons from lucide-react,
      layout.
    - Toast texts beyond their kind.
    - The language model: an opaque remote call whose answer is an
      input; the JSON text of the output schema that the prompt embeds
      is a parameter.
    - The placeholder images ([lib/placeholder-images], outside the
      sources): the dashboard is modelled for any list of them.
    - Timing: which suspended handler's timer fires next is the
      environment's choice ([Pages.fire] takes its index).
    - The base64 alphabet is taken from RFC 4648, not from a source
      file. *)

From Stdlib Require Import String Ascii.
From Stdlib Require Import List ZArith Lia Bool.
Import ListNotations.

Create HintDb vk.
Create Rewrite HintDb vk_rw.
Declare Scope vk_scope.
Delimit Scope vk_scope with vk.

(** ** Reflexive transitive closure of a step relation *)

Section Star.
Context {S : Type} (R : S -> S -> Prop).

Inductive star : S -> S -> Prop :=
| star_refl s : star s s
| star_step s1 s2 s3 : R s1 s2 -> star s2 s3 -> star s1 s3.

Lemma star_one s1 s2 : R s1 s2 -> star s1 s2.
Proof. eauto using star. Qed.

Lemma star_trans s1 s2 s3 : star s1 s2 -> star s2 s3 -> star s1 s3.
Proof. induction 1; eauto using star. Qed.

(** An invariant preserved by every step holds along every path. *)
Lemma star_invariant (P : S -> Prop) :
  (forall s s', P s -> R s s' -> P s') ->
  forall s s', star s s' -> P s -> P s'.
Proof. intros Hstep s s' Hst; induction Hst; eauto. Qed.
End Star.

#[export] Hint Resolve star_refl star_one star_trans : vk.

(** ** Running a deterministic machine on a list of events *)

Section Run.
Context {S E : Type} (step : S -> E -> S).

Fixpoint run (s : S) (evs : list E) : S :=
  match evs with
  | [] => s
  | e :: evs' => run (step s e) evs'
  end.

Lemma run_app s evs1 evs2 : run s (evs1 ++ evs2) = run (run s evs1) evs2.
Proof. revert s; induction evs1; simpl; auto. Qed.

Lemma run_invariant (P : S -> Prop) :
  (forall s e, P s -> P (step s e)) -> forall evs s, P s -> P (run s evs).
Proof. intros Hstep evs; induction evs; simpl; auto. Qed.
End Run.

Notation "s =[ evs ]=> step" := (run step s evs)
  (at level 70, evs at level 60, step at level 9, only parsing) : vk_scope.

(** ** Exhaustive checks over a bounded range *)

(** [all_below n p] checks [p 0], ..., [p (n-1)]; it is evaluated by
    [vm_compute] to prove a property of every byte (n = 256) or every
    base64 sextet (n = 64). *)
Fixpoint all_below (n : nat) (p : nat -> bool) : bool :=
  match n with
  | O => true
  | S k => all_below k p && p k
  end.

Lemma all_below_spec n p : all_below n p = true -> forall k, k < n -> p k = true.
Proof.
  induction n as [|n IH]; simpl; intros H k Hk; [lia|].
  apply andb_true_iff in H as [H1 H2].
  destruct (Nat.eq_dec k n) as [->|Hne]; auto.
  apply IH; auto; lia.
Qed.

(** The same over [Z], for ranges written as [0 <= z < n]. *)
Lemma all_below_Z n (p : Z -> bool) :
  all_below n (fun k => p (Z.of_nat k)) = true ->
  forall z, (0 <= z < Z.of_nat n)%Z -> p z = true.
Proof.
  intros H z Hz.
  rewrite <- (Z2Nat.id z) by lia.
  apply (all_below_spec n (fun k => p (Z.of_nat k))); auto; lia.
Qed.

(** Every byte: [all_bytes p] evaluates [p] on the 256 values. *)
Definition all_bytes (p : Byte.byte -> bool) : bool :=
  all_below 256 (fun k => match Byte.of_nat k with Some b => p b | None => false end).

Lemma all_bytes_spec p : all_bytes p = true -> forall b, p b = true.
Proof.
  intros H b. pose proof (all_below_spec _ _ H (Byte.to_nat b)) as Hb.
  cbv beta in Hb. rewrite Byte.of_to_nat in Hb. apply Hb. pose proof (Byte.to_nat_bounded b). lia.
Qed.

(** ** Lists *)

(** Dropping empty chunks does not change their concatenation: the
    recorder's [if (event.data.size > 0)] guard is invisible in the
    consolidated blob. *)
Lemma concat_filter_nonempty {A} (ls : list (list A)) :
  concat (filter (fun l => negb (Nat.eqb (List.length l) 0)) ls) = concat ls.
Proof. induction ls as [|[|x l] ls IH]; simpl; rewrite ?IH; auto. Qed.

#[export] Hint Rewrite @concat_filter_nonempty @concat_app app_nil_r : vk_rw.

(** ** Strings *)

Lemma string_app_assoc (a b c : string) :
  String.append (String.append a b) c = String.append a (String.append b c).
Proof. induction a as [|x a IH]; simpl; [reflexivity | now rewrite IH]. Qed.

Lemma string_length_app (a b : string) :
  String.length (String.append a b) = String.length a + String.length b.
Proof. induction a as [|x a IH]; simpl; [reflexivity | now rewrite IH]. Qed.

Lemma string_app_nil_r (a : string) : String.append a EmptyString = a.
Proof. induction a as [|x a IH]; simpl; [reflexivity | now rewrite IH]. Qed.

#[export] Hint Rewrite string_app_assoc string_length_app string_app_nil_r : vk_rw.

(** ** Tactics *)

(** [inv H]: invert and clean up. *)
Ltac inv H := inversion H; subst; clear H.

(** Case on the scrutinee of the first [match] or [if] in the goal. *)
Ltac case_match_goal :=
  match goal with
  | |- context [match ?x with _ => _ end] => destruct x eqn:?
  end.

(** ** Induction three elements at a time *)

(** The shape of a function that consumes a list in groups of three
    (the base64 encoder). *)
Lemma list_ind3 {A} (P : list A -> Prop) :
  P [] -> (forall a, P [a]) -> (forall a b, P [a; b]) ->
  (forall a b c l, P l -> P (a :: b :: c :: l)) -> forall l, P l.
Proof.
  intros H0 H1 H2 H3 l.
  enough (P l /\ (forall a, P (a :: l)) /\ (forall a b, P (a :: b :: l))) by tauto.
  induction l as [|x l [IH1 [IH2 IH3]]]; repeat split; auto.
Qed.

(** ** Updating a list by index *)

(** [l[i] = v] for an array the code owns; out of range the list is
    unchanged (the models only update ids they allocated). *)
Fixpoint upd_nth {A} (l : list A) (i : nat) (v : A) : list A :=
  match l, i with
  | [], _ => []
  | _ :: t, O => v :: t
  | h :: t, S i' => h :: upd_nth t i' v
  end.

Lemma length_upd_nth {A} (l : list A) i v : List.length (upd_nth l i v) = List.length l.
Proof. revert i; induction l; intros [|i]; simpl; auto. Qed.

Lemma nth_upd_nth_eq {A} (l : list A) i v d : i < List.length l -> nth i (upd_nth l i v) d = v.
Proof. revert i; induction l; intros [|i]; simpl; intros; auto with arith; lia. Qed.

Lemma nth_upd_nth_ne {A} (l : list A) i j v d : i <> j -> nth j (upd_nth l i v) d = nth j l d.
Proof. revert i j; induction l; intros [|i] [|j]; simpl; intros; auto; congruence. Qed.

Lemma nth_upd_nth_same_default {A} (l : list A) i j v :
  nth j (upd_nth l i v) v = if Nat.eqb i j then v else nth j l v.
Proof.
  destruct (Nat.eqb_spec i j) as [<-|Hne]; [|now apply nth_upd_nth_ne].
  destruct (Nat.lt_ge_cases i (List.length l)); [now apply nth_upd_nth_eq|].
  rewrite !nth_overflow; rewrite ?length_upd_nth; auto.
Qed.

Lemma nth_error_upd_nth_eq {A} (l : list A) i v :
  nth_error (upd_nth l i v) i = option_map (fun _ => v) (nth_error l i).
Proof. revert i; induction l; intros [|i]; simpl; auto. Qed.

Lemma nth_error_upd_nth_ne {A} (l : list A) i j v :
  i <> j -> nth_error (upd_nth l i v) j = nth_error l j.
Proof. revert i j; induction l; intros [|i] [|j]; simpl; intros; auto; congruence. Qed.

Lemma upd_nth_idem {A} (l : list A) i v : upd_nth (upd_nth l i v) i v = upd_nth l i v.
Proof. revert i; induction l; intros [|i]; simpl; f_equal; auto. Qed.

#[export] Hint Rewrite @length_upd_nth @nth_upd_nth_same_default @upd_nth_idem : vk_rw.
