(* ===== verification/Icons.v ===== *)
(** * The logo ([components/icons.tsx])

    [VoiceKeyLogo] is an SVG element with fixed attributes and five
    paths; the caller's props are spread after the attributes
    ([{...props}]), so a prop overrides the attribute of the same name.
    Attributes are kept as an association list in the order JSX lists
    them; the pages and the header pass only a [className]. *)

From Stdlib Require Import String List Bool.
From S2P Require Import Prelude.
Import ListNotations.

Module Icons.
#[local] Open Scope string_scope.

Definition Attrs := list (string * string).

(** The attributes of lines 3-10. *)
Definition logo_defaults : Attrs :=
  [("width", "24"); ("height", "24"); ("viewBox", "0 0 24 24"); ("fill", "none");
   ("stroke", "currentColor"); ("strokeWidth", "2"); ("strokeLinecap", "round");
   ("strokeLinejoin", "round")].

(** The five [<path d=...>] of lines 13-17. *)
Definition logo_paths : list string :=
  ["M10 9H6a4 4 0 0 0-4 4v0a4 4 0 0 0 4 4h4";
   "M14 9h4a4 4 0 0 1 4 4v0a4 4 0 0 1-4 4h-4";
   "M8 9V7a2 2 0 0 1 2-2h4a2 2 0 0 1 2 2v2";
   "M12 17v2";
   "M12 3v2"].

(** [<svg a1 ... an {...props}>]: a later attribute replaces an earlier
    one of the same name. *)
Definition spread (base props : Attrs) : Attrs :=
  (filter (fun kv => negb (existsb (fun p => String.eqb (fst p) (fst kv)) props)) base ++ props)%list.

Record SvgElement := { svg_attrs : Attrs; svg_paths : list string }.

(** [VoiceKeyLogo] (lines 1-19). *)
Definition VoiceKeyLogo (props : Attrs) : SvgElement :=
  {| svg_attrs := spread logo_defaults props; svg_paths := logo_paths |}.

(** The value of attribute [k], as the DOM reads it. *)
Definition attr (k : string) (a : Attrs) : option string :=
  option_map snd (find (fun kv => String.eqb (fst kv) k) a).

(** ** Lemmas *)

Section Find.
Context {A : Type}.

Lemma find_app (f : A -> bool) l1 l2 :
  find f (l1 ++ l2) = match find f l1 with Some x => Some x | None => find f l2 end.
Proof. induction l1 as [|a l1 IH]; cbn; [reflexivity|]. destruct (f a); auto. Qed.

Lemma find_filter_same (f g : A -> bool) l :
  (forall x, f x = true -> g x = true) -> find f (filter g l) = find f l.
Proof.
  intros H. induction l as [|a l IH]; cbn; [reflexivity|].
  destruct (f a) eqn:Ef; [rewrite (H a Ef); cbn; now rewrite Ef|].
  destruct (g a); cbn; rewrite ?Ef; exact IH.
Qed.

Lemma find_filter_none (f g : A -> bool) l :
  (forall x, f x = true -> g x = false) -> find f (filter g l) = None.
Proof.
  intros H. induction l as [|a l IH]; cbn; [reflexivity|].
  destruct (g a) eqn:Eg; [|exact IH]. cbn. destruct (f a) eqn:Ef; [|exact IH].
  rewrite (H a Ef) in Eg. discriminate.
Qed.
End Find.

(** A prop wins over the default attribute of the same name; the other
    defaults stay. *)
Lemma attr_spread k base props :
  attr k (spread base props) = match attr k props with Some v => Some v | None => attr k base end.
Proof.
  unfold attr, spread. rewrite find_app.
  destruct (find (fun kv => String.eqb (fst kv) k) props) as [[kp vp]|] eqn:Ef.
  - apply find_some in Ef as [Hin Hk]. cbn in Hk. apply String.eqb_eq in Hk. subst kp.
    rewrite find_filter_none; [reflexivity|].
    intros [k' v'] Hk'. cbn in Hk'. apply String.eqb_eq in Hk'. subst k'.
    apply negb_false_iff, existsb_exists. exists (k, vp). cbn. now rewrite String.eqb_refl.
  - rewrite find_filter_same; [now destruct (find _ base)|].
    intros [k' v'] Hk'. cbn in Hk'. apply String.eqb_eq in Hk'. subst k'.
    apply negb_true_iff, not_true_iff_false. intros Hex.
    apply existsb_exists in Hex as ([kq vq] & Hin & Hq). cbn in Hq. apply String.eqb_eq in Hq. subst kq.
    pose proof (find_none _ _ Ef (k, vq) Hin) as Hn. cbn in Hn. now rewrite String.eqb_refl in Hn.
Qed.

End Icons.
