(* ===== verification/Base64.v ===== *)
(** * Base64: the data-URI encoding of a recorded Blob

    The recorder hands its caller [reader.result] after
    [FileReader.readAsDataURL(audioBlob)]
    (src/src/components/voice-recorder.tsx, lines 67-72).  The encoder
    runs in the browser, not in the repository, so this file models it
    from the spec (§6 "Encoded payload format", glossary "Data URI") and
    RFC 4648: bytes are cut into groups of three, each group into four
    6-bit sextets written with the standard alphabet, and a last group of
    one or two bytes is padded with [=].  The decoder is the inverse the
    spec's §8 property speaks of ("base64-decoded, reproduces the exact
    concatenation"); [decode_encode] is that round trip, and
    [parse_data_uri_data_uri] lifts it to the whole data-URI string. *)

From Stdlib Require Import String Ascii.
From Stdlib Require Import List ZArith Lia Bool.
From S2P Require Import Prelude.
Import ListNotations.

Module Base64.

Local Open Scope Z_scope.

(** ** Bytes as 8-bit integers *)

Definition byte_val (b : Byte.byte) : Z := Z.of_N (Byte.to_N b).

Definition byte_of (z : Z) : Byte.byte :=
  match Byte.of_N (Z.to_N z) with Some b => b | None => Byte.x00 end.

(** ** The alphabet: A-Z, a-z, 0-9, [+], [/] *)

Definition sextet_char (n : Z) : ascii :=
  ascii_of_nat (Z.to_nat
    (if n <? 26 then 65 + n
     else if n <? 52 then 97 + (n - 26)
     else if n <? 62 then 48 + (n - 52)
     else if n =? 62 then 43 else 47)).

Definition char_sextet (c : ascii) : option Z :=
  let k := Z.of_nat (nat_of_ascii c) in
  if (65 <=? k) && (k <=? 90) then Some (k - 65)
  else if (97 <=? k) && (k <=? 122) then Some (k - 97 + 26)
  else if (48 <=? k) && (k <=? 57) then Some (k - 48 + 52)
  else if k =? 43 then Some 62
  else if k =? 47 then Some 63
  else None.

Definition pad : ascii := "="%char.

(** ** Cutting three bytes into four sextets and back *)

Definition sext0 (b0 : Z) : Z := Z.shiftr b0 2.
Definition sext1 (b0 b1 : Z) : Z := Z.shiftl (Z.land b0 3) 4 + Z.shiftr b1 4.
Definition sext2 (b1 b2 : Z) : Z := Z.shiftl (Z.land b1 15) 2 + Z.shiftr b2 6.
Definition sext3 (b2 : Z) : Z := Z.land b2 63.

Definition join0 (s0 s1 : Z) : Z := Z.shiftl s0 2 + Z.shiftr s1 4.
Definition join1 (s1 s2 : Z) : Z := Z.shiftl (Z.land s1 15) 4 + Z.shiftr s2 2.
Definition join2 (s2 s3 : Z) : Z := Z.shiftl (Z.land s2 3) 6 + s3.

Arguments sext0 : simpl never.
Arguments sext1 : simpl never.
Arguments sext2 : simpl never.
Arguments sext3 : simpl never.
Arguments join0 : simpl never.
Arguments join1 : simpl never.
Arguments join2 : simpl never.

Definition chars (l : list Z) : string :=
  fold_right (fun n s => String (sextet_char n) s) EmptyString l.

Fixpoint encode (bs : list Byte.byte) : string :=
  match bs with
  | b0 :: b1 :: b2 :: rest =>
      let x0 := byte_val b0 in let x1 := byte_val b1 in let x2 := byte_val b2 in
      chars [sext0 x0; sext1 x0 x1; sext2 x1 x2; sext3 x2] ++ encode rest
  | [b0; b1] =>
      let x0 := byte_val b0 in let x1 := byte_val b1 in
      chars [sext0 x0; sext1 x0 x1; sext2 x1 0] ++ String pad EmptyString
  | [b0] =>
      let x0 := byte_val b0 in
      chars [sext0 x0; sext1 x0 0] ++ String pad (String pad EmptyString)
  | [] => EmptyString
  end.

Fixpoint decode (s : string) : option (list Byte.byte) :=
  match s with
  | EmptyString => Some []
  | String c0 (String c1 (String c2 (String c3 rest))) =>
      match char_sextet c0, char_sextet c1, char_sextet c2, char_sextet c3 with
      | Some s0, Some s1, Some s2, Some s3 =>
          match decode rest with
          | Some bs => Some (byte_of (join0 s0 s1) :: byte_of (join1 s1 s2)
                             :: byte_of (join2 s2 s3) :: bs)
          | None => None
          end
      | Some s0, Some s1, Some s2, None =>
          if Ascii.eqb c3 pad && String.eqb rest EmptyString
          then Some [byte_of (join0 s0 s1); byte_of (join1 s1 s2)] else None
      | Some s0, Some s1, None, None =>
          if Ascii.eqb c2 pad && Ascii.eqb c3 pad && String.eqb rest EmptyString
          then Some [byte_of (join0 s0 s1)] else None
      | _, _, _, _ => None
      end
  | _ => None
  end.

(** ** The data URI [data:<mime>;base64,<payload>] *)

Definition data_uri (mime : string) (bs : list Byte.byte) : string :=
  "data:" ++ mime ++ ";base64," ++ encode bs.

(** Split at the first [;]. *)
Fixpoint split_semi (s : string) : string * string :=
  match s with
  | EmptyString => (EmptyString, EmptyString)
  | String c rest =>
      if Ascii.eqb c ";"%char then (EmptyString, s)
      else let (m, r) := split_semi rest in (String c m, r)
  end.

Definition parse_data_uri (s : string) : option (string * list Byte.byte) :=
  match String.index 0 "data:" s with
  | Some 0%nat =>
      let (mime, rest) := split_semi (substring 5 (String.length s - 5) s) in
      if String.prefix ";base64," rest then
        match decode (substring 8 (String.length rest - 8) rest) with
        | Some bs => Some (mime, bs)
        | None => None
        end
      else None
  | _ => None
  end.

Definition no_semi (s : string) : bool :=
  forallb (fun c => negb (Ascii.eqb c ";"%char)) (list_ascii_of_string s).

(** ** Lemmas *)

Lemma byte_val_range b : 0 <= byte_val b < 256.
Proof.
  unfold byte_val. pose proof (Byte.to_N_bounded b). lia.
Qed.

Lemma byte_of_val b : byte_of (byte_val b) = b.
Proof. unfold byte_of, byte_val. rewrite N2Z.id, Byte.of_to_N. reflexivity. Qed.

#[local] Hint Resolve byte_val_range : vk.

(** Every sextet is written with a character that reads back as it. *)
Lemma char_sextet_char n : 0 <= n < 64 -> char_sextet (sextet_char n) = Some n.
Proof.
  intros Hn.
  enough (Hall : forall z, 0 <= z < Z.of_nat 64 ->
            (match char_sextet (sextet_char z) with
             | Some m => m =? z | None => false end) = true).
  { specialize (Hall n Hn). destruct (char_sextet (sextet_char n)); [|discriminate].
    apply Z.eqb_eq in Hall. now subst. }
  apply all_below_Z. vm_compute. reflexivity.
Qed.

Lemma char_sextet_pad : char_sextet pad = None.
Proof. reflexivity. Qed.

(** Shifts and masks by constants are divisions and remainders. *)
Ltac bits_to_arith :=
  change 3 with (Z.ones 2); change 15 with (Z.ones 4); change 63 with (Z.ones 6);
  rewrite ?Z.shiftr_div_pow2, ?Z.shiftl_mul_pow2, ?Z.land_ones by lia;
  repeat match goal with
         | |- context [2 ^ ?k] => let v := eval vm_compute in (2 ^ k) in change (2 ^ k) with v
         end;
  Z.div_mod_to_equations.

Lemma sextets_range x0 x1 x2 :
  0 <= x0 < 256 -> 0 <= x1 < 256 -> 0 <= x2 < 256 ->
  0 <= sext0 x0 < 64 /\ 0 <= sext1 x0 x1 < 64 /\
  0 <= sext2 x1 x2 < 64 /\ 0 <= sext3 x2 < 64.
Proof.
  intros. unfold sext0, sext1, sext2, sext3.
  bits_to_arith. lia.
Qed.

Lemma joins_sextets x0 x1 x2 :
  0 <= x0 < 256 -> 0 <= x1 < 256 -> 0 <= x2 < 256 ->
  join0 (sext0 x0) (sext1 x0 x1) = x0 /\
  join1 (sext1 x0 x1) (sext2 x1 x2) = x1 /\
  join2 (sext2 x1 x2) (sext3 x2) = x2.
Proof.
  intros. unfold sext0, sext1, sext2, sext3, join0, join1, join2.
  bits_to_arith. lia.
Qed.

(** The facts about one group of three byte values, in the context. *)
Ltac group_facts x0 x1 x2 :=
  pose proof (byte_val_range x0); pose proof (byte_val_range x1);
  pose proof (byte_val_range x2);
  let R := fresh "R" in let J := fresh "J" in
  pose proof (sextets_range (byte_val x0) (byte_val x1) (byte_val x2)) as R;
  pose proof (joins_sextets (byte_val x0) (byte_val x1) (byte_val x2)) as J;
  specialize (R ltac:(assumption) ltac:(assumption) ltac:(assumption));
  specialize (J ltac:(assumption) ltac:(assumption) ltac:(assumption));
  destruct R as (? & ? & ? & ?); destruct J as (? & ? & ?).

(** Decoding inverts encoding, for every byte sequence. *)
Lemma decode_encode bs : decode (encode bs) = Some bs.
Proof.
  induction bs as [|b0|b0 b1|b0 b1 b2 rest IH] using list_ind3; [reflexivity|..].
  - pose proof (byte_val_range b0).
    pose proof (sextets_range (byte_val b0) 0 0) as (? & ? & _); try lia.
    pose proof (joins_sextets (byte_val b0) 0 0) as (J & _); try lia.
    cbn [encode chars fold_right append decode].
    rewrite !char_sextet_char, char_sextet_pad by lia.
    cbn. now rewrite J, byte_of_val.
  - pose proof (byte_val_range b0); pose proof (byte_val_range b1).
    pose proof (sextets_range (byte_val b0) (byte_val b1) 0) as (? & ? & ? & _); try lia.
    pose proof (joins_sextets (byte_val b0) (byte_val b1) 0) as (J0 & J1 & _); try lia.
    cbn [encode chars fold_right append decode].
    rewrite !char_sextet_char, char_sextet_pad by lia.
    cbn. now rewrite J0, J1, !byte_of_val.
  - group_facts b0 b1 b2.
    cbn [encode chars fold_right append decode].
    rewrite !char_sextet_char by lia.
    rewrite IH. match goal with
    | J0 : join0 _ _ = _, J1 : join1 _ _ = _, J2 : join2 _ _ = _ |- _ =>
        now rewrite J0, J1, J2, !byte_of_val end.
Qed.

Lemma substring_all s : substring 0 (String.length s) s = s.
Proof. induction s; simpl; congruence. Qed.

Lemma prefix_empty s : String.prefix "" s = true.
Proof. destruct s; reflexivity. Qed.

Lemma split_semi_app mime rest :
  no_semi mime = true -> split_semi (mime ++ String ";"%char rest) = (mime, String ";"%char rest).
Proof.
  induction mime as [|c mime IH]; simpl; [reflexivity|].
  intros H. apply andb_true_iff in H as [Hc H].
  apply negb_true_iff in Hc. rewrite Hc, IH by exact H. reflexivity.
Qed.

(** The data URI the recorder produces parses back into its MIME type
    and the exact bytes of the recording, whenever the MIME type has no
    [;] (the code writes ["audio/wav"]). *)
Lemma parse_data_uri_data_uri mime bs :
  no_semi mime = true -> parse_data_uri (data_uri mime bs) = Some (mime, bs).
Proof.
  intros Hm. unfold parse_data_uri, data_uri.
  change ("data:" ++ ?x)%string with (String "d" (String "a" (String "t" (String "a" (String ":" x))))).
  simpl. rewrite prefix_empty, Nat.sub_0_r, substring_all.
  change (";base64," ++ ?e)%string with (String ";" ("base64," ++ e)).
  rewrite split_semi_app by exact Hm.
  simpl. rewrite prefix_empty, Nat.sub_0_r, substring_all, decode_encode. reflexivity.
Qed.

(** Every group of up to three bytes gives four characters. *)
Lemma length_encode bs : String.length (encode bs) = (4 * ((List.length bs + 2) / 3))%nat.
Proof.
  induction bs as [|b0|b0 b1|b0 b1 b2 rest IH] using list_ind3; [reflexivity..|].
  cbn [encode chars fold_right]. rewrite string_length_app, IH. cbn [String.length List.length].
  replace (S (S (S (List.length rest))) + 2)%nat with (List.length rest + 2 + 1 * 3)%nat by lia.
  rewrite Nat.div_add by lia. lia.
Qed.

End Base64.
