(* ===== verification/Recorder.v ===== *)
(** * Recorder: the voice-recorder component as an event-driven machine

    Models src/src/components/voice-recorder.tsx.  The state record
    [RecState] holds the component's React state, its three refs, the
    stream captured by its committed [useEffect(..., [stream])], and the
    browser objects the handlers touch.  [step] runs one event: a user
    click (through [handleButtonClick] and the button's [disabled]
    attribute), the [getUserMedia] promise settling (the continuation of
    [getMicPermission]), the platform capturing audio or dispatching the
    MediaRecorder's queued events ([ondataavailable], [onstop]), the
    FileReader finishing ([onloadend]), and the component unmounting.
    After every event the React commit ([commit]) runs the effect's
    cleanup when [stream] changed, exactly as React does: with the
    [stream] of the closure that registered it and the current value of
    [audioContextRef].

    The field [g_captured] is ghost state: the bytes the platform has
    captured for the current MediaRecorder, used to state what the
    delivered data URI must contain. *)

From Stdlib Require Import String Ascii.
From Stdlib Require Import List ZArith Lia Bool.
From S2P Require Import Prelude Base64.
Import ListNotations.

Module Recorder.

(** ** Data *)

(** [type RecordingStatus = 'idle' | 'permission' | 'recording' |
    'processing' | 'finished'] (line 9). *)
Inductive RecordingStatus :=
| Idle | Permission | Recording | Processing | Finished.

Definition status_eqb (a b : RecordingStatus) : bool :=
  match a, b with
  | Idle, Idle | Permission, Permission | Recording, Recording
  | Processing, Processing | Finished, Finished => true
  | _, _ => false
  end.

(** A Blob's bytes. *)
Definition Blob := list Byte.byte.

(** The events a MediaRecorder queues for its handlers. *)
Inductive RecorderEvent :=
| DataAvailable (b : Blob)
| StopEvent.

Inductive RecorderState := RecInactive | RecRecording.

(** A MediaRecorder: the stream it records, its state, the bytes
    captured but not yet handed out, and its queued events. *)
Record MediaRecorder := {
  mr_stream : nat;
  mr_state : RecorderState;
  mr_pending : Blob;
  mr_queue : list RecorderEvent
}.

Inductive CtxState := CtxRunning | CtxClosed.

Inductive Toast := ToastUnsupported | ToastMicDenied.

(** A call of [AudioContext.close()]: the context and whether its
    promise was rejected (the context was already closed). *)
Record CloseCall := { cc_ctx : nat; cc_rejected : bool }.

(** A call of [onRecordingComplete]: the data URI, and whether the
    component was still mounted. *)
Record Completion := { cp_uri : string; cp_mounted : bool }.

#[projections(primitive)]
Record RecState := {
  (* environment *)
  media_supported : bool;          (* navigator.mediaDevices.getUserMedia exists *)
  mounted : bool;
  (* React state (lines 16-18) *)
  status : RecordingStatus;
  stream : option nat;
  analyserNode : option nat;       (* the analyser of this AudioContext *)
  (* refs (lines 19-21) *)
  mediaRecorderRef : option MediaRecorder;
  audioChunksRef : list Blob;
  audioContextRef : option nat;
  (* the stream captured by the committed [stream] effect (lines 99-106) *)
  eff_stream : option nat;
  (* browser objects *)
  streams_live : list bool;        (* per stream id: its tracks not yet stopped *)
  contexts : list CtxState;        (* per AudioContext id *)
  perm_pending : bool;             (* a getUserMedia promise not yet settled *)
  readers : list string;           (* pending FileReaders' results, in order *)
  (* what the component has done, observable from outside *)
  completions : list Completion;
  toasts : list Toast;
  closes : list CloseCall;
  (* ghost *)
  g_captured : Blob
}.

Definition init (media : bool) : RecState := {|
  media_supported := media; mounted := true;
  status := Idle; stream := None; analyserNode := None;
  mediaRecorderRef := None; audioChunksRef := []; audioContextRef := None;
  eff_stream := None; streams_live := []; contexts := []; perm_pending := false;
  readers := []; completions := []; toasts := []; closes := []; g_captured := []
|}.

(** The events the component reacts to. *)
Inductive Event :=
| Click                        (* the user presses the button *)
| PermissionSettled (granted : bool)
| Capture (b : Blob)           (* the platform records audio *)
| RecorderFlush                (* the platform hands out buffered data early *)
| RecorderDeliver              (* the next queued recorder event is dispatched *)
| ReaderDone                   (* the FileReader's [onloadend] *)
| Unmount.

(** ** Field updates (one per field, in declaration order) *)

Definition set_mounted v (s : RecState) : RecState :=
  Build_RecState s.(media_supported) v s.(status) s.(stream) s.(analyserNode) s.(mediaRecorderRef) s.(audioChunksRef) s.(audioContextRef) s.(eff_stream) s.(streams_live) s.(contexts) s.(perm_pending) s.(readers) s.(completions) s.(toasts) s.(closes) s.(g_captured).
Definition set_status v (s : RecState) : RecState :=
  Build_RecState s.(media_supported) s.(mounted) v s.(stream) s.(analyserNode) s.(mediaRecorderRef) s.(audioChunksRef) s.(audioContextRef) s.(eff_stream) s.(streams_live) s.(contexts) s.(perm_pending) s.(readers) s.(completions) s.(toasts) s.(closes) s.(g_captured).
Definition set_stream v (s : RecState) : RecState :=
  Build_RecState s.(media_supported) s.(mounted) s.(status) v s.(analyserNode) s.(mediaRecorderRef) s.(audioChunksRef) s.(audioContextRef) s.(eff_stream) s.(streams_live) s.(contexts) s.(perm_pending) s.(readers) s.(completions) s.(toasts) s.(closes) s.(g_captured).
Definition set_analyserNode v (s : RecState) : RecState :=
  Build_RecState s.(media_supported) s.(mounted) s.(status) s.(stream) v s.(mediaRecorderRef) s.(audioChunksRef) s.(audioContextRef) s.(eff_stream) s.(streams_live) s.(contexts) s.(perm_pending) s.(readers) s.(completions) s.(toasts) s.(closes) s.(g_captured).
Definition set_mediaRecorderRef v (s : RecState) : RecState :=
  Build_RecState s.(media_supported) s.(mounted) s.(status) s.(stream) s.(analyserNode) v s.(audioChunksRef) s.(audioContextRef) s.(eff_stream) s.(streams_live) s.(contexts) s.(perm_pending) s.(readers) s.(completions) s.(toasts) s.(closes) s.(g_captured).
Definition set_audioChunksRef v (s : RecState) : RecState :=
  Build_RecState s.(media_supported) s.(mounted) s.(status) s.(stream) s.(analyserNode) s.(mediaRecorderRef) v s.(audioContextRef) s.(eff_stream) s.(streams_live) s.(contexts) s.(perm_pending) s.(readers) s.(completions) s.(toasts) s.(closes) s.(g_captured).
Definition set_audioContextRef v (s : RecState) : RecState :=
  Build_RecState s.(media_supported) s.(mounted) s.(status) s.(stream) s.(analyserNode) s.(mediaRecorderRef) s.(audioChunksRef) v s.(eff_stream) s.(streams_live) s.(contexts) s.(perm_pending) s.(readers) s.(completions) s.(toasts) s.(closes) s.(g_captured).
Definition set_eff_stream v (s : RecState) : RecState :=
  Build_RecState s.(media_supported) s.(mounted) s.(status) s.(stream) s.(analyserNode) s.(mediaRecorderRef) s.(audioChunksRef) s.(audioContextRef) v s.(streams_live) s.(contexts) s.(perm_pending) s.(readers) s.(completions) s.(toasts) s.(closes) s.(g_captured).
Definition set_streams_live v (s : RecState) : RecState :=
  Build_RecState s.(media_supported) s.(mounted) s.(status) s.(stream) s.(analyserNode) s.(mediaRecorderRef) s.(audioChunksRef) s.(audioContextRef) s.(eff_stream) v s.(contexts) s.(perm_pending) s.(readers) s.(completions) s.(toasts) s.(closes) s.(g_captured).
Definition set_contexts v (s : RecState) : RecState :=
  Build_RecState s.(media_supported) s.(mounted) s.(status) s.(stream) s.(analyserNode) s.(mediaRecorderRef) s.(audioChunksRef) s.(audioContextRef) s.(eff_stream) s.(streams_live) v s.(perm_pending) s.(readers) s.(completions) s.(toasts) s.(closes) s.(g_captured).
Definition set_perm_pending v (s : RecState) : RecState :=
  Build_RecState s.(media_supported) s.(mounted) s.(status) s.(stream) s.(analyserNode) s.(mediaRecorderRef) s.(audioChunksRef) s.(audioContextRef) s.(eff_stream) s.(streams_live) s.(contexts) v s.(readers) s.(completions) s.(toasts) s.(closes) s.(g_captured).
Definition set_readers v (s : RecState) : RecState :=
  Build_RecState s.(media_supported) s.(mounted) s.(status) s.(stream) s.(analyserNode) s.(mediaRecorderRef) s.(audioChunksRef) s.(audioContextRef) s.(eff_stream) s.(streams_live) s.(contexts) s.(perm_pending) v s.(completions) s.(toasts) s.(closes) s.(g_captured).
Definition set_completions v (s : RecState) : RecState :=
  Build_RecState s.(media_supported) s.(mounted) s.(status) s.(stream) s.(analyserNode) s.(mediaRecorderRef) s.(audioChunksRef) s.(audioContextRef) s.(eff_stream) s.(streams_live) s.(contexts) s.(perm_pending) s.(readers) v s.(toasts) s.(closes) s.(g_captured).
Definition set_toasts v (s : RecState) : RecState :=
  Build_RecState s.(media_supported) s.(mounted) s.(status) s.(stream) s.(analyserNode) s.(mediaRecorderRef) s.(audioChunksRef) s.(audioContextRef) s.(eff_stream) s.(streams_live) s.(contexts) s.(perm_pending) s.(readers) s.(completions) v s.(closes) s.(g_captured).
Definition set_closes v (s : RecState) : RecState :=
  Build_RecState s.(media_supported) s.(mounted) s.(status) s.(stream) s.(analyserNode) s.(mediaRecorderRef) s.(audioChunksRef) s.(audioContextRef) s.(eff_stream) s.(streams_live) s.(contexts) s.(perm_pending) s.(readers) s.(completions) s.(toasts) v s.(g_captured).
Definition set_g_captured v (s : RecState) : RecState :=
  Build_RecState s.(media_supported) s.(mounted) s.(status) s.(stream) s.(analyserNode) s.(mediaRecorderRef) s.(audioChunksRef) s.(audioContextRef) s.(eff_stream) s.(streams_live) s.(contexts) s.(perm_pending) s.(readers) s.(completions) s.(toasts) s.(closes) v.

(** ** Operations *)

(** A React state setter: React drops updates of an unmounted component. *)
Definition react_set (upd : RecState -> RecState) (s : RecState) : RecState :=
  if s.(mounted) then upd s else s.

Definition setStatus v := react_set (set_status v).
Definition setStream v := react_set (set_stream v).
Definition setAnalyserNode v := react_set (set_analyserNode v).

Definition is_recording (mr : MediaRecorder) : bool :=
  match mr.(mr_state) with RecRecording => true | RecInactive => false end.

Definition with_recorder (st : RecorderState) (pending : Blob) (q : list RecorderEvent)
  (mr : MediaRecorder) : MediaRecorder :=
  {| mr_stream := mr.(mr_stream); mr_state := st; mr_pending := pending; mr_queue := q |}.

(** [MediaRecorder.start()]. *)
Definition recorder_start (mr : MediaRecorder) : MediaRecorder :=
  with_recorder RecRecording mr.(mr_pending) mr.(mr_queue) mr.

(** [MediaRecorder.stop()]: nothing on an inactive recorder; otherwise a
    last [dataavailable] with the buffered bytes, then [stop]. *)
Definition recorder_stop (mr : MediaRecorder) : MediaRecorder :=
  if is_recording mr
  then with_recorder RecInactive [] (mr.(mr_queue) ++ [DataAvailable mr.(mr_pending); StopEvent]) mr
  else mr.

Definition ctx_closed (s : RecState) (c : nat) : bool :=
  match nth c s.(contexts) CtxClosed with CtxClosed => true | CtxRunning => false end.

(** [audioContext.close()]: the context is closed at once; the promise
    is rejected when it already was. *)
Definition close_ctx (c : nat) (s : RecState) : RecState :=
  set_closes (s.(closes) ++ [{| cc_ctx := c; cc_rejected := ctx_closed s c |}])
    (set_contexts (upd_nth s.(contexts) c CtxClosed) s).

(** [stream.getTracks().forEach(track => track.stop())]; when these are
    the tracks the MediaRecorder records, it stops as on [stop()]. *)
Definition stop_if_recording_from (sid : nat) (mr : MediaRecorder) : MediaRecorder :=
  if Nat.eqb mr.(mr_stream) sid then recorder_stop mr else mr.

Definition stop_tracks (sid : nat) (s : RecState) : RecState :=
  set_mediaRecorderRef (option_map (stop_if_recording_from sid) s.(mediaRecorderRef))
    (set_streams_live (upd_nth s.(streams_live) sid false) s).

Definition stop_stream (o : option nat) (s : RecState) : RecState :=
  match o with Some sid => stop_tracks sid s | None => s end.

(** The cleanup of [useEffect(() => () => {...}, [stream])] (lines
    99-106), for the [stream] its closure captured. *)
Definition close_if_open (s : RecState) : RecState :=
  match s.(audioContextRef) with
  | Some c => if ctx_closed s c then s else close_ctx c s
  | None => s
  end.

Definition stream_effect_cleanup (captured : option nat) (s : RecState) : RecState :=
  close_if_open (stop_stream captured s).

Definition opt_nat_eqb (a b : option nat) : bool :=
  match a, b with
  | Some x, Some y => Nat.eqb x y
  | None, None => true
  | _, _ => false
  end.

(** The React commit after a handler: when [stream] changed, the previous
    effect's cleanup runs and the effect is registered again with the new
    [stream]. *)
Definition commit (s : RecState) : RecState :=
  if s.(mounted) && negb (opt_nat_eqb s.(stream) s.(eff_stream))
  then set_eff_stream s.(stream) (stream_effect_cleanup s.(eff_stream) s)
  else s.

(** [startRecording(currentStream)] (lines 42-78). *)
Definition startRecording (sid : nat) (s : RecState) : RecState :=
  let s1 := setStatus Recording s in
  let c := List.length s1.(contexts) in
  let s2 := set_audioContextRef (Some c) (set_contexts (s1.(contexts) ++ [CtxRunning]) s1) in
  let s3 := setAnalyserNode (Some c) s2 in
  let mr := {| mr_stream := sid; mr_state := RecInactive; mr_pending := []; mr_queue := [] |} in
  let s4 := set_audioChunksRef [] (set_mediaRecorderRef (Some mr) s3) in
  set_g_captured [] (set_mediaRecorderRef (Some (recorder_start mr)) s4).

(** The part of [getMicPermission] before [await] (lines 24-31). *)
Definition getMicPermission (s : RecState) : RecState :=
  if negb s.(media_supported)
  then set_toasts (s.(toasts) ++ [ToastUnsupported]) s
  else set_perm_pending true (setStatus Permission s).

(** The continuation of [getMicPermission] once [getUserMedia] settles
    (lines 31-39): a fresh stream when granted, a toast when refused. *)
Definition permissionSettled (granted : bool) (s : RecState) : RecState :=
  if negb s.(perm_pending) then s else
  let s0 := set_perm_pending false s in
  if granted then
    let sid := List.length s0.(streams_live) in
    let s1 := set_streams_live (s0.(streams_live) ++ [true]) s0 in
    startRecording sid (setStatus Idle (setStream (Some sid) s1))
  else setStatus Idle (set_toasts (s0.(toasts) ++ [ToastMicDenied]) s0).

(** [stopRecording] (lines 80-88). *)
Definition stopRecording (s : RecState) : RecState :=
  let s1 := if status_eqb s.(status) Recording
            then set_mediaRecorderRef (option_map recorder_stop s.(mediaRecorderRef)) s else s in
  let s2 := stop_stream s.(stream) s1 in
  let s3 := match s2.(audioContextRef) with Some c => close_ctx c s2 | None => s2 end in
  setAnalyserNode None (setStream None s3).

(** [handleButtonClick] (lines 90-96). *)
Definition handleButtonClick (s : RecState) : RecState :=
  match s.(status) with
  | Idle | Finished => getMicPermission s
  | Recording => stopRecording s
  | Permission | Processing => s
  end.

(** [disabled={status === 'permission' || status === 'processing'}]
    (line 136). *)
Definition button_disabled (s : RecState) : bool :=
  status_eqb s.(status) Permission || status_eqb s.(status) Processing.

Definition click (s : RecState) : RecState :=
  if s.(mounted) && negb (button_disabled s) then handleButtonClick s else s.

(** [ondataavailable] (lines 59-63). *)
Definition ondataavailable (b : Blob) (s : RecState) : RecState :=
  if Nat.ltb 0 (List.length b) then set_audioChunksRef (s.(audioChunksRef) ++ [b]) s else s.

(** [onstop] (lines 65-75) up to [readAsDataURL]: the Blob of the chunks
    is handed to a FileReader, whose result is [data_uri "audio/wav"]. *)
Definition onstop (s : RecState) : RecState :=
  let s1 := setStatus Processing s in
  set_readers (s1.(readers) ++ [Base64.data_uri "audio/wav" (concat s1.(audioChunksRef))]) s1.

(** The platform dispatches the recorder's next queued event. *)
Definition recorderDeliver (s : RecState) : RecState :=
  match s.(mediaRecorderRef) with
  | Some mr =>
      match mr.(mr_queue) with
      | e :: q =>
          let s1 := set_mediaRecorderRef (Some (with_recorder mr.(mr_state) mr.(mr_pending) q mr)) s in
          match e with
          | DataAvailable b => ondataavailable b s1
          | StopEvent => onstop s1
          end
      | [] => s
      end
  | None => s
  end.

(** The platform records bytes into an active recorder. *)
Definition capture (b : Blob) (s : RecState) : RecState :=
  match s.(mediaRecorderRef) with
  | Some mr =>
      if is_recording mr
      then set_g_captured (s.(g_captured) ++ b)
             (set_mediaRecorderRef
                (Some (with_recorder RecRecording (mr.(mr_pending) ++ b) mr.(mr_queue) mr)) s)
      else s
  | None => s
  end.

(** The platform hands out the buffered bytes before [stop()]. *)
Definition recorderFlush (s : RecState) : RecState :=
  match s.(mediaRecorderRef) with
  | Some mr =>
      if is_recording mr
      then set_mediaRecorderRef
             (Some (with_recorder RecRecording [] (mr.(mr_queue) ++ [DataAvailable mr.(mr_pending)]) mr)) s
      else s
  | None => s
  end.

(** [reader.onloadend] (lines 70-74). *)
Definition readerDone (s : RecState) : RecState :=
  match s.(readers) with
  | r :: rs =>
      setStatus Finished
        (set_completions (s.(completions) ++ [{| cp_uri := r; cp_mounted := s.(mounted) |}])
           (set_readers rs s))
  | [] => s
  end.

(** Unmounting runs the committed effect's cleanup. *)
Definition unmount (s : RecState) : RecState :=
  if s.(mounted) then set_mounted false (stream_effect_cleanup s.(eff_stream) s) else s.

Definition handle (e : Event) (s : RecState) : RecState :=
  match e with
  | Click => click s
  | PermissionSettled g => permissionSettled g s
  | Capture b => capture b s
  | RecorderFlush => recorderFlush s
  | RecorderDeliver => recorderDeliver s
  | ReaderDone => readerDone s
  | Unmount => unmount s
  end.

(** One event: its handler, then the React commit. *)
Definition step (s : RecState) (e : Event) : RecState := commit (handle e s).

#[local] Arguments Base64.data_uri : simpl never.

(** ** Reachable states and the invariant *)

Inductive reachable : RecState -> Prop :=
| reach_init m : reachable (init m)
| reach_step s e : reachable s -> reachable (step s e).

Definition is_data (e : RecorderEvent) : bool :=
  match e with DataAvailable _ => true | StopEvent => false end.

Definition event_data (e : RecorderEvent) : Blob :=
  match e with DataAvailable b => b | StopEvent => [] end.

(** The bytes still travelling in the recorder's queue. *)
Definition queue_data (q : list RecorderEvent) : Blob := concat (map event_data q).

(** A recording recorder has queued only data; a stopped one holds no
    bytes and its [stop] event, if not yet dispatched, is the last. *)
Definition queue_ok (mr : MediaRecorder) : Prop :=
  if is_recording mr then forallb is_data mr.(mr_queue) = true
  else mr.(mr_pending) = [] /\
       (mr.(mr_queue) = [] \/
        exists ds, forallb is_data ds = true /\ mr.(mr_queue) = ds ++ [StopEvent]).

(** No recorder, or one that is stopped with nothing left to dispatch. *)
Definition quiet (o : option MediaRecorder) : Prop :=
  match o with
  | None => True
  | Some mr => mr.(mr_state) = RecInactive /\ mr.(mr_queue) = []
  end.

(** Every captured byte is in the chunk buffer, in the queue or in the
    recorder's buffer, in capture order. *)
Definition accounted (s : RecState) : Prop :=
  match s.(mediaRecorderRef) with
  | Some mr => concat s.(audioChunksRef) ++ queue_data mr.(mr_queue) ++ mr.(mr_pending) = s.(g_captured)
  | None => concat s.(audioChunksRef) = s.(g_captured)
  end.

(** What each status guarantees while the component is mounted. *)
Definition phase (s : RecState) : Prop :=
  match s.(status) with
  | Idle | Finished =>
      s.(perm_pending) = false /\ s.(readers) = [] /\ quiet s.(mediaRecorderRef) /\
      s.(stream) = None /\ s.(analyserNode) = None
  | Permission =>
      s.(perm_pending) = true /\ s.(stream) = None /\ s.(analyserNode) = None
  | Recording =>
      s.(perm_pending) = false /\ s.(readers) = [] /\
      (exists mr, s.(mediaRecorderRef) = Some mr /\
                  (is_recording mr = false -> s.(stream) = None /\ s.(analyserNode) = None) /\
                  (is_recording mr = true -> s.(stream) = Some mr.(mr_stream))) /\
      (exists c, s.(audioContextRef) = Some c /\ ctx_closed s c = true /\
                 (s.(analyserNode) = None \/ s.(analyserNode) = Some c))
  | Processing =>
      s.(perm_pending) = false /\ List.length s.(readers) = 1 /\ quiet s.(mediaRecorderRef) /\
      s.(stream) = None /\ s.(analyserNode) = None
  end.

Record Inv (s : RecState) : Prop := {
  inv_accounted : accounted s;
  inv_queue : forall mr, s.(mediaRecorderRef) = Some mr -> queue_ok mr;
  inv_readers : Forall (fun r => r = Base64.data_uri "audio/wav" s.(g_captured)) s.(readers);
  inv_readers_one : s.(readers) = [] \/
                    (List.length s.(readers) = 1 /\ quiet s.(mediaRecorderRef) /\ s.(perm_pending) = false);
  inv_perm : s.(perm_pending) = true -> s.(readers) = [] /\ quiet s.(mediaRecorderRef);
  inv_phase : s.(mounted) = true -> s.(eff_stream) = s.(stream) /\ phase s
}.

(** The microphone streams the component holds: while mounted, a live
    stream is the one in its [stream] state. *)
Definition live_ok (s : RecState) : Prop :=
  s.(mounted) = true ->
  forall sid, nth_error s.(streams_live) sid = Some true -> s.(stream) = Some sid.

(** ** The status machine of the spec (§4.4) *)

(** The transitions the spec allows between the five statuses. *)
Inductive spec_step : RecordingStatus -> RecordingStatus -> Prop :=
| spec_start_idle : spec_step Idle Permission
| spec_start_again : spec_step Finished Permission
| spec_granted : spec_step Permission Recording
| spec_denied : spec_step Permission Idle
| spec_finalize : spec_step Recording Processing
| spec_encoded : spec_step Processing Finished.

(** A recording in progress: the recorder records stream [sid], has
    buffered [bytes] and dispatched nothing, and the completions are
    [cps]. *)
Definition recording_with (s : RecState) (sid : nat) (bytes : Blob) (cps : list Completion) : Prop :=
  s.(mounted) = true /\ s.(status) = Recording /\ s.(stream) = Some sid /\
  s.(eff_stream) = Some sid /\
  s.(mediaRecorderRef) = Some {| mr_stream := sid; mr_state := RecRecording;
                                 mr_pending := bytes; mr_queue := [] |} /\
  s.(audioChunksRef) = [] /\ s.(g_captured) = bytes /\ s.(readers) = [] /\
  s.(completions) = cps.

(** ** Concrete runs used as witnesses *)

Definition demo_bytes : Blob := [Byte.x4d; Byte.x61; Byte.x6e].

(** Start, allow the microphone, capture three bytes. *)
Definition demo_recording : RecState :=
  run step (init true) [Click; PermissionSettled true; Capture demo_bytes].

(** ** Lemmas *)

Lemma status_eqb_eq a b : status_eqb a b = true <-> a = b.
Proof. destruct a, b; simpl; intuition congruence. Qed.

Lemma Inv_init m : Inv (init m).
Proof. constructor; cbn; intros; try discriminate; auto; repeat split; auto. Qed.

Lemma queue_data_app q1 q2 : queue_data (q1 ++ q2) = queue_data q1 ++ queue_data q2.
Proof. unfold queue_data. now rewrite map_app, concat_app. Qed.

Lemma recording_not_quiet mr : is_recording mr = true -> ~ quiet (Some mr).
Proof. unfold is_recording, quiet. destruct (mr_state mr); intuition discriminate. Qed.

Lemma quiet_not_recording mr : quiet (Some mr) -> is_recording mr = false.
Proof. unfold is_recording, quiet. now intros [-> _]. Qed.

(** A recorder that is still recording, or still has events to
    dispatch, belongs to the [recording] phase: nothing is being read and
    no permission is pending. *)
Lemma Inv_active s mr :
  Inv s -> s.(mediaRecorderRef) = Some mr -> ~ quiet (Some mr) ->
  s.(readers) = [] /\ s.(perm_pending) = false /\ (s.(mounted) = true -> s.(status) = Recording).
Proof.
  intros [_ _ _ Hr1 Hp Hph] Emr Hnq.
  assert (s.(readers) = []) as Hrd
    by (destruct Hr1 as [|(_ & Hq & _)]; [auto | rewrite Emr in Hq; contradiction]).
  assert (s.(perm_pending) = false) as Hpp
    by (destruct (perm_pending s); auto; destruct (Hp eq_refl) as [_ Hq];
        rewrite Emr in Hq; contradiction).
  repeat split; auto. intros Hm. destruct (Hph Hm) as [_ Hph'].
  unfold phase in Hph'. rewrite Emr in Hph'.
  destruct (status s); intuition congruence.
Qed.

Lemma Inv_recording s mr :
  Inv s -> s.(mediaRecorderRef) = Some mr -> is_recording mr = true ->
  s.(readers) = [] /\ s.(perm_pending) = false /\ (s.(mounted) = true -> s.(status) = Recording).
Proof. intros HI Emr Erec. exact (Inv_active s mr HI Emr (recording_not_quiet mr Erec)). Qed.

(** Stopping a recorder keeps its bytes in order and its queue well formed. *)
Lemma recorder_stop_data mr :
  queue_data (recorder_stop mr).(mr_queue) ++ (recorder_stop mr).(mr_pending) =
  queue_data mr.(mr_queue) ++ mr.(mr_pending).
Proof.
  unfold recorder_stop. destruct (is_recording mr); simpl; auto.
  rewrite queue_data_app. unfold queue_data at 2. simpl. now rewrite !app_nil_r.
Qed.

Lemma recorder_stop_ok mr : queue_ok mr -> queue_ok (recorder_stop mr).
Proof.
  unfold queue_ok, recorder_stop. destruct (is_recording mr) eqn:E; simpl; [|rewrite E; auto].
  intros Hd. split; auto. right. exists (mr_queue mr ++ [DataAvailable (mr_pending mr)]).
  split; [rewrite forallb_app, Hd; reflexivity | now rewrite <- app_assoc].
Qed.

Lemma not_recording_inactive mr : is_recording mr = false -> mr.(mr_state) = RecInactive.
Proof. unfold is_recording. destruct (mr_state mr); congruence. Qed.

Lemma recorder_stop_not_recording mr : is_recording (recorder_stop mr) = false.
Proof.
  unfold recorder_stop. destruct (is_recording mr) eqn:E; [reflexivity | exact E].
Qed.

Lemma stop_if_inactive sid mr : is_recording mr = false -> stop_if_recording_from sid mr = mr.
Proof.
  intros E. unfold stop_if_recording_from, recorder_stop. rewrite E. now destruct (Nat.eqb _ _).
Qed.

Lemma ctx_closed_close_ctx c s : ctx_closed (close_ctx c s) c = true.
Proof. unfold ctx_closed. cbn. now rewrite nth_upd_nth_same_default, Nat.eqb_refl. Qed.

Lemma ctx_closed_set_eff_stream v s c : ctx_closed (set_eff_stream v s) c = ctx_closed s c.
Proof. reflexivity. Qed.
Lemma ctx_closed_stop_tracks sid s c : ctx_closed (stop_tracks sid s) c = ctx_closed s c.
Proof. reflexivity. Qed.
Lemma ctx_closed_set_analyserNode v s c : ctx_closed (set_analyserNode v s) c = ctx_closed s c.
Proof. reflexivity. Qed.
Lemma ctx_closed_set_stream v s c : ctx_closed (set_stream v s) c = ctx_closed s c.
Proof. reflexivity. Qed.

Lemma recorder_stop_quiet mr : quiet (Some mr) -> recorder_stop mr = mr.
Proof. intros Hq. unfold recorder_stop. now rewrite (quiet_not_recording mr Hq). Qed.

#[local] Hint Resolve recorder_stop_ok : vk.

Lemma set_g_captured_same s : set_g_captured s.(g_captured) s = s.
Proof. destruct s; reflexivity. Qed.

(** Replacing a recording recorder by another recording one that holds
    the same bytes plus the newly captured ones keeps the invariant. *)
Lemma Inv_replace_recording s mr mr' g :
  Inv s -> s.(mediaRecorderRef) = Some mr -> is_recording mr = true ->
  is_recording mr' = true -> mr'.(mr_stream) = mr.(mr_stream) ->
  forallb is_data mr'.(mr_queue) = true ->
  concat s.(audioChunksRef) ++ queue_data mr'.(mr_queue) ++ mr'.(mr_pending) = g ->
  Inv (set_g_captured g (set_mediaRecorderRef (Some mr') s)).
Proof.
  intros HI Emr Erec Erec' Hsid Hd' Hacc'.
  destruct (Inv_recording s mr HI Emr Erec) as (Hrd & Hpp & Hst).
  destruct HI as [_ _ _ _ _ Hph].
  constructor; cbn [set_g_captured set_mediaRecorderRef mediaRecorderRef readers g_captured
                    perm_pending mounted audioChunksRef eff_stream stream].
  - exact Hacc'.
  - intros mr'' [= <-]. unfold queue_ok. now rewrite Erec'.
  - rewrite Hrd. constructor.
  - now left.
  - congruence.
  - intros Hm. destruct (Hph Hm) as [He Hph']. split; [exact He|].
    unfold phase, ctx_closed in *. cbn. rewrite (Hst Hm) in *.
    destruct Hph' as (H1 & H2 & (mr0 & Emr0 & _ & Hs) & H4).
    refine (conj H1 (conj H2 (conj _ H4))).
    rewrite Emr in Emr0. injection Emr0 as <-.
    exists mr'. split; [reflexivity|]. split; [congruence|]. rewrite Hsid. auto.
Qed.

Lemma Inv_capture s b : Inv s -> Inv (capture b s).
Proof.
  intros HI. unfold capture.
  destruct (mediaRecorderRef s) as [mr|] eqn:Emr; [|exact HI].
  destruct (is_recording mr) eqn:Erec; [|exact HI].
  eapply Inv_replace_recording; eauto; cbn.
  - now apply (inv_queue s HI) in Emr; unfold queue_ok in Emr; rewrite Erec in Emr.
  - pose proof (inv_accounted s HI) as Hacc. unfold accounted in Hacc. rewrite Emr in Hacc.
    rewrite <- Hacc. now rewrite !app_assoc.
Qed.

Lemma Inv_flush s : Inv s -> Inv (recorderFlush s).
Proof.
  intros HI. unfold recorderFlush.
  destruct (mediaRecorderRef s) as [mr|] eqn:Emr; [|exact HI].
  destruct (is_recording mr) eqn:Erec; [|exact HI].
  pose proof (inv_queue s HI mr Emr) as Hq. unfold queue_ok in Hq. rewrite Erec in Hq.
  rewrite <- (set_g_captured_same (set_mediaRecorderRef _ s)).
  eapply Inv_replace_recording; eauto; cbn.
  - now rewrite forallb_app, Hq.
  - pose proof (inv_accounted s HI) as Hacc. unfold accounted in Hacc. rewrite Emr in Hacc.
    rewrite <- Hacc. unfold queue_data. rewrite map_app, concat_app. cbn.
    now rewrite !app_nil_r, app_assoc.
Qed.

Lemma queue_ok_pop mr e q :
  mr.(mr_queue) = e :: q -> queue_ok mr ->
  queue_ok (with_recorder mr.(mr_state) mr.(mr_pending) q mr) /\
  (e = StopEvent -> is_recording mr = false /\ q = [] /\ mr.(mr_pending) = []).
Proof.
  unfold queue_ok, is_recording, with_recorder; cbn. intros Eq.
  rewrite Eq. destruct (mr_state mr).
  - intros [Hp [Hnil | (ds & Hds & Heq)]]; [discriminate|].
    destruct ds as [|d ds]; cbn in Heq; injection Heq as -> ->.
    + split; [split; auto | intros _; auto].
    + cbn in Hds. apply andb_true_iff in Hds as [Hd Hds].
      split; [split; eauto | intros ->; discriminate].
  - cbn. intros H. apply andb_true_iff in H as [He Hq].
    split; [exact Hq | intros ->; discriminate].
Qed.

Lemma Inv_deliver s : Inv s -> Inv (recorderDeliver s).
Proof.
  intros HI. unfold recorderDeliver.
  destruct (mediaRecorderRef s) as [mr|] eqn:Emr; [|exact HI].
  destruct (mr_queue mr) as [|e q] eqn:Eq; [exact HI|].
  assert (Hnq : ~ quiet (Some mr)) by (cbn; rewrite Eq; intros [_ ?]; discriminate).
  destruct (Inv_active s mr HI Emr Hnq) as (Hrd & Hpp & Hst).
  destruct (queue_ok_pop mr e q Eq (inv_queue s HI mr Emr)) as [Hq' Hstop].
  pose proof (inv_accounted s HI) as Hacc. unfold accounted in Hacc. rewrite Emr, Eq in Hacc.
  destruct HI as [_ _ _ _ _ Hph].
  destruct e as [b|].
  - (* ondataavailable *)
    unfold ondataavailable.
    assert (Hb : Nat.ltb 0 (List.length b) = false -> b = [])
      by (destruct b; [reflexivity | discriminate]).
    destruct (Nat.ltb 0 (List.length b)) eqn:El;
      constructor; cbn [set_mediaRecorderRef set_audioChunksRef mediaRecorderRef readers g_captured
                        perm_pending mounted audioChunksRef eff_stream stream].
    all: try (intros mr' [= <-]; exact Hq').
    all: try (rewrite Hrd; constructor).
    all: try (now left).
    all: try congruence.
    1, 3: unfold accounted; cbn; rewrite <- Hacc; unfold queue_data; cbn.
    1: rewrite concat_app; cbn; now rewrite !app_nil_r, !app_assoc.
    1: now rewrite (Hb eq_refl).
    all: intros Hm; destruct (Hph Hm) as [He Hph']; split; auto;
        unfold phase, ctx_closed in *; cbn; rewrite (Hst Hm) in *;
        destruct Hph' as (H1 & H2 & (mr0 & Emr0 & Hs) & H4);
        (refine (conj H1 (conj H2 (conj _ H4))));
        rewrite Emr in Emr0; injection Emr0 as <-;
        eexists; split; [reflexivity | exact Hs].
  - (* onstop *)
    destruct (Hstop eq_refl) as (Hrec & -> & Hpend).
    rewrite Hpend in Hacc. cbn in Hacc. rewrite app_nil_r in Hacc.
    unfold onstop, setStatus, react_set. cbn [mounted set_mediaRecorderRef].
    pose proof (not_recording_inactive mr Hrec) as Hina.
    destruct (mounted s) eqn:Hm; constructor; cbn.
    all: lazymatch goal with
         | |- accounted _ =>
             unfold accounted; cbn; unfold queue_data; cbn; rewrite Hpend, !app_nil_r; exact Hacc
         | |- concat _ ++ _ = _ => rewrite Hpend, app_nil_r; exact Hacc
         | |- forall mr', _ = Some mr' -> _ => let m := fresh in intros m Hm'; injection Hm' as <-; exact Hq'
         | |- Forall _ _ => rewrite Hrd, Hacc; repeat constructor
         | |- _ \/ _ => right; rewrite Hrd; cbn; auto
         | |- perm_pending _ = true -> _ => intros; congruence
         | |- _ => idtac
         end.
    all: try discriminate; try (intros; congruence).
    intros _. destruct (Hph eq_refl) as [He Hph']. split; [exact He|].
    unfold phase in *. rewrite (Hst eq_refl) in Hph'. cbn.
    destruct Hph' as (_ & _ & (mr0 & Emr0 & Hs) & _).
    rewrite Emr in Emr0. injection Emr0 as <-. destruct (proj1 Hs Hrec) as [Hs1 Hs2].
    rewrite Hrd. repeat split; auto.
Qed.

(** A reader is pending only in the [processing] phase. *)
Lemma Inv_reading s r rs :
  Inv s -> s.(readers) = r :: rs ->
  rs = [] /\ quiet s.(mediaRecorderRef) /\ s.(perm_pending) = false /\
  (s.(mounted) = true -> s.(status) = Processing /\ s.(stream) = None /\ s.(analyserNode) = None).
Proof.
  intros [_ _ _ Hr1 _ Hph] Er. rewrite Er in Hr1.
  destruct Hr1 as [|(Hl & Hq & Hp)]; [discriminate|].
  destruct rs; [|discriminate]. split; [reflexivity|]. split; [exact Hq|]. split; [exact Hp|].
  intros Hm; destruct (Hph Hm) as [_ Hph']; unfold phase in Hph'; rewrite Er in Hph'.
  destruct (status s); intuition (discriminate || congruence).
Qed.

Lemma Inv_readerDone s : Inv s -> Inv (readerDone s).
Proof.
  intros HI. unfold readerDone.
  destruct (readers s) as [|r rs] eqn:Er; [exact HI|].
  destruct (Inv_reading s r rs HI Er) as (-> & Hq & Hpp & Hst).
  destruct HI as [Hacc Hqok _ _ _ Hph].
  unfold setStatus, react_set. cbn [mounted set_completions set_readers].
  destruct (mounted s) eqn:Hm; constructor; cbn; auto; try congruence.
  intros _. destruct (Hph eq_refl) as [He _]. destruct (Hst eq_refl) as (_ & Hs & Ha).
  repeat split; auto.
Qed.

Lemma close_ctx_fields c s :
  close_ctx c s = set_closes (s.(closes) ++ [{| cc_ctx := c; cc_rejected := ctx_closed s c |}])
                    (set_contexts (upd_nth s.(contexts) c CtxClosed) s).
Proof. reflexivity. Qed.

(** Closing the AudioContext only touches the contexts and the log of
    [close()] calls. *)
Lemma close_if_open_fields s :
  exists cs cl, close_if_open s = set_closes cl (set_contexts cs s).
Proof.
  unfold close_if_open. destruct (audioContextRef s) as [c|]; [destruct (ctx_closed s c)|].
  all: try (do 2 eexists; reflexivity).
  all: exists s.(contexts), s.(closes); destruct s; reflexivity.
Qed.

Lemma stop_if_quiet sid o : quiet o -> option_map (stop_if_recording_from sid) o = o.
Proof.
  destruct o as [mr|]; [|reflexivity]. intros Hq. cbn. unfold stop_if_recording_from.
  now rewrite recorder_stop_quiet by exact Hq; destruct (Nat.eqb _ _).
Qed.

Lemma stop_if_data sid mr :
  queue_data (stop_if_recording_from sid mr).(mr_queue) ++ (stop_if_recording_from sid mr).(mr_pending) =
  queue_data mr.(mr_queue) ++ mr.(mr_pending).
Proof. unfold stop_if_recording_from. destruct (Nat.eqb _ _); auto using recorder_stop_data. Qed.

Lemma stop_if_ok sid mr : queue_ok mr -> queue_ok (stop_if_recording_from sid mr).
Proof. unfold stop_if_recording_from. destruct (Nat.eqb _ _); auto using recorder_stop_ok. Qed.

(** Stopping a stream's tracks keeps every part of the invariant that
    does not mention the phase. *)
Lemma Inv_stop_tracks_core s sid :
  Inv s -> (s.(mounted) = true -> s.(eff_stream) = s.(stream) /\ phase (stop_tracks sid s)) ->
  Inv (stop_tracks sid s).
Proof.
  intros [Hacc Hq Hr Hr1 Hp _] Hph. constructor; cbn; auto.
  - unfold accounted in *. cbn. destruct (mediaRecorderRef s) as [mr|]; cbn; auto.
    now rewrite stop_if_data.
  - destruct (mediaRecorderRef s) as [mr|]; cbn; intros mr' [= <-]; auto using stop_if_ok.
  - destruct Hr1 as [|(H1 & H2 & H3)]; [now left|right]. rewrite stop_if_quiet; auto.
  - intros Hpp. destruct (Hp Hpp). rewrite stop_if_quiet; auto.
Qed.

Lemma Inv_set_unmounted s : Inv s -> Inv (set_mounted false s).
Proof. intros [Ha Hq Hr Hr1 Hp _]. constructor; cbn; auto; discriminate. Qed.

Lemma Inv_close_if_open s :
  Inv s -> (s.(mounted) = true -> s.(eff_stream) = s.(stream) /\ phase (close_if_open s)) ->
  Inv (close_if_open s).
Proof.
  intros [Ha Hq Hr Hr1 Hp _] Hph. destruct (close_if_open_fields s) as (cs & cl & E).
  rewrite E in *. constructor; cbn; auto.
Qed.

Lemma Inv_stop_stream_unmounted s o : Inv s -> s.(mounted) = false -> Inv (stop_stream o s).
Proof.
  intros HI Hm. destruct o as [sid|]; [|exact HI].
  apply Inv_stop_tracks_core; auto. cbn. congruence.
Qed.

Lemma Inv_unmount s : Inv s -> Inv (unmount s).
Proof.
  intros HI. unfold unmount. destruct (mounted s) eqn:Hm; [|exact HI].
  replace (set_mounted false (stream_effect_cleanup (eff_stream s) s))
    with (stream_effect_cleanup (eff_stream s) (set_mounted false s))
    by (unfold stream_effect_cleanup, close_if_open, stop_stream, ctx_closed;
        destruct (eff_stream s); cbn; destruct (audioContextRef s) as [c|]; cbn;
        try destruct (nth c _ _); reflexivity).
  pose proof (Inv_set_unmounted s HI) as HI'.
  unfold stream_effect_cleanup. apply Inv_close_if_open.
  - now apply Inv_stop_stream_unmounted.
  - destruct (eff_stream s); cbn; discriminate.
Qed.

Lemma Inv_stop_click s :
  Inv s -> s.(mounted) = true -> s.(status) = Recording -> Inv (commit (stopRecording s)).
Proof.
  intros HI Hm Hst. destruct HI as [Hacc Hq Hr Hr1 Hp Hph].
  destruct (Hph Hm) as [He Hph']. unfold phase in Hph'. rewrite Hst in Hph'.
  destruct Hph' as (Hpp & Hrd & (mr & Emr & Hmr) & (c & Ec & Hc & Ha)).
  destruct s as [ms mo st str an mrr ch cr es sl cs pp rd cp ts cl gc]; cbn in *; subst.
  unfold stopRecording, commit, stream_effect_cleanup, close_if_open, stop_stream,
    setAnalyserNode, setStream, react_set; cbn.
  pose proof (recorder_stop_not_recording mr) as Hns.
  destruct str as [sid|]; cbn.
  1: match goal with
     | |- context [ctx_closed ?X c] =>
         replace (ctx_closed X c) with true
           by (unfold ctx_closed; cbn; rewrite nth_upd_nth_same_default, Nat.eqb_refl; reflexivity)
     end.
  all: constructor; cbn; rewrite ?(stop_if_inactive sid (recorder_stop mr) Hns).
  all: try (intros ? [= <-]; now apply recorder_stop_ok, Hq).
  all: try (unfold accounted in *; cbn in *; now rewrite recorder_stop_data).
  all: try (now left); try constructor; try discriminate.
  all: try reflexivity.
  all: split; [reflexivity|]; split; [reflexivity|]; split;
       [exists (recorder_stop mr); split; [reflexivity|];
        split; [intros _; split; reflexivity | rewrite Hns; discriminate]|].
  all: exists c; split; [reflexivity|]; split; [|now left].
  all: rewrite ?ctx_closed_set_eff_stream, ?ctx_closed_stop_tracks, ?ctx_closed_set_analyserNode,
         ?ctx_closed_set_stream; apply ctx_closed_close_ctx.
Qed.

Lemma opt_nat_eqb_refl o : opt_nat_eqb o o = true.
Proof. destruct o; cbn; auto using Nat.eqb_refl. Qed.

(** In an invariant state the committed effect is up to date, so a
    commit that follows a handler which left [stream] alone does nothing. *)
Lemma commit_stable s : Inv s -> commit s = s.
Proof.
  intros HI. unfold commit. destruct (mounted s) eqn:Hm; [|reflexivity].
  destruct (inv_phase s HI Hm) as [-> _]. now rewrite opt_nat_eqb_refl.
Qed.

Lemma Inv_set_toasts s t : Inv s -> Inv (set_toasts t s).
Proof. intros [Ha Hq Hr Hr1 Hp Hph]. constructor; cbn; auto. Qed.

Lemma Inv_permission s g : Inv s -> Inv (commit (permissionSettled g s)).
Proof.
  intros HI. unfold permissionSettled.
  destruct (perm_pending s) eqn:Hpp; [|now rewrite commit_stable].
  destruct (inv_perm s HI Hpp) as [Hrd Hq].
  destruct HI as [Hacc Hqok Hr Hr1 Hp Hph].
  assert (Hst : mounted s = true -> status s = Permission /\ stream s = None /\
                                    eff_stream s = None /\ analyserNode s = None).
  { intros Hm. destruct (Hph Hm) as [He Hph']. unfold phase in Hph'.
    destruct (status s); intuition congruence. }
  destruct s as [ms mo st str an mrr ch cr es sl cs pp rd cp ts cl gc]; cbn in *; subst.
  destruct g, mo; cbn in *.
  - destruct (Hst eq_refl) as (-> & -> & -> & ->).
    unfold commit, stream_effect_cleanup, close_if_open, ctx_closed; cbn.
    rewrite nth_middle.
    constructor; cbn; auto; try discriminate.
    + intros mr [= <-]. reflexivity.
    + intros _. split; [reflexivity|]. split; [reflexivity|]. split; [reflexivity|].
      split; [eexists; split; [reflexivity | split; [discriminate | reflexivity]]|].
      eexists; split; [reflexivity|]. split; [|right; reflexivity].
      rewrite ctx_closed_set_eff_stream. apply ctx_closed_close_ctx.
  - constructor; cbn; auto; try discriminate.
    intros mr [= <-]. reflexivity.
  - destruct (Hst eq_refl) as (-> & -> & -> & ->).
    unfold commit; cbn. constructor; cbn; auto; try discriminate.
    intros _. repeat split; auto.
  - unfold commit; cbn. constructor; cbn; auto; try discriminate.
Qed.

Lemma Inv_request_permission s :
  Inv s -> s.(mounted) = true -> s.(status) = Idle \/ s.(status) = Finished ->
  Inv (set_perm_pending true (setStatus Permission s)).
Proof.
  intros [Ha Hq Hr Hr1 Hp Hph] Hm Hst.
  destruct (Hph Hm) as [He Hph']. unfold phase in Hph'.
  assert (Hidle : perm_pending s = false /\ readers s = [] /\ quiet (mediaRecorderRef s) /\
                  stream s = None /\ analyserNode s = None)
    by (destruct Hst as [E|E]; rewrite E in Hph'; exact Hph').
  destruct Hidle as (Hpp & Hrd & Hqt & Hs & Han).
  unfold setStatus, react_set. rewrite Hm.
  constructor; cbn; auto.
Qed.

Lemma Inv_click s : Inv s -> Inv (commit (click s)).
Proof.
  intros HI. unfold click.
  destruct (mounted s) eqn:Hm; cbn [andb]; [|now rewrite commit_stable].
  unfold button_disabled, handleButtonClick.
  destruct (status s) eqn:Hst; cbn [andb negb orb status_eqb]; try (now rewrite commit_stable).
  2: now apply Inv_stop_click.
  all: unfold getMicPermission; destruct (media_supported s); cbn [negb].
  all: rewrite commit_stable; auto using Inv_set_toasts.
  all: apply Inv_request_permission; auto.
Qed.

(** Every event keeps the invariant. *)
Lemma Inv_step s e : Inv s -> Inv (step s e).
Proof.
  intros HI. unfold step, handle. destruct e.
  - now apply Inv_click.
  - now apply Inv_permission.
  - rewrite commit_stable; auto using Inv_capture.
  - rewrite commit_stable; auto using Inv_flush.
  - rewrite commit_stable; auto using Inv_deliver.
  - rewrite commit_stable; auto using Inv_readerDone.
  - rewrite commit_stable; auto using Inv_unmount.
Qed.

Lemma reachable_Inv s : reachable s -> Inv s.
Proof. induction 1; auto using Inv_init, Inv_step. Qed.

(** Case on every [match] and [if] left in the goal, simplifying after
    each split. *)
Ltac split_ifs :=
  repeat (first [ case_match_goal
                | match goal with |- context [if ?b then _ else _] => destruct b eqn:? end ];
          cbn in *).

Lemma status_stopRecording x : status (stopRecording x) = status x.
Proof.
  unfold stopRecording, stop_stream, setStatus, setStream, setAnalyserNode, react_set.
  cbn. split_ifs; reflexivity.
Qed.

(** Only [onloadend] calls [onRecordingComplete]. *)
Lemma step_completions s e :
  completions (step s e) =
  completions s ++ match e, readers s with
                   | ReaderDone, r :: _ => [{| cp_uri := r; cp_mounted := mounted s |}]
                   | _, _ => []
                   end.
Proof.
  assert (Hc : forall x, completions (commit x) = completions x).
  { intros x. unfold commit, stream_effect_cleanup, close_if_open, stop_stream.
    destruct (_ && _); [|reflexivity]. cbn.
    destruct (eff_stream x), (audioContextRef _); cbn; try destruct (ctx_closed _ _); reflexivity. }
  unfold step. rewrite Hc. rewrite <- app_nil_r at 1.
  destruct e; cbn [handle].
  all: try (destruct (readers s) as [|r rs] eqn:Er; cbn [app]).
  all: unfold click, handleButtonClick, getMicPermission, stopRecording, permissionSettled,
         startRecording, capture, recorderFlush, recorderDeliver, ondataavailable, onstop,
         readerDone, unmount, stream_effect_cleanup, close_if_open, stop_stream,
         setStatus, setStream, setAnalyserNode, react_set.
  all: split_ifs.
  all: rewrite ?app_nil_r; congruence.
Qed.

Lemma reachable_run s evs : reachable s -> reachable (run step s evs).
Proof. revert s; induction evs; cbn; auto using reach_step. Qed.

(** What a click on "Stop Recording" does, field by field. *)
Lemma stop_click_fields s mr c :
  Inv s -> s.(mounted) = true -> s.(status) = Recording ->
  s.(mediaRecorderRef) = Some mr -> s.(audioContextRef) = Some c ->
  let X := step s Click in
  X.(mounted) = true /\ X.(status) = Recording /\ X.(stream) = None /\
  X.(analyserNode) = None /\ X.(mediaRecorderRef) = Some (recorder_stop mr) /\
  X.(audioChunksRef) = s.(audioChunksRef) /\ X.(readers) = s.(readers) /\
  X.(g_captured) = s.(g_captured) /\ X.(completions) = s.(completions) /\
  X.(media_supported) = s.(media_supported) /\ X.(perm_pending) = s.(perm_pending) /\
  X.(closes) = s.(closes) ++ [{| cc_ctx := c; cc_rejected := true |}] /\
  (forall sid, s.(stream) = Some sid -> nth_error X.(streams_live) sid <> Some true) /\
  (forall j, s.(stream) <> Some j -> nth_error X.(streams_live) j = nth_error s.(streams_live) j).
Proof.
  intros HI Hm Hst Emr Ec X.
  destruct HI as [_ _ _ _ _ Hph]. destruct (Hph Hm) as [He Hph']. unfold phase in Hph'.
  rewrite Hst in Hph'. destruct Hph' as (_ & _ & _ & (c' & Ec' & Hc & _)).
  rewrite Ec in Ec'. injection Ec' as <-.
  unfold X, step, handle, click, button_disabled, handleButtonClick.
  destruct s as [ms mo st str an mrr ch cr es sl cs pp rd cp ts cl gc]; cbn in *; subst.
  unfold stopRecording, commit, stream_effect_cleanup, close_if_open, stop_stream,
    setAnalyserNode, setStream, react_set; cbn.
  pose proof (recorder_stop_not_recording mr) as Hns.
  destruct str as [sid|]; cbn.
  1: rewrite ctx_closed_stop_tracks, ctx_closed_set_analyserNode, ctx_closed_set_stream,
       ctx_closed_close_ctx; cbn.
  all: rewrite ?(stop_if_inactive sid (recorder_stop mr) Hns).
  all: unfold ctx_closed in Hc; cbn in Hc; unfold ctx_closed; cbn; rewrite Hc.
  all: repeat split; auto; try (intros sid' [= <-]).
  all: try (rewrite !nth_error_upd_nth_eq; destruct (nth_error sl sid); cbn; congruence).
  all: intros j Hj; rewrite ?nth_error_upd_nth_ne by congruence; reflexivity.
Qed.

(** ** Properties of the recorder *)

(** C1: every data URI the recorder passes to [onRecordingComplete] has
    the form [data:audio/wav;base64,<payload>] and parses back to exactly
    the bytes the platform captured for the recording, in capture order
    (spec §8, first property).  Stated for any event from any reachable
    state: whatever the event appends to the completions decodes to the
    captured bytes. *)
Theorem completion_payload_decodes s e :
  reachable s ->
  exists fresh, completions (step s e) = completions s ++ fresh /\
    Forall (fun c => Base64.parse_data_uri c.(cp_uri) = Some ("audio/wav"%string, s.(g_captured)))
      fresh.
Proof.
  intros Hr. pose proof (inv_readers s (reachable_Inv s Hr)) as Hrd.
  rewrite step_completions. eexists; split; [reflexivity|].
  destruct e; try constructor. destruct (readers s) as [|r rs]; constructor; [|constructor].
  inversion Hrd; subst. cbn. now apply Base64.parse_data_uri_data_uri.
Qed.

(** C8: while the component shows [recording], the AudioContext whose
    analyser feeds the waveform is already closed: the [stream] effect's
    cleanup (voice-recorder.tsx, lines 99-106) reads [audioContextRef] when
    it runs, and at the commit that follows [startRecording] that ref
    holds the context just created, so the cleanup of the previous effect
    closes it. *)
Theorem analyser_context_closed s c :
  reachable s -> s.(mounted) = true -> s.(status) = Recording ->
  s.(analyserNode) = Some c -> ctx_closed s c = true.
Proof.
  intros Hr Hm Hst Ha.
  destruct (inv_phase s (reachable_Inv s Hr) Hm) as [_ Hph]. unfold phase in Hph.
  rewrite Hst in Hph. destruct Hph as (_ & _ & _ & (c' & _ & Hc & [Ha'|Ha'])); congruence.
Qed.

(** C9: pressing "Stop Recording" calls [close()] on a context that is
    already closed, so the returned promise is rejected; the spec (§7)
    requires such cleanup failures to be swallowed, the code leaves the
    rejection unhandled (voice-recorder.tsx, line 85). *)
Theorem stop_click_close_rejected s :
  reachable s -> s.(mounted) = true -> s.(status) = Recording ->
  exists c, closes (step s Click) = closes s ++ [{| cc_ctx := c; cc_rejected := true |}].
Proof.
  intros Hr Hm Hst. pose proof (reachable_Inv s Hr) as HI.
  destruct (inv_phase s HI Hm) as [_ Hph]. unfold phase in Hph. rewrite Hst in Hph.
  destruct Hph as (_ & _ & (mr & Emr & _) & (c & Ec & _)).
  exists c. now destruct (stop_click_fields s mr c HI Hm Hst Emr Ec) as (_&_&_&_&_&_&_&_&_&_&_&H&_).
Qed.

Lemma completion_payload_decodes_witness :
  reachable (run step demo_recording [Click; RecorderDeliver; RecorderDeliver]) /\
  exists fresh,
    completions (step (run step demo_recording [Click; RecorderDeliver; RecorderDeliver]) ReaderDone) =
      completions (run step demo_recording [Click; RecorderDeliver; RecorderDeliver]) ++ fresh /\
    Forall (fun c => Base64.parse_data_uri c.(cp_uri) =
             Some ("audio/wav"%string, (run step demo_recording [Click; RecorderDeliver; RecorderDeliver]).(g_captured)))
      fresh.
Proof.
  assert (Hr : reachable (run step demo_recording [Click; RecorderDeliver; RecorderDeliver]))
    by (apply reachable_run, reachable_run, reach_init).
  split; [exact Hr | exact (completion_payload_decodes _ ReaderDone Hr)].
Defined.

Lemma analyser_context_closed_witness : ctx_closed demo_recording 0 = true.
Proof.
  apply (analyser_context_closed demo_recording 0);
    [apply reachable_run, reach_init | vm_compute; reflexivity ..].
Defined.

Lemma stop_click_close_rejected_witness :
  exists c, closes (step demo_recording Click) =
            closes demo_recording ++ [{| cc_ctx := c; cc_rejected := true |}].
Proof.
  apply stop_click_close_rejected; [apply reachable_run, reach_init | vm_compute; reflexivity ..].
Defined.

Lemma status_commit x : status (commit x) = status x.
Proof.
  unfold commit, stream_effect_cleanup, close_if_open, stop_stream.
  destruct (_ && _); [|reflexivity]. cbn.
  destruct (eff_stream x), (audioContextRef _); cbn; try destruct (ctx_closed _ _); reflexivity.
Qed.


(** A handler keeps the status or takes one of the spec's transitions. *)
Definition status_ok (s s' : RecState) : Prop :=
  status s' = status s \/ spec_step (status s) (status s').

Lemma status_ok_click s : Inv s -> status_ok s (click s).
Proof.
  intros HI. unfold status_ok, click. destruct (mounted s) eqn:Hm; cbn [andb]; [|now left].
  unfold button_disabled, handleButtonClick.
  destruct (status s) eqn:Hst; cbn [negb orb status_eqb]; try (now left).
  1, 3: unfold getMicPermission; destruct (media_supported s); cbn [negb]; [|now left..];
        right; unfold setStatus, react_set; cbn; rewrite Hm; constructor.
  left. now rewrite status_stopRecording.
Qed.

Lemma status_ok_permission s g : Inv s -> status_ok s (permissionSettled g s).
Proof.
  intros HI. unfold status_ok, permissionSettled. destruct (perm_pending s) eqn:Hpp; [|now left].
  destruct (mounted s) eqn:Hm.
  - destruct (inv_phase s HI Hm) as [_ Hph]. unfold phase in Hph.
    assert (Hst : status s = Permission) by (destruct (status s); intuition congruence).
    rewrite Hst. right. destruct g; cbn.
    all: unfold startRecording, setStatus, setStream, setAnalyserNode, react_set; cbn.
    all: repeat progress (cbn; rewrite ?Hm); constructor.
  - left. destruct g; cbn;
      unfold startRecording, setStatus, setStream, setAnalyserNode, react_set;
      repeat progress (cbn; rewrite ?Hm); reflexivity.
Qed.

Lemma status_capture b s : status (capture b s) = status s.
Proof. unfold capture. destruct (mediaRecorderRef s) as [mr|]; [destruct (is_recording mr)|]; reflexivity. Qed.

Lemma status_flush s : status (recorderFlush s) = status s.
Proof. unfold recorderFlush. destruct (mediaRecorderRef s) as [mr|]; [destruct (is_recording mr)|]; reflexivity. Qed.

Lemma status_ok_deliver s : Inv s -> status_ok s (recorderDeliver s).
Proof.
  intros HI. unfold status_ok, recorderDeliver. destruct (mediaRecorderRef s) as [mr|] eqn:Emr; [|now left].
  destruct (mr_queue mr) as [|ev q] eqn:Eq; [now left|].
  destruct ev as [b|]; [left; unfold ondataavailable; now destruct (Nat.ltb _ _)|].
  unfold onstop, setStatus, react_set. cbn.
  destruct (mounted s) eqn:Hm; [|now left]. right.
  assert (Hnq : ~ quiet (Some mr)) by (cbn; rewrite Eq; intros [_ ?]; discriminate).
  destruct (Inv_active s mr HI Emr Hnq) as (_ & _ & Hst). rewrite (Hst Hm). constructor.
Qed.

Lemma status_ok_readerDone s : Inv s -> status_ok s (readerDone s).
Proof.
  intros HI. unfold status_ok, readerDone. destruct (readers s) as [|r rs] eqn:Er; [now left|].
  unfold setStatus, react_set. cbn. destruct (mounted s) eqn:Hm; [|now left]. right.
  destruct (Inv_reading s r rs HI Er) as (_ & _ & _ & Hst).
  destruct (Hst Hm) as (-> & _). constructor.
Qed.

Lemma status_unmount s : status (unmount s) = status s.
Proof.
  unfold unmount. destruct (mounted s); [|reflexivity]. cbn.
  unfold stream_effect_cleanup, close_if_open, stop_stream.
  destruct (eff_stream s), (audioContextRef _); cbn; try destruct (ctx_closed _ _); reflexivity.
Qed.

(** C3: the component's status only moves along the spec's state
    machine (§4.4): every event either leaves it unchanged or takes one
    of the spec's transitions. *)
Theorem status_refines_spec s e :
  reachable s -> status (step s e) = status s \/ spec_step (status s) (status (step s e)).
Proof.
  intros Hr. pose proof (reachable_Inv s Hr) as HI.
  unfold step. rewrite status_commit. destruct e; cbn [handle].
  - now apply status_ok_click.
  - now apply status_ok_permission.
  - left. apply status_capture.
  - left. apply status_flush.
  - now apply status_ok_deliver.
  - now apply status_ok_readerDone.
  - left. apply status_unmount.
Qed.

(** Events that leave [stream] alone are not followed by any effect. *)
Lemma step_stable s e :
  Inv s -> (forall g, e <> PermissionSettled g) -> e <> Click -> step s e = handle e s.
Proof.
  intros HI Hg Hc. unfold step. apply commit_stable.
  destruct e; cbn [handle]; try congruence.
  - now apply Inv_capture.
  - now apply Inv_flush.
  - now apply Inv_deliver.
  - now apply Inv_readerDone.
  - now apply Inv_unmount.
Qed.

Lemma recording_capture s sid bytes cps b :
  Inv s -> recording_with s sid bytes cps -> recording_with (step s (Capture b)) sid (bytes ++ b) cps.
Proof.
  intros HI (Hm & Hst & Hs & He & Emr & Ech & Hg & Hrd & Hcp).
  rewrite step_stable by (auto; discriminate). cbn [handle]. unfold capture. rewrite Emr. cbn.
  repeat split; auto. now rewrite Hg.
Qed.

Lemma recording_captures sid cps cs : forall s acc,
  reachable s -> recording_with s sid acc cps ->
  reachable (run step s (map Capture cs)) /\
  recording_with (run step s (map Capture cs)) sid (acc ++ concat cs) cps.
Proof.
  induction cs as [|b cs IH]; intros s acc Hr Hw; cbn [map run concat].
  - now rewrite app_nil_r.
  - rewrite app_assoc. apply IH; [now apply reach_step|].
    apply recording_capture; auto using reachable_Inv.
Qed.

Lemma recording_start s :
  reachable s -> s.(mounted) = true -> s.(media_supported) = true ->
  s.(status) = Idle \/ s.(status) = Finished ->
  recording_with (run step s [Click; PermissionSettled true])
    (List.length s.(streams_live)) [] s.(completions).
Proof.
  intros Hr Hm Hms Hst. pose proof (reachable_Inv s Hr) as HI.
  destruct (inv_phase s HI Hm) as [He Hph]. unfold phase in Hph.
  assert (Hidle : perm_pending s = false /\ readers s = [] /\ stream s = None)
    by (destruct Hst as [E|E]; rewrite E in Hph; tauto).
  destruct Hidle as (Hpp & Hrd & Hs).
  destruct s as [ms mo st str an mrr ch cr es sl cs pp rd cp ts cl gc]; cbn in *; subst.
  unfold step, handle, click, button_disabled, handleButtonClick, getMicPermission.
  destruct Hst as [-> | ->]; cbn.
  all: unfold commit, permissionSettled, startRecording, stream_effect_cleanup, close_if_open,
         stop_stream, setStatus, setStream, setAnalyserNode, react_set; cbn.
  all: split_ifs; repeat split; reflexivity.
Qed.

Lemma recording_finish s sid bytes cps :
  reachable s -> recording_with s sid bytes cps ->
  let s' := run step s [Click; RecorderDeliver; RecorderDeliver; ReaderDone] in
  s'.(status) = Finished /\
  s'.(completions) = cps ++ [{| cp_uri := Base64.data_uri "audio/wav" bytes; cp_mounted := true |}] /\
  nth_error s'.(streams_live) sid <> Some true.
Proof.
  intros Hr Hw. pose proof (reachable_Inv s Hr) as HI.
  destruct Hw as (Hm & Hst & Hs & He & Emr & Ech & Hg & Hrd & Hcp).
  destruct (inv_phase s HI Hm) as [_ Hph]. unfold phase in Hph. rewrite Hst in Hph.
  destruct Hph as (_ & _ & _ & (c & Ec & _)).
  destruct (stop_click_fields s _ c HI Hm Hst Emr Ec)
    as (Xm & Xst & _ & _ & Xmr & Xch & Xrd & _ & Xcp & _ & _ & _ & Xlive & _).
  cbn [run]. set (X := step s Click) in *.
  assert (HX : reachable X) by now apply reach_step.
  assert (HY : reachable (step X RecorderDeliver)) by now apply reach_step.
  assert (HZ : reachable (step (step X RecorderDeliver) RecorderDeliver)) by now apply reach_step.
  rewrite (step_stable (step (step X RecorderDeliver) RecorderDeliver)) by (auto using reachable_Inv; discriminate).
  rewrite (step_stable (step X RecorderDeliver)) by (auto using reachable_Inv; discriminate).
  rewrite (step_stable X) by (auto using reachable_Inv; discriminate).
  cbn [handle]. clearbody X.
  set (Y := recorderDeliver X).
  assert (HYf : mediaRecorderRef Y = Some {| mr_stream := sid; mr_state := RecInactive;
                                            mr_pending := []; mr_queue := [StopEvent] |} /\
                concat (audioChunksRef Y) = bytes /\ readers Y = [] /\ mounted Y = true /\
                completions Y = cps /\ streams_live Y = streams_live X).
  { unfold Y, recorderDeliver. rewrite Xmr. cbn. unfold ondataavailable.
    destruct bytes as [|b bs]; cbn; rewrite ?Xch, ?Ech, ?Xrd, ?Hrd, ?Xcp, ?Hcp, ?Xm;
      cbn; rewrite ?app_nil_r; repeat split; auto. }
  destruct HYf as (Ymr & Ych & Yrd & Ym & Ycp & Ylive).
  set (Z := recorderDeliver Y).
  assert (HZf : readers Z = [Base64.data_uri "audio/wav" bytes] /\ mounted Z = true /\
                completions Z = cps /\ streams_live Z = streams_live X).
  { unfold Z, recorderDeliver. rewrite Ymr. cbn. unfold onstop, setStatus, react_set. cbn.
    rewrite Ym. cbn. rewrite Ych, Yrd, Ycp, Ylive. repeat split; auto. }
  destruct HZf as (Zrd & Zm & Zcp & Zlive).
  unfold readerDone. rewrite Zrd. unfold setStatus, react_set. cbn. rewrite Zm. cbn.
  rewrite Zcp, Zlive. repeat split; auto.
Qed.


(** C2: one full cycle (spec §8, first and zero-chunk scenarios): from a
    mounted recorder that is idle or finished, on a browser with
    getUserMedia, the user starts, the microphone is granted, the platform
    captures the chunks [cs] (possibly none), the user stops and the
    recorder's two events and the reader's [onloadend] are dispatched.
    Then the status is [finished], [onRecordingComplete] has been called
    exactly once, with the data URI of the concatenated chunks, and the
    microphone stream acquired for this cycle is no longer live. *)
Theorem recording_cycle s cs :
  reachable s -> s.(mounted) = true -> s.(media_supported) = true ->
  s.(status) = Idle \/ s.(status) = Finished ->
  let s' := run step s ([Click; PermissionSettled true] ++ map Capture cs ++
                        [Click; RecorderDeliver; RecorderDeliver; ReaderDone]) in
  s'.(status) = Finished /\
  s'.(completions) = s.(completions) ++
     [{| cp_uri := Base64.data_uri "audio/wav" (concat cs); cp_mounted := true |}] /\
  nth_error s'.(streams_live) (List.length s.(streams_live)) <> Some true.
Proof.
  intros Hr Hm Hms Hst s'. unfold s'. rewrite !run_app.
  pose proof (recording_start s Hr Hm Hms Hst) as Hw.
  assert (Hr1 : reachable (run step s [Click; PermissionSettled true])) by now apply reachable_run.
  destruct (recording_captures _ _ cs _ _ Hr1 Hw) as [Hr2 Hw2].
  exact (recording_finish _ _ _ _ Hr2 Hw2).
Qed.

(** Unmounting while recording: the cleanup stops the tracks the
    recorder records, so the recorder stops and queues its last data and
    its [stop] event. *)
Lemma unmount_recording s mr :
  Inv s -> s.(mounted) = true -> s.(status) = Recording ->
  s.(mediaRecorderRef) = Some mr -> is_recording mr = true ->
  (unmount s).(mounted) = false /\ (unmount s).(readers) = [] /\
  (unmount s).(completions) = s.(completions) /\ (unmount s).(mediaRecorderRef) = Some (recorder_stop mr).
Proof.
  intros HI Hm Hst Emr Erec.
  destruct (Inv_recording s mr HI Emr Erec) as (Hrd & _ & _).
  destruct (inv_phase s HI Hm) as [He Hph]. unfold phase in Hph. rewrite Hst in Hph.
  destruct Hph as (_ & _ & (mr0 & Emr0 & _ & Hs) & _).
  rewrite Emr in Emr0. injection Emr0 as <-. specialize (Hs Erec).
  unfold unmount, stream_effect_cleanup. rewrite Hm.
  destruct (close_if_open_fields (stop_stream (eff_stream s) s)) as (cs & cl & ->). cbn.
  rewrite He, Hs. cbn. rewrite Emr. cbn. unfold stop_if_recording_from.
  rewrite Nat.eqb_refl. repeat split; auto.
Qed.

(** The recorder's events reach an unmounted component: a [dataavailable]
    changes neither its readers nor its completions. *)
Lemma deliver_data_unmounted s mr b q :
  s.(mounted) = false -> s.(mediaRecorderRef) = Some mr -> mr.(mr_queue) = DataAvailable b :: q ->
  (recorderDeliver s).(mounted) = false /\ (recorderDeliver s).(readers) = s.(readers) /\
  (recorderDeliver s).(completions) = s.(completions) /\
  (recorderDeliver s).(mediaRecorderRef) = Some (with_recorder mr.(mr_state) mr.(mr_pending) q mr).
Proof.
  intros Hm Emr Eq. unfold recorderDeliver. rewrite Emr, Eq. cbn. unfold ondataavailable.
  destruct (Nat.ltb _ _); cbn; repeat split; auto.
Qed.

(** ... and [onstop] still hands the Blob to a FileReader. *)
Lemma deliver_stop_unmounted s mr q :
  s.(mounted) = false -> s.(mediaRecorderRef) = Some mr -> mr.(mr_queue) = StopEvent :: q ->
  (recorderDeliver s).(mounted) = false /\ (recorderDeliver s).(completions) = s.(completions) /\
  (recorderDeliver s).(readers) = s.(readers) ++ [Base64.data_uri "audio/wav" (concat s.(audioChunksRef))].
Proof.
  intros Hm Emr Eq. unfold recorderDeliver. rewrite Emr, Eq. cbn.
  unfold onstop, setStatus, react_set. cbn. rewrite Hm. cbn. auto.
Qed.

(** The FileReader's [onloadend] calls [onRecordingComplete] although the
    component is unmounted. *)
Lemma readerDone_unmounted s r rs :
  s.(mounted) = false -> s.(readers) = r :: rs ->
  (readerDone s).(mounted) = false /\
  (readerDone s).(completions) = s.(completions) ++ [{| cp_uri := r; cp_mounted := false |}].
Proof.
  intros Hm Er. unfold readerDone. rewrite Er. unfold setStatus, react_set. cbn. rewrite Hm. cbn.
  now rewrite Hm.
Qed.

(** C7: unmounting the component while it records does not stop the
    MediaRecorder explicitly; the effect's cleanup ends the stream's
    tracks, the platform then stops the recorder, and its [onstop] and the
    reader's [onloadend] still run: [onRecordingComplete] is called after
    the component is gone.  The spec (§4.4) says no callback fires after
    teardown. *)
Theorem completion_after_unmount s mr :
  reachable s -> s.(mounted) = true -> s.(status) = Recording ->
  s.(mediaRecorderRef) = Some mr -> is_recording mr = true -> mr.(mr_queue) = [] ->
  let s' := run step s [Unmount; RecorderDeliver; RecorderDeliver; ReaderDone] in
  s'.(mounted) = false /\
  exists uri, s'.(completions) = s.(completions) ++ [{| cp_uri := uri; cp_mounted := false |}].
Proof.
  intros Hr Hm Hst Emr Erec Eq. cbn [run].
  assert (HU : reachable (step s Unmount)) by now apply reach_step.
  assert (HV : reachable (step (step s Unmount) RecorderDeliver)) by now apply reach_step.
  assert (HW : reachable (step (step (step s Unmount) RecorderDeliver) RecorderDeliver))
    by now apply reach_step.
  rewrite (step_stable (step (step (step s Unmount) RecorderDeliver) RecorderDeliver))
    by (auto using reachable_Inv; discriminate).
  rewrite (step_stable (step (step s Unmount) RecorderDeliver)) by (auto using reachable_Inv; discriminate).
  rewrite (step_stable (step s Unmount)) by (auto using reachable_Inv; discriminate).
  rewrite (step_stable s) by (auto using reachable_Inv; discriminate).
  cbn [handle].
  destruct (unmount_recording s mr (reachable_Inv s Hr) Hm Hst Emr Erec) as (Um & Urd & Ucp & Umr).
  unfold recorder_stop in Umr. rewrite Erec, Eq in Umr. cbn in Umr.
  destruct (deliver_data_unmounted _ _ _ _ Um Umr eq_refl) as (Vm & Vrd & Vcp & Vmr).
  destruct (deliver_stop_unmounted _ _ _ Vm Vmr eq_refl) as (Wm & Wcp & Wrd).
  rewrite Vrd, Urd in Wrd. cbn in Wrd.
  destruct (readerDone_unmounted _ _ _ Wm Wrd) as (Xm & Xcp).
  split; [exact Xm|]. eexists. rewrite Xcp, Wcp, Vcp, Ucp. reflexivity.
Qed.

(** Once unmounted, nothing the component does stops a stream: streams
    can only be added. *)
Lemma commit_unmounted y : y.(mounted) = false -> commit y = y.
Proof. intros Hm. unfold commit. now rewrite Hm. Qed.

Lemma step_unmounted x e :
  x.(mounted) = false ->
  (step x e).(mounted) = false /\ exists extra, (step x e).(streams_live) = x.(streams_live) ++ extra.
Proof.
  intros Hm.
  enough (H : (handle e x).(mounted) = false /\
              exists extra, (handle e x).(streams_live) = x.(streams_live) ++ extra)
    by (unfold step; rewrite commit_unmounted; tauto).
  destruct e; cbn [handle].
  all: unfold click, permissionSettled, startRecording, capture, recorderFlush, recorderDeliver,
         ondataavailable, onstop, readerDone, unmount, setStatus, setStream, setAnalyserNode,
         react_set.
  all: rewrite ?Hm; cbn [andb].
  all: split_ifs; try congruence.
  all: split; [first [reflexivity | assumption] | first [exists []; now rewrite app_nil_r | eexists; reflexivity]].
Qed.

(** C6: if the component unmounts while the microphone prompt is open and
    the user then grants access, the continuation of [getMicPermission]
    still runs [startRecording]: a stream is acquired and recorded that no
    later event ever stops, since every track-stopping path runs only while
    the component is mounted.  The spec (§3) requires the input stream to
    be released on every exit path. *)
Theorem permission_after_unmount_leaks s :
  reachable s -> s.(mounted) = true -> s.(status) = Permission ->
  forall evs, nth_error (run step (run step s [Unmount; PermissionSettled true]) evs).(streams_live)
                        (List.length s.(streams_live)) = Some true.
Proof.
  intros Hr Hm Hst evs. pose proof (reachable_Inv s Hr) as HI.
  destruct (inv_phase s HI Hm) as [He Hph]. unfold phase in Hph. rewrite Hst in Hph.
  destruct Hph as (Hpp & Hs & _).
  set (s1 := run step s [Unmount; PermissionSettled true]).
  assert (H1 : s1.(mounted) = false /\ nth_error s1.(streams_live) (List.length s.(streams_live)) = Some true).
  { unfold s1. cbn [run].
    rewrite (step_stable s Unmount) by (auto; discriminate). cbn [handle].
    unfold unmount, stream_effect_cleanup. rewrite Hm, He, Hs. cbn [stop_stream].
    destruct (close_if_open_fields s) as (cs & cl & ->).
    unfold step. cbn [handle].
    rewrite commit_unmounted by (unfold permissionSettled, startRecording, setStatus, setStream,
                                   setAnalyserNode, react_set; cbn; now rewrite Hpp).
    unfold permissionSettled, startRecording, setStatus, setStream, setAnalyserNode, react_set.
    cbn. rewrite Hpp. cbn. split; [reflexivity|]. now rewrite nth_error_app2, Nat.sub_diag by lia. }
  clearbody s1. revert s1 H1. induction evs as [|e evs IH]; intros s1 [Hm1 Hn1]; [exact Hn1|].
  cbn [run]. apply IH. destruct (step_unmounted s1 e Hm1) as [Hm2 (extra & Hl)].
  split; [exact Hm2|]. rewrite Hl, nth_error_app1; [exact Hn1|].
  apply nth_error_Some. congruence.
Qed.

(** ** Ownership of the microphone stream while mounted *)

Lemma mounted_unmount s : (unmount s).(mounted) = false.
Proof. unfold unmount. destruct (mounted s) eqn:Hm; [reflexivity | exact Hm]. Qed.

(** Events other than a click or the permission answer leave the streams
    alone (or unmount the component). *)
Lemma step_streams_other s e :
  Inv s -> (forall g, e <> PermissionSettled g) -> e <> Click ->
  (step s e).(mounted) = true ->
  (step s e).(streams_live) = s.(streams_live) /\ (step s e).(stream) = s.(stream).
Proof.
  intros HI Hg Hc. rewrite step_stable by assumption.
  destruct e; cbn [handle]; [congruence | now destruct (Hg granted) | .. |
                             intros H; now rewrite mounted_unmount in H].
  all: intros _; unfold capture, recorderFlush, recorderDeliver, ondataavailable, onstop,
         readerDone, setStatus, react_set.
  all: split_ifs; auto.
Qed.

(** A pending permission request happens in the [permission] status,
    with no stream. *)
Lemma pending_phase s :
  Inv s -> s.(mounted) = true -> s.(perm_pending) = true ->
  s.(status) = Permission /\ s.(stream) = None /\ s.(eff_stream) = None /\ s.(analyserNode) = None.
Proof.
  intros HI Hm Hpp. destruct (inv_phase s HI Hm) as [He Hph]. unfold phase in Hph.
  destruct (status s); intuition congruence.
Qed.

Lemma grant_fields s :
  Inv s -> s.(mounted) = true -> s.(perm_pending) = true ->
  let X := step s (PermissionSettled true) in
  X.(mounted) = true /\ X.(streams_live) = s.(streams_live) ++ [true] /\
  X.(stream) = Some (List.length s.(streams_live)).
Proof.
  intros HI Hm Hpp X; subst X. destruct (pending_phase s HI Hm Hpp) as (_ & Hs & He & _).
  unfold step, handle, permissionSettled, startRecording, commit, stream_effect_cleanup,
    close_if_open, stop_stream, setStatus, setStream, setAnalyserNode, react_set.
  destruct s as [ms mo st str an mrr ch cr es sl cs pp rd cp ts cl gc]; cbn in *; subst.
  split_ifs; auto.
Qed.

Lemma deny_fields s :
  Inv s -> s.(mounted) = true -> s.(perm_pending) = true ->
  let X := step s (PermissionSettled false) in
  X.(mounted) = true /\ X.(status) = Idle /\ X.(toasts) = s.(toasts) ++ [ToastMicDenied] /\
  X.(streams_live) = s.(streams_live) /\ X.(stream) = None /\ X.(perm_pending) = false.
Proof.
  intros HI Hm Hpp X; subst X. destruct (pending_phase s HI Hm Hpp) as (_ & Hs & He & _).
  unfold step, handle, permissionSettled, commit, setStatus, react_set.
  destruct s as [ms mo st str an mrr ch cr es sl cs pp rd cp ts cl gc]; cbn in *; subst.
  cbn. repeat split.
Qed.

(** A click outside [recording] asks for permission, raises a toast or
    does nothing: no stream changes. *)
Lemma click_streams s :
  Inv s -> s.(mounted) = true -> s.(status) <> Recording ->
  (step s Click).(streams_live) = s.(streams_live) /\ (step s Click).(stream) = s.(stream).
Proof.
  intros HI Hm Hst. unfold step, handle, click. rewrite Hm.
  unfold button_disabled, handleButtonClick.
  destruct (status s) eqn:E; cbn [andb negb orb status_eqb]; try congruence.
  all: try (rewrite commit_stable by assumption; auto).
  all: unfold getMicPermission; destruct (media_supported s); cbn [negb].
  all: rewrite commit_stable by auto using Inv_set_toasts, Inv_request_permission.
  all: unfold setStatus, react_set; rewrite ?Hm; cbn; auto.
Qed.

Lemma live_ok_init m : live_ok (init m).
Proof. intros _ [|sid]; discriminate. Qed.

Lemma live_ok_step s e : Inv s -> live_ok s -> live_ok (step s e).
Proof.
  intros HI HL Hm' sid Hsid.
  destruct (mounted s) eqn:Hm; [| destruct (step_unmounted s e Hm); congruence].
  destruct e as [| g | b | | | | ].
  3-7: match type of Hm' with
       | mounted (step _ ?e) = true =>
           destruct (step_streams_other s e HI ltac:(intros ?; discriminate) ltac:(discriminate) Hm')
             as [E1 E2]; rewrite E2; apply HL; congruence
       end.
  - destruct (status s) eqn:Hst; try (destruct (click_streams s HI Hm) as [E1 E2];
                                     [congruence | rewrite E2; apply HL; congruence]).
    destruct (inv_phase s HI Hm) as [_ Hph]. unfold phase in Hph. rewrite Hst in Hph.
    destruct Hph as (_ & _ & (mr & Emr & _) & (c & Ec & _)).
    destruct (stop_click_fields s mr c HI Hm Hst Emr Ec) as (_&_&Xs&_&_&_&_&_&_&_&_&_&Hdead&Hsame).
    exfalso. destruct (stream s) as [j|] eqn:Es.
    + destruct (Nat.eq_dec j sid) as [<-|Hne]; [now apply (Hdead j)|].
      rewrite Hsame in Hsid by congruence. specialize (HL Hm sid Hsid). congruence.
    + rewrite Hsame in Hsid by congruence. specialize (HL Hm sid Hsid). congruence.
  - destruct (perm_pending s) eqn:Hpp.
    2: { unfold step, handle, permissionSettled in *. rewrite Hpp in *. cbn [negb] in *.
         rewrite commit_stable in * by assumption. now apply HL. }
    destruct (pending_phase s HI Hm Hpp) as (_ & Hs & _).
    destruct g; [destruct (grant_fields s HI Hm Hpp) as (_ & El & Es)
               | destruct (deny_fields s HI Hm Hpp) as (_ & _ & _ & El & Es & _)];
      rewrite El in Hsid.
    + rewrite Es. destruct (Nat.lt_ge_cases sid (List.length (streams_live s))) as [Hlt|Hge].
      * rewrite nth_error_app1 in Hsid by exact Hlt. specialize (HL Hm sid Hsid). congruence.
      * rewrite nth_error_app2 in Hsid by exact Hge.
        destruct (sid - List.length (streams_live s)) as [|k] eqn:Ek; [f_equal; lia|].
        destruct k; discriminate.
    + specialize (HL Hm sid Hsid). congruence.
Qed.

Lemma reachable_live_ok s : reachable s -> live_ok s.
Proof.
  induction 1 as [m | s e Hr IH]; [apply live_ok_init | apply live_ok_step; auto using reachable_Inv].
Qed.

(** C4: while the component is mounted, a microphone stream is live only
    in the [recording] status, and it is then the component's [stream]:
    every path that leaves [recording] (the stop click, the recorder's
    [onstop], a denied permission) holds no stream (spec §4.1, [release()]
    on every exit path, for the mounted component). *)
Theorem live_stream_only_recording s sid :
  reachable s -> s.(mounted) = true -> nth_error s.(streams_live) sid = Some true ->
  s.(status) = Recording /\ s.(stream) = Some sid.
Proof.
  intros Hr Hm Hsid. pose proof (reachable_live_ok s Hr Hm sid Hsid) as Hs.
  destruct (inv_phase s (reachable_Inv s Hr) Hm) as [_ Hph]. unfold phase in Hph.
  destruct (status s); intuition congruence.
Qed.

(** C5: the microphone refused (spec §8, fifth scenario): the status goes
    back to [idle], the "Microphone Access Denied" toast is raised, the
    button is enabled again, and no microphone stream is live. *)
Theorem permission_denied_idle s :
  reachable s -> s.(mounted) = true -> s.(status) = Permission ->
  let X := step s (PermissionSettled false) in
  X.(status) = Idle /\ X.(toasts) = s.(toasts) ++ [ToastMicDenied] /\
  button_disabled X = false /\ forall sid, nth_error X.(streams_live) sid <> Some true.
Proof.
  intros Hr Hm Hst X. pose proof (reachable_Inv s Hr) as HI.
  destruct (inv_phase s HI Hm) as [_ Hph]. unfold phase in Hph. rewrite Hst in Hph.
  destruct Hph as (Hpp & _).
  destruct (deny_fields s HI Hm Hpp) as (Xm & Xst & Xt & _ & Xs & _). fold X in Xm, Xst, Xt, Xs.
  assert (HL : live_ok X) by (apply reachable_live_ok, reach_step, Hr).
  repeat split; auto.
  - unfold button_disabled. now rewrite Xst.
  - intros sid Hsid. specialize (HL Xm sid Hsid). congruence.
Qed.

(** C11: on a browser without [navigator.mediaDevices.getUserMedia] a
    start click raises the "not supported" toast and changes nothing else:
    the status stays what it was, [idle] or [finished] (lines 25-28 return
    before [setStatus('permission')]). *)
Theorem unsupported_click_toast s :
  reachable s -> s.(mounted) = true -> s.(media_supported) = false ->
  s.(status) = Idle \/ s.(status) = Finished ->
  step s Click = set_toasts (s.(toasts) ++ [ToastUnsupported]) s.
Proof.
  intros Hr Hm Hms Hst. pose proof (reachable_Inv s Hr) as HI.
  unfold step, handle, click, button_disabled, handleButtonClick. rewrite Hm.
  destruct Hst as [E|E]; rewrite E; cbn [andb negb orb status_eqb].
  all: unfold getMicPermission; rewrite Hms; cbn [negb].
  all: now rewrite commit_stable by auto using Inv_set_toasts.
Qed.

(** ** The effect's cleanup is idempotent *)

Lemma recorder_stop_idem mr : recorder_stop (recorder_stop mr) = recorder_stop mr.
Proof. unfold recorder_stop at 1. now rewrite recorder_stop_not_recording. Qed.

Lemma mr_stream_recorder_stop mr : (recorder_stop mr).(mr_stream) = mr.(mr_stream).
Proof. unfold recorder_stop. now destruct (is_recording mr). Qed.

Lemma stop_if_idem sid mr :
  stop_if_recording_from sid (stop_if_recording_from sid mr) = stop_if_recording_from sid mr.
Proof.
  unfold stop_if_recording_from. destruct (Nat.eqb (mr_stream mr) sid) eqn:E.
  - now rewrite mr_stream_recorder_stop, E, recorder_stop_idem.
  - now rewrite E.
Qed.

Lemma stop_stream_idem o s : stop_stream o (stop_stream o s) = stop_stream o s.
Proof.
  destruct o as [sid|]; [|reflexivity]. cbn [stop_stream]. unfold stop_tracks; cbn.
  rewrite upd_nth_idem. destruct (mediaRecorderRef s); cbn; now rewrite ?stop_if_idem.
Qed.

Lemma close_if_open_idem s : close_if_open (close_if_open s) = close_if_open s.
Proof.
  unfold close_if_open. destruct (audioContextRef s) as [c|] eqn:Ec; [|now rewrite Ec].
  destruct (ctx_closed s c) eqn:Hc; rewrite ?Ec, ?Hc; [reflexivity|].
  cbn. now rewrite Ec, ctx_closed_close_ctx.
Qed.

(** Stopping tracks and closing the context touch disjoint fields. *)
Lemma stop_stream_close_if_open o s :
  stop_stream o (close_if_open s) = close_if_open (stop_stream o s).
Proof.
  destruct o as [sid|]; [|reflexivity]. unfold close_if_open. cbn [stop_stream].
  destruct (audioContextRef s) as [c|] eqn:Ec; cbn; rewrite Ec; [|reflexivity].
  rewrite ctx_closed_stop_tracks. destruct (ctx_closed s c); reflexivity.
Qed.

(** C10: the effect's cleanup (the component's [release()], lines
    100-105) is idempotent: running it a second time for the same stream
    changes nothing: no second [close()] call and so no rejected promise,
    no track or recorder stopped again (spec §8, idempotence). *)
Theorem cleanup_idempotent o s :
  stream_effect_cleanup o (stream_effect_cleanup o s) = stream_effect_cleanup o s.
Proof.
  unfold stream_effect_cleanup.
  now rewrite stop_stream_close_if_open, close_if_open_idem, stop_stream_idem.
Qed.



(** C14: the payload [onstop] hands to the FileReader (lines 65-69) is
    ["data:audio/wav;base64,"] followed by the base64 body of the
    concatenated chunks, [4 * ceil(n / 3)] characters for [n] bytes, and it
    parses back into ["audio/wav"] and exactly those bytes. *)
Theorem onstop_payload s :
  exists r body,
    (onstop s).(readers) = s.(readers) ++ [r] /\
    r = ("data:audio/wav;base64," ++ body)%string /\
    Base64.parse_data_uri r = Some ("audio/wav"%string, concat s.(audioChunksRef)) /\
    String.length body = (4 * ((List.length (concat s.(audioChunksRef)) + 2) / 3))%nat.
Proof.
  exists (Base64.data_uri "audio/wav" (concat s.(audioChunksRef))), (Base64.encode (concat s.(audioChunksRef))).
  assert (E : (onstop s).(readers) = s.(readers) ++ [Base64.data_uri "audio/wav" (concat s.(audioChunksRef))]).
  { unfold onstop, setStatus, react_set. now destruct (mounted s). }
  split; [exact E|]. split; [reflexivity|].
  split; [apply Base64.parse_data_uri_data_uri; reflexivity | apply Base64.length_encode].
Qed.

(** ** Witnesses *)

Lemma status_refines_spec_witness :
  status (step demo_recording Click) = status demo_recording \/
  spec_step (status demo_recording) (status (step demo_recording Click)).
Proof. apply status_refines_spec. apply reachable_run, reach_init. Defined.

Lemma recording_cycle_witness :
  let s' := run step (init true) ([Click; PermissionSettled true] ++ map Capture [demo_bytes] ++
                                  [Click; RecorderDeliver; RecorderDeliver; ReaderDone]) in
  s'.(status) = Finished /\
  s'.(completions) = (init true).(completions) ++
     [{| cp_uri := Base64.data_uri "audio/wav" (concat [demo_bytes]); cp_mounted := true |}] /\
  nth_error s'.(streams_live) (List.length (init true).(streams_live)) <> Some true.
Proof.
  apply recording_cycle; [apply reach_init | reflexivity | reflexivity | left; reflexivity].
Defined.

Lemma permission_after_unmount_leaks_witness :
  nth_error (run step (run step (run step (init true) [Click]) [Unmount; PermissionSettled true])
                 [Click; Capture demo_bytes; RecorderDeliver]).(streams_live)
            (List.length (run step (init true) [Click]).(streams_live)) = Some true.
Proof.
  apply (permission_after_unmount_leaks (run step (init true) [Click]));
    [apply reachable_run, reach_init | reflexivity | reflexivity].
Defined.

Lemma completion_after_unmount_witness :
  let s' := run step demo_recording [Unmount; RecorderDeliver; RecorderDeliver; ReaderDone] in
  s'.(mounted) = false /\
  exists uri, s'.(completions) = demo_recording.(completions) ++ [{| cp_uri := uri; cp_mounted := false |}].
Proof.
  eapply completion_after_unmount;
    [apply reachable_run, reach_init | reflexivity | reflexivity | reflexivity | reflexivity | reflexivity].
Defined.

Lemma live_stream_only_recording_witness :
  demo_recording.(status) = Recording /\ demo_recording.(stream) = Some 0.
Proof. apply live_stream_only_recording; [apply reachable_run, reach_init | reflexivity ..]. Defined.

Lemma permission_denied_idle_witness :
  let s := run step (init true) [Click] in
  let X := step s (PermissionSettled false) in
  X.(status) = Idle /\ X.(toasts) = s.(toasts) ++ [ToastMicDenied] /\
  button_disabled X = false /\ forall sid, nth_error X.(streams_live) sid <> Some true.
Proof. apply permission_denied_idle; [apply reachable_run, reach_init | reflexivity ..]. Defined.

Lemma unsupported_click_toast_witness :
  step (init false) Click = set_toasts ((init false).(toasts) ++ [ToastUnsupported]) (init false).
Proof.
  apply unsupported_click_toast; [apply reach_init | reflexivity | reflexivity | left; reflexivity].
Defined.

End Recorder.
