(* ===== verification/Waveform.v ===== *)
(** * The waveform visualiser ([components/waveform-visualizer.tsx])

    The component's effect (lines 14-50) allocates a [Uint8Array] of
    [analyserNode.frequencyBinCount] bytes and starts an animation-frame
    loop whose body, [draw] (lines 24-41), re-arms itself, samples the
    analyser into the array and builds an SVG path string.

    JavaScript numbers are IEEE-754 doubles: they are modelled by Rocq's
    primitive 64-bit floats, so every addition, product and quotient of
    the loop rounds as it does in the browser.  The path is kept as the
    list of its commands ([PathCmd]); [render] turns it into the string
    the template literals build, given ECMAScript's [Number::toString]
    (a library function, taken as a parameter of the rendering).

    The module holds the drawing ([frame_path], the loop as written, and
    [frame_ref], its structural reference), the animation-frame loop as
    a machine ([WState], [wstep]) and their properties. *)

From Stdlib Require Import String Ascii.
From Stdlib Require Import List ZArith Lia Bool Floats.
From S2P Require Import Prelude.
Import ListNotations.

Module Waveform.

#[local] Open Scope float_scope.

(** [const svgWidth = 300; const svgHeight = 96;] (lines 21-22). *)
Definition svgWidth : float := 300.
Definition svgHeight : float := 96.

(** [analyser.fftSize = 2048] (voice-recorder.tsx, line 49); the
    analyser has [fftSize / 2] frequency bins (line 19 reads it). *)
Definition fftSize : nat := 2048.
Definition frequencyBinCount : nat := Nat.div fftSize 2.

(** A JavaScript number holding a natural number (exact below 2^53). *)
Definition num_of_nat (n : nat) : float := of_uint63 (Uint63.of_nat n).

(** [dataArray[i]] read as a number. *)
Definition num_of_byte (b : Byte.byte) : float := num_of_nat (Byte.to_nat b).

(** SVG path commands: [M x,y] and [L x,y]. *)
Inductive PathCmd :=
| MoveTo (x y : float)
| LineTo (x y : float).

Definition cmd_x (c : PathCmd) : float := match c with MoveTo x _ | LineTo x _ => x end.
Definition cmd_y (c : PathCmd) : float := match c with MoveTo _ y | LineTo _ y => y end.

(** The [for] loop of [draw] (lines 32-37), exactly as written: [fuel]
    is the number of iterations left ([bufferLength - i]), [x] and
    [path] are its accumulators. *)
Fixpoint draw_loop (fuel : nat) (dataArray : list Byte.byte) (i : nat)
  (sliceWidth x : float) (path : list PathCmd) : list PathCmd :=
  match fuel with
  | O => path
  | S fuel' =>
      let v := num_of_byte (nth i dataArray Byte.x00) / 128.0 in
      let y := (v * svgHeight) / 2 in
      draw_loop fuel' dataArray (S i) sliceWidth (x + sliceWidth)
        (path ++ [LineTo x (svgHeight / 2 - y)])
  end.

(** One frame's path (lines 28-38), for the array of [bufferLength]
    bytes the analyser has just filled. *)
Definition frame_path (bufferLength : nat) (dataArray : list Byte.byte) : list PathCmd :=
  let sliceWidth := (svgWidth * 1.0) / num_of_nat bufferLength in
  draw_loop bufferLength dataArray 0 sliceWidth 0 [MoveTo 0 (svgHeight / 2)]
    ++ [LineTo svgWidth (svgHeight / 2)].

(** The reference: the sample heights and the accumulated abscissae. *)
Definition sample_y (m : Byte.byte) : float :=
  svgHeight / 2 - ((num_of_byte m / 128.0) * svgHeight) / 2.

(** [x], [x + w], [(x + w) + w], ...: [n] abscissae, rounded at each
    addition as the loop rounds them. *)
Fixpoint xs_from (x w : float) (n : nat) : list float :=
  match n with
  | O => []
  | S n' => x :: xs_from (x + w) w n'
  end.

Fixpoint zip_line (xs : list float) (ms : list Byte.byte) : list PathCmd :=
  match xs, ms with
  | x :: xs', m :: ms' => LineTo x (sample_y m) :: zip_line xs' ms'
  | _, _ => []
  end.

Definition frame_ref (bufferLength : nat) (dataArray : list Byte.byte) : list PathCmd :=
  let sliceWidth := (svgWidth * 1.0) / num_of_nat bufferLength in
  MoveTo 0 (svgHeight / 2) :: zip_line (xs_from 0 sliceWidth bufferLength) dataArray
    ++ [LineTo svgWidth (svgHeight / 2)].

(** The sample commands of a path: all but the first and the last. *)
Definition samples (p : list PathCmd) : list PathCmd := removelast (tl p).

(** A four-byte snapshot used by the witnesses. *)
Definition demo_data : list Byte.byte := [Byte.x00; Byte.x40; Byte.x80; Byte.xff].

(** ** The path string *)

Section Render.
(** ECMAScript's [Number::toString], which the template literals call. *)
Variable num : float -> string.

Definition render_cmd (c : PathCmd) : string :=
  match c with
  | MoveTo x y => "M" ++ num x ++ "," ++ num y
  | LineTo x y => "L" ++ num x ++ "," ++ num y
  end.

(** Commands separated by one space, as [`M0,${..} `], [`L${x},${..} `]
    and the closing [`L${svgWidth},${..}`] concatenate. *)
Fixpoint render (cs : list PathCmd) : string :=
  match cs with
  | [] => ""
  | [c] => render_cmd c
  | c :: cs' => render_cmd c ++ " " ++ render cs'
  end.

Fixpoint count_char (a : ascii) (s : string) : nat :=
  match s with
  | EmptyString => 0
  | String b s' => (if Ascii.eqb a b then 1 else 0) + count_char a s'
  end.
End Render.


(** ** The drawing loop against its reference *)

Lemma skipn_nth_cons {A} (l : list A) i d :
  (i < List.length l)%nat -> skipn i l = nth i l d :: skipn (S i) l.
Proof.
  revert i; induction l as [|a l IH]; intros [|i] Hi; cbn in *; try lia; auto.
  apply IH; lia.
Qed.

Lemma draw_loop_app fuel d i w x path :
  draw_loop fuel d i w x path = path ++ draw_loop fuel d i w x [].
Proof.
  revert i x path; induction fuel as [|fuel IH]; intros i x path; cbn [draw_loop].
  - now rewrite app_nil_r.
  - rewrite (IH _ _ (path ++ _)), (IH _ _ ([] ++ _)), app_assoc. reflexivity.
Qed.

(** The loop emits one [L] command per remaining sample, at the
    accumulated abscissae. *)
Lemma draw_loop_zip fuel d i w x :
  (i + fuel <= List.length d)%nat ->
  draw_loop fuel d i w x [] = zip_line (xs_from x w fuel) (skipn i d).
Proof.
  revert i x; induction fuel as [|fuel IH]; intros i x Hlen; cbn [draw_loop xs_from].
  - now destruct (skipn i d).
  - rewrite draw_loop_app, IH by lia. rewrite (skipn_nth_cons d i Byte.x00) by lia.
    reflexivity.
Qed.

Lemma length_xs_from x w n : List.length (xs_from x w n) = n.
Proof. revert x; induction n; intros; cbn; auto. Qed.

Lemma length_zip_line xs ms : List.length (zip_line xs ms) = Nat.min (List.length xs) (List.length ms).
Proof. revert ms; induction xs; intros [|m ms]; cbn; auto. Qed.

Lemma map_x_zip_line xs ms :
  (List.length xs <= List.length ms)%nat -> map cmd_x (zip_line xs ms) = xs.
Proof.
  revert ms; induction xs as [|x xs IH]; intros [|m ms]; cbn; intros H; auto; try (exfalso; lia).
  f_equal. apply IH; lia.
Qed.

Lemma map_y_zip_line xs ms :
  (List.length ms <= List.length xs)%nat -> map cmd_y (zip_line xs ms) = map sample_y ms.
Proof.
  revert ms; induction xs as [|x xs IH]; intros [|m ms]; cbn; intros H; auto; try (exfalso; lia).
  f_equal. apply IH; lia.
Qed.

Lemma samples_frame_ref N d :
  samples (frame_ref N d) = zip_line (xs_from 0 ((svgWidth * 1.0) / num_of_nat N) N) d.
Proof. unfold samples, frame_ref. cbn [tl]. apply removelast_last. Qed.

#[export] Hint Rewrite length_xs_from length_zip_line samples_frame_ref : vk_rw.


(** The loop builds the reference path on an array of [bufferLength]
    bytes. *)
Lemma frame_path_eq_ref N d : List.length d = N -> frame_path N d = frame_ref N d.
Proof.
  intros Hd. unfold frame_path, frame_ref.
  rewrite draw_loop_app, draw_loop_zip by lia. reflexivity.
Qed.

Lemma zip_line_Forall_y (Q : float -> Prop) xs ms :
  Forall (fun m => Q (sample_y m)) ms -> Forall (fun c => Q (cmd_y c)) (zip_line xs ms).
Proof.
  intros H; revert xs; induction H as [|m ms Hm H IH]; intros [|x xs]; cbn; constructor; auto.
Qed.

Lemma Forall_repeat {A} (P : A -> Prop) a n : P a -> Forall P (repeat a n).
Proof. intros Ha; induction n; cbn; constructor; auto. Qed.

Lemma count_char_app a s1 s2 : count_char a (s1 ++ s2) = (count_char a s1 + count_char a s2)%nat.
Proof. induction s1 as [|b s1 IH]; cbn; [reflexivity | rewrite IH; lia]. Qed.

#[export] Hint Rewrite count_char_app : vk_rw.

(** Outside the separators, each command of the rendering contributes
    its own characters. *)
Lemma count_render num a cs :
  Ascii.eqb a " " = false ->
  count_char a (render num cs) = list_sum (map (fun c => count_char a (render_cmd num c)) cs).
Proof.
  intros Ha. induction cs as [|c cs IH]; [reflexivity|].
  unfold list_sum in *. destruct cs as [|c' cs']; cbn [render map fold_right] in *; [lia|].
  rewrite !count_char_app, IH. cbn [count_char]. rewrite Ha. lia.
Qed.

Lemma zip_line_lines xs ms : Forall (fun c => exists x y, c = LineTo x y) (zip_line xs ms).
Proof. revert ms; induction xs; intros [|m ms]; cbn; constructor; eauto. Qed.

Lemma list_sum_const {A} (f : A -> nat) k l :
  Forall (fun c => f c = k) l -> list_sum (map f l) = (List.length l * k)%nat.
Proof.
  unfold list_sum. induction 1 as [|c l Hc _ IH]; cbn [map fold_right length]; [reflexivity|].
  rewrite IH, Hc. lia.
Qed.


(** ** Properties of the drawing *)

(** C23: for every snapshot of [N] bytes, the path has exactly [N + 2]
    commands: the start anchor [M 0,48], one [L] per sample, and the
    closing [L 300,48] (spec §8, third property). *)
Theorem frame_path_points N d :
  List.length d = N ->
  let p := frame_path N d in
  List.length p = (N + 2)%nat /\ hd (LineTo 0 0) p = MoveTo 0 (svgHeight / 2) /\
  last p (MoveTo 0 0) = LineTo svgWidth (svgHeight / 2).
Proof.
  intros Hd p. subst p. rewrite frame_path_eq_ref by exact Hd. unfold frame_ref.
  rewrite app_comm_cons, last_last, length_app. cbn [List.length hd].
  autorewrite with vk_rw. repeat split; lia.
Qed.

(** C25: the loop, with its running [x] and in-place string, computes the
    reference: its [i]-th sample command is the line to the [i]-th
    accumulated abscissa at the height of [dataArray[i]]. *)
Theorem frame_path_sample N d i :
  List.length d = N -> (i < N)%nat ->
  nth (S i) (frame_path N d) (MoveTo 0 0) =
  LineTo (nth i (xs_from 0 ((svgWidth * 1.0) / num_of_nat N) N) 0) (sample_y (nth i d Byte.x00)).
Proof.
  intros Hd Hi. rewrite frame_path_eq_ref by exact Hd. unfold frame_ref. cbn [nth].
  rewrite app_nth1 by (autorewrite with vk_rw; lia).
  generalize (xs_from 0 ((svgWidth * 1.0) / num_of_nat N) N) (length_xs_from 0 ((svgWidth * 1.0) / num_of_nat N) N).
  intros xs Hxs. subst N. revert i xs Hi Hxs.
  induction d as [|m d IH]; intros [|i] [|x xs] Hi Hxs; cbn in *; try lia; auto.
  apply IH; lia.
Qed.

(** C26: each sample's height is exact: the three roundings of
    [48 - ((m / 128) * 96) / 2] are exact, so it is [48 - 0.375 m]; it
    ranges over [-47.625, 48], above the drawing's top edge [y = 0] for
    every magnitude above 128 (the viewBox clips it). *)
Theorem sample_y_exact m :
  sample_y m = 48 - 0.375 * num_of_byte m /\
  ((-47.625 <=? sample_y m) && (sample_y m <=? svgHeight / 2))%float = true /\
  ((sample_y m <? 0) = (128 <? num_of_byte m))%float.
Proof. destruct m; vm_compute; repeat split. Qed.

(** C24: a snapshot whose magnitudes all equal 128 is drawn with every
    sample on the top edge [y = 0], a comb from the anchors at [48]; the
    flat line at [H/2] is the all-zero snapshot.  The spec (§4.3, §8)
    says the 128 snapshot is flat at [H/2]. *)
Theorem all_128_top N :
  Forall (fun c => cmd_y c = 0) (samples (frame_path N (repeat Byte.x80 N))) /\
  Forall (fun c => cmd_y c = svgHeight / 2) (frame_path N (repeat Byte.x00 N)).
Proof.
  rewrite !frame_path_eq_ref by apply repeat_length. rewrite samples_frame_ref. split.
  - apply (zip_line_Forall_y (fun y => y = 0)), Forall_repeat. vm_compute. reflexivity.
  - unfold frame_ref. constructor; [reflexivity|]. apply Forall_app. split; [|repeat constructor].
    apply (zip_line_Forall_y (fun y => y = svgHeight / 2)), Forall_repeat. vm_compute. reflexivity.
Qed.

(** C27: with the analyser the recorder configures ([fftSize = 2048], so
    [1024] bins), [sliceWidth = 300/1024] is exact and so is every
    accumulated [x]: the [i]-th sample is at [i * 300/1024], without
    rounding drift, the last at [299.70703125 < 300]. *)
Theorem frame_x_exact d :
  List.length d = frequencyBinCount ->
  map cmd_x (samples (frame_path frequencyBinCount d)) =
  map (fun i => num_of_nat i * (300 / 1024)) (seq 0 frequencyBinCount).
Proof.
  intros Hd. rewrite frame_path_eq_ref, samples_frame_ref, map_x_zip_line by (autorewrite with vk_rw; lia).
  vm_compute. reflexivity.
Qed.

(** C28: the path string holds one [M] and [N + 1] [L] commands, for any
    rendering of the numbers that writes neither letter (as
    [Number::toString] does not). *)
Theorem render_commands num N d :
  (forall f, count_char "L" (num f) = 0%nat /\ count_char "M" (num f) = 0%nat) ->
  List.length d = N ->
  count_char "L" (render num (frame_path N d)) = S N /\ count_char "M" (render num (frame_path N d)) = 1%nat.
Proof.
  intros Hnum Hd. rewrite frame_path_eq_ref by exact Hd. unfold frame_ref.
  assert (Hcmd : forall a c, (a = "L" \/ a = "M")%char ->
                 count_char a (render_cmd num c) =
                 match c with MoveTo _ _ => if Ascii.eqb a "M" then 1%nat else 0%nat
                            | LineTo _ _ => if Ascii.eqb a "L" then 1%nat else 0%nat end).
  { intros a [x y|x y] Ha; cbn [render_cmd]; rewrite !count_char_app;
      destruct (Hnum x), (Hnum y); destruct Ha as [->| ->]; cbn; lia. }
  rewrite !count_render by reflexivity. rewrite !map_cons, !map_app.
  change (list_sum (?a :: ?l)) with (a + list_sum l)%nat. rewrite !list_sum_app.
  split; [rewrite (list_sum_const _ 1%nat) | rewrite (list_sum_const _ 0%nat)].
  2, 4: eapply Forall_impl; [|apply zip_line_lines]; intros c (x & y & ->); now rewrite Hcmd; auto.
  all: unfold list_sum; cbn [map fold_right]; rewrite !Hcmd by auto; cbn; autorewrite with vk_rw; lia.
Qed.


(** ** Witnesses *)

Lemma frame_path_points_witness :
  let p := frame_path 4 demo_data in
  List.length p = (4 + 2)%nat /\ hd (LineTo 0 0) p = MoveTo 0 (svgHeight / 2) /\
  last p (MoveTo 0 0) = LineTo svgWidth (svgHeight / 2).
Proof. apply frame_path_points. reflexivity. Defined.

Lemma frame_path_sample_witness :
  nth 3 (frame_path 4 demo_data) (MoveTo 0 0) =
  LineTo (nth 2 (xs_from 0 ((svgWidth * 1.0) / num_of_nat 4) 4) 0) (sample_y (nth 2 demo_data Byte.x00)).
Proof. apply frame_path_sample; [reflexivity | lia]. Defined.

Lemma frame_x_exact_witness :
  map cmd_x (samples (frame_path frequencyBinCount (repeat Byte.x80 frequencyBinCount))) =
  map (fun i => num_of_nat i * (300 / 1024)) (seq 0 frequencyBinCount).
Proof. apply frame_x_exact. apply repeat_length. Defined.

Lemma render_commands_witness :
  count_char "L" (render (fun _ => "0"%string) (frame_path 4 demo_data)) = 5%nat /\
  count_char "M" (render (fun _ => "0"%string) (frame_path 4 demo_data)) = 1%nat.
Proof. apply render_commands; [intros _; split; reflexivity | reflexivity]. Defined.

End Waveform.
