(* ===== verification/WaveLoop.v ===== *)
(** * The visualiser's animation-frame loop (waveform-visualizer.tsx, lines 11-50)

    The component's state ([pathD]) and ref ([animationFrameIdRef]), its
    props ([isRecording], [analyserNode]) and the browser's
    animation-frame scheduler (the callbacks it holds, by id) form the
    state [WState].  Events: the parent re-renders with new props, the
    browser runs a frame, the component unmounts.  The effect keyed on
    [[isRecording, analyserNode]] runs after the first render and after
    every render that changes a dependency, once the previous run's
    cleanup has run.  The scheduler follows the HTML specification:
    [requestAnimationFrame] returns increasing non-zero ids, a frame runs
    the callbacks registered before it, [cancelAnimationFrame] removes
    one. *)

From Stdlib Require Import String List Lia Bool Arith.
From S2P Require Import Prelude Waveform.
Import ListNotations.

Module WaveLoop.
Import Waveform.

(** An [AnalyserNode] prop: its identity and its [frequencyBinCount]. *)
Record Analyser := { an_id : nat; an_bins : nat }.

Definition analyser_eqb (a b : option Analyser) : bool :=
  match a, b with
  | Some a, Some b => Nat.eqb a.(an_id) b.(an_id) && Nat.eqb a.(an_bins) b.(an_bins)
  | None, None => true
  | _, _ => false
  end.

(** The closure [draw] of one run of the effect: the analyser it samples,
    [bufferLength] and the [Uint8Array] it refills in place. *)
Record Draw := { d_an : Analyser; bufferLength : nat; dataArray : list Byte.byte }.

#[projections(primitive)]
Record WState := {
  w_mounted : bool;
  isRecording : bool;
  analyserNode : option Analyser;
  eff_deps : bool * option Analyser;      (* the committed effect's dependencies *)
  eff_has_cleanup : bool;                 (* it returned its cleanup *)
  pathD : list PathCmd;
  animationFrameIdRef : nat;              (* 0 stands for [undefined] *)
  raf_next : nat;                         (* the scheduler's last id handed out *)
  raf_pending : list (nat * Draw)         (* scheduled callbacks, in order *)
}.

Definition set_pathD v s := Build_WState s.(w_mounted) s.(isRecording) s.(analyserNode) s.(eff_deps) s.(eff_has_cleanup) v s.(animationFrameIdRef) s.(raf_next) s.(raf_pending).
Definition set_animRef v s := Build_WState s.(w_mounted) s.(isRecording) s.(analyserNode) s.(eff_deps) s.(eff_has_cleanup) s.(pathD) v s.(raf_next) s.(raf_pending).
Definition set_raf v n s := Build_WState s.(w_mounted) s.(isRecording) s.(analyserNode) s.(eff_deps) s.(eff_has_cleanup) s.(pathD) s.(animationFrameIdRef) n v.
Definition set_effect deps c s := Build_WState s.(w_mounted) s.(isRecording) s.(analyserNode) deps c s.(pathD) s.(animationFrameIdRef) s.(raf_next) s.(raf_pending).
Definition set_props r a s := Build_WState s.(w_mounted) r a s.(eff_deps) s.(eff_has_cleanup) s.(pathD) s.(animationFrameIdRef) s.(raf_next) s.(raf_pending).
Definition set_unmounted s := Build_WState false s.(isRecording) s.(analyserNode) s.(eff_deps) s.(eff_has_cleanup) s.(pathD) s.(animationFrameIdRef) s.(raf_next) s.(raf_pending).

(** [requestAnimationFrame(cb)]: a fresh non-zero id. *)
Definition requestAnimationFrame (cb : Draw) (s : WState) : nat * WState :=
  let id := S s.(raf_next) in
  (id, set_raf (s.(raf_pending) ++ [(id, cb)]) id s).

(** [cancelAnimationFrame(id)]. *)
Definition cancelAnimationFrame (id : nat) (s : WState) : WState :=
  set_raf (filter (fun p => negb (Nat.eqb (fst p) id)) s.(raf_pending)) s.(raf_next) s.

(** [analyserNode.getByteFrequencyData(dataArray)]: the first
    [min(length, bins)] entries are overwritten, in place. *)
Definition getByteFrequencyData (snap arr : list Byte.byte) : list Byte.byte :=
  firstn (List.length arr) snap ++ skipn (List.length snap) arr.

(** [setPathD]: React ignores updates of an unmounted component. *)
Definition setPathD (p : list PathCmd) (s : WState) : WState :=
  if s.(w_mounted) then set_pathD p s else s.

(** [draw] (lines 24-41) for the frequency data [snap] of this frame. *)
Definition draw (cb : Draw) (snap : list Byte.byte) (s : WState) : WState :=
  let arr := getByteFrequencyData snap cb.(dataArray) in
  let cb' := {| d_an := cb.(d_an); bufferLength := cb.(bufferLength); dataArray := arr |} in
  let (id, s1) := requestAnimationFrame cb' s in
  let s2 := set_animRef id s1 in
  setPathD (frame_path cb.(bufferLength) arr) s2.

(** The effect body (lines 15-43): nothing without a recording analyser,
    otherwise a fresh array and a first [draw()]. *)
Definition effect (snap : list Byte.byte) (s : WState) : WState :=
  match s.(isRecording), s.(analyserNode) with
  | true, Some an =>
      let cb := {| d_an := an; bufferLength := an.(an_bins); dataArray := repeat Byte.x00 an.(an_bins) |} in
      draw cb snap (set_effect (true, Some an) true s)
  | r, a => set_effect (r, a) false s
  end.

(** The cleanup (lines 45-49), when the effect returned it. *)
Definition cleanup (s : WState) : WState :=
  if s.(eff_has_cleanup) then
    if Nat.eqb s.(animationFrameIdRef) 0 then s
    else cancelAnimationFrame s.(animationFrameIdRef) s
  else s.

(** A render with props [r], [a] and its commit. *)
Definition render (r : bool) (a : option Analyser) (snap : list Byte.byte) (s : WState) : WState :=
  if negb s.(w_mounted) then s else
  let s1 := set_props r a s in
  if Bool.eqb (fst s1.(eff_deps)) r && analyser_eqb (snd s1.(eff_deps)) a then s1
  else effect snap (cleanup s1).

(** A frame: the callbacks scheduled before it run in order, each on the
    analyser's current data. *)
Fixpoint run_callbacks (cbs : list (nat * Draw)) (snap : list Byte.byte) (s : WState) : WState :=
  match cbs with
  | [] => s
  | (_, cb) :: rest => run_callbacks rest snap (draw cb snap s)
  end.

Definition frame (snap : list Byte.byte) (s : WState) : WState :=
  run_callbacks s.(raf_pending) snap (set_raf [] s.(raf_next) s).

Definition unmount (s : WState) : WState :=
  if s.(w_mounted) then set_unmounted (cleanup s) else s.

Inductive WEvent :=
| Rerender (r : bool) (a : option Analyser) (snap : list Byte.byte)
| Frame (snap : list Byte.byte)
| Unmount.

Definition wstep (s : WState) (e : WEvent) : WState :=
  match e with
  | Rerender r a snap => render r a snap s
  | Frame snap => frame snap s
  | Unmount => unmount s
  end.

(** The visualiser's markup (lines 52-75): an SVG of viewBox
    [0 0 300 96] holding one path, [d={pathD}], stroked with the gradient
    and the glow filter its [defs] declare. *)
Record Svg := { viewBox : string; path_d : list PathCmd; stroke : string; strokeWidth : string; filter : string }.

Definition svg_view (s : WState) : Svg :=
  {| viewBox := "0 0 300 96"; path_d := s.(pathD); stroke := "url(#gradient)";
     strokeWidth := "2"; filter := "url(#glow)" |}.

(** Mounting with props [r], [a]: the first render commits the effect. *)
Definition mount (r : bool) (a : option Analyser) (snap : list Byte.byte) (next : nat) : WState :=
  effect snap {| w_mounted := true; isRecording := r; analyserNode := a; eff_deps := (r, a);
                 eff_has_cleanup := false; pathD := []; animationFrameIdRef := 0;
                 raf_next := next; raf_pending := [] |}.

Inductive wreachable : WState -> Prop :=
| wreach_mount r a snap next : wreachable (mount r a snap next)
| wreach_step s e : wreachable s -> wreachable (wstep s e).

(** A visualiser mounted on a four-bin analyser, used by the witnesses. *)
Definition demo_analyser : Analyser := {| an_id := 1; an_bins := 4 |}.
Definition demo_snap : list Byte.byte := [Byte.x00; Byte.x40; Byte.x80; Byte.xff].
Definition demo_loop : WState := mount true (Some demo_analyser) demo_snap 0.

(** ** The invariant *)

Definition is_some {A} (o : option A) : bool := match o with Some _ => true | None => false end.

(** The live callback: the one the ref names, drawing from the committed
    effect's analyser with an array of its [bufferLength]. *)
Definition live_cb (s : WState) (cb : Draw) : Prop :=
  s.(raf_pending) = [(s.(animationFrameIdRef), cb)] /\ s.(animationFrameIdRef) <> 0 /\
  s.(eff_deps) = (true, Some cb.(d_an)) /\ cb.(bufferLength) = cb.(d_an).(an_bins) /\
  List.length cb.(dataArray) = cb.(bufferLength).

Record WInv (s : WState) : Prop := {
  winv_deps : s.(w_mounted) = true -> s.(eff_deps) = (s.(isRecording), s.(analyserNode));
  winv_cleanup : s.(w_mounted) = true ->
                 s.(eff_has_cleanup) = fst s.(eff_deps) && is_some (snd s.(eff_deps));
  winv_pending : if s.(w_mounted) && s.(eff_has_cleanup) then exists cb, live_cb s cb
                 else s.(raf_pending) = []
}.

(** ** Lemmas *)

Lemma length_getByteFrequencyData snap arr :
  List.length (getByteFrequencyData snap arr) = List.length arr.
Proof. unfold getByteFrequencyData. rewrite length_app, length_firstn, length_skipn. lia. Qed.

Lemma getByteFrequencyData_full snap arr :
  List.length snap = List.length arr -> getByteFrequencyData snap arr = snap.
Proof.
  intros H. unfold getByteFrequencyData. rewrite firstn_all2, skipn_all2 by lia. apply app_nil_r.
Qed.

Lemma analyser_eqb_eq a b : analyser_eqb a b = true -> a = b.
Proof.
  destruct a as [[i n]|], b as [[j m]|]; cbn; try discriminate; auto.
  intros H. apply andb_true_iff in H as [H1 H2]. apply Nat.eqb_eq in H1, H2. now subst.
Qed.

(** What one [draw] does to the state. *)
Lemma draw_fields cb snap s :
  let s' := draw cb snap s in
  let cb' := {| d_an := cb.(d_an); bufferLength := cb.(bufferLength);
                dataArray := getByteFrequencyData snap cb.(dataArray) |} in
  s'.(raf_pending) = s.(raf_pending) ++ [(S s.(raf_next), cb')] /\
  s'.(animationFrameIdRef) = S s.(raf_next) /\ s'.(raf_next) = S s.(raf_next) /\
  s'.(w_mounted) = s.(w_mounted) /\ s'.(eff_deps) = s.(eff_deps) /\
  s'.(eff_has_cleanup) = s.(eff_has_cleanup) /\
  s'.(isRecording) = s.(isRecording) /\ s'.(analyserNode) = s.(analyserNode) /\
  s'.(pathD) = if s.(w_mounted)
               then frame_path cb.(bufferLength) (getByteFrequencyData snap cb.(dataArray))
               else s.(pathD).
Proof.
  unfold draw, requestAnimationFrame, setPathD. cbn.
  destruct (w_mounted s) eqn:E; cbn; rewrite ?E; repeat split; auto.
Qed.

(** A committed effect from a state with nothing scheduled. *)
Lemma WInv_effect snap s :
  s.(w_mounted) = true -> s.(raf_pending) = [] -> WInv (effect snap s).
Proof.
  intros Hm Hp. unfold effect.
  destruct (isRecording s) eqn:Er, (analyserNode s) as [an|] eqn:Ea.
  2-4: constructor; cbn; rewrite ?Hm, ?Er, ?Ea; auto.
  match goal with |- WInv (draw ?cb ?snap ?y) =>
    destruct (draw_fields cb snap y) as (Pp & Pr & Pn & Pm & Pd & Pc & Pi & Pa & _);
    set (x := draw cb snap y) in * end.
  clearbody x.
  cbn [set_effect w_mounted eff_deps eff_has_cleanup isRecording analyserNode raf_pending raf_next
       d_an bufferLength dataArray] in *.
  constructor; rewrite ?Pm, ?Pd, ?Pc, ?Pi, ?Pa, ?Hm, ?Er, ?Ea; auto.
  cbn. eexists. unfold live_cb. rewrite Pp, Pr, Pd, Hp. split; [reflexivity|].
  cbn [d_an bufferLength dataArray]. rewrite length_getByteFrequencyData, repeat_length.
  repeat split; auto.
Qed.

(** The cleanup cancels the live callback, and only it. *)
Lemma cleanup_fields s :
  (if s.(w_mounted) && s.(eff_has_cleanup) then exists cb, live_cb s cb else s.(raf_pending) = []) ->
  s.(w_mounted) = true ->
  cleanup s = set_raf [] s.(raf_next) s.
Proof.
  intros Hp Hm. rewrite Hm in Hp. unfold cleanup. cbn [andb] in Hp.
  destruct (eff_has_cleanup s).
  - destruct Hp as (cb & Hq & Hz & _). apply Nat.eqb_neq in Hz as Hz'. rewrite Hz'.
    unfold cancelAnimationFrame. rewrite Hq. cbn. now rewrite Nat.eqb_refl.
  - destruct s; cbn in *. now subst.
Qed.

Lemma frame_idle snap s : s.(raf_pending) = [] -> frame snap s = s.
Proof. intros Hp. unfold frame. rewrite Hp. destruct s; cbn in *. now subst. Qed.

Lemma frame_live snap s cb :
  live_cb s cb -> frame snap s = draw cb snap (set_raf [] s.(raf_next) s).
Proof. intros (Hp & _). unfold frame. now rewrite Hp. Qed.

(** A frame redraws from the live callback and arms the next one. *)
Lemma live_cb_frame snap s cb :
  live_cb s cb ->
  let cb' := {| d_an := cb.(d_an); bufferLength := cb.(bufferLength);
                dataArray := getByteFrequencyData snap cb.(dataArray) |} in
  live_cb (frame snap s) cb' /\
  (frame snap s).(w_mounted) = s.(w_mounted) /\ (frame snap s).(eff_deps) = s.(eff_deps) /\
  (frame snap s).(eff_has_cleanup) = s.(eff_has_cleanup) /\
  (frame snap s).(isRecording) = s.(isRecording) /\
  (frame snap s).(analyserNode) = s.(analyserNode) /\
  (frame snap s).(pathD) = if s.(w_mounted)
                           then frame_path cb.(bufferLength) (getByteFrequencyData snap cb.(dataArray))
                           else s.(pathD).
Proof.
  intros Hl cb'; subst cb'. pose proof Hl as (Hp & Hz & Hd & Hb & Hlen). rewrite (frame_live snap s cb Hl).
  destruct (draw_fields cb snap (set_raf [] (raf_next s) s)) as (Pp & Pr & Pn & Pm & Pd & Pc & Pi & Pa & Ppath).
  set (x := draw cb snap _) in *. clearbody x.
  cbn [set_raf w_mounted eff_deps eff_has_cleanup isRecording analyserNode raf_pending raf_next] in *.
  split.
  - unfold live_cb. rewrite Pp, Pr, Pd, Hd. cbn [app d_an bufferLength dataArray].
    rewrite length_getByteFrequencyData. repeat split; auto.
  - rewrite Pm, Pd, Pc, Pi, Pa, Ppath. repeat split; auto.
Qed.

Lemma WInv_mount r a snap next : WInv (mount r a snap next).
Proof. apply WInv_effect; reflexivity. Qed.

Lemma WInv_unmount s : WInv s -> WInv (unmount s).
Proof.
  intros HI. pose proof HI as [Hd Hc Hp]. unfold unmount.
  destruct (w_mounted s) eqn:Hm; [|exact HI].
  rewrite (cleanup_fields s (winv_pending s HI) Hm). now constructor.
Qed.

Lemma WInv_render r a snap s : WInv s -> WInv (render r a snap s).
Proof.
  intros HI. pose proof HI as [Hd Hc Hp]. unfold render.
  destruct (w_mounted s) eqn:Hm; cbn [negb]; [|exact HI].
  assert (Hp1 : let s1 := set_props r a s in
                if s1.(w_mounted) && s1.(eff_has_cleanup) then exists cb, live_cb s1 cb
                else s1.(raf_pending) = []) by exact (winv_pending s HI).
  cbn zeta in Hp1.
  destruct (Bool.eqb _ r && analyser_eqb _ a) eqn:Heq.
  - apply andb_true_iff in Heq as [E1 E2]. apply Bool.eqb_prop in E1. apply analyser_eqb_eq in E2.
    specialize (Hd eq_refl). specialize (Hc eq_refl).
    constructor; cbn [set_props w_mounted eff_deps eff_has_cleanup isRecording analyserNode] in *;
      auto.
    intros _. destruct (eff_deps s); cbn in *; congruence.
  - rewrite (cleanup_fields _ Hp1 Hm). apply WInv_effect; cbn; auto.
Qed.

Lemma WInv_frame snap s : WInv s -> WInv (frame snap s).
Proof.
  intros [Hd Hc Hp]. destruct (w_mounted s && eff_has_cleanup s) eqn:E.
  - destruct Hp as (cb & Hl).
    destruct (live_cb_frame snap s cb Hl) as (Hl' & Fm & Fd & Fc & Fi & Fa & _).
    constructor; rewrite ?Fm, ?Fd, ?Fc, ?Fi, ?Fa, ?E; eauto.
  - rewrite frame_idle by exact Hp. now constructor; rewrite ?E.
Qed.

Lemma WInv_wstep s e : WInv s -> WInv (wstep s e).
Proof. destruct e; cbn [wstep]; auto using WInv_render, WInv_frame, WInv_unmount. Qed.

Lemma wreachable_WInv s : wreachable s -> WInv s.
Proof. induction 1; auto using WInv_mount, WInv_wstep. Qed.

(** With nothing scheduled, frames do nothing. *)
Lemma frames_idle s snaps : s.(raf_pending) = [] -> run wstep s (map Frame snaps) = s.
Proof. intros Hp. induction snaps as [|d snaps IH]; cbn; [reflexivity|]. now rewrite frame_idle. Qed.

(** A state that schedules no frame: unmounted, or mounted without a
    recording analyser. *)
Lemma WInv_no_loop s :
  WInv s -> (s.(w_mounted) = true -> s.(isRecording) = false) -> s.(raf_pending) = [].
Proof.
  intros [Hd Hc Hp] Hr. destruct (w_mounted s) eqn:Hm; [|exact Hp].
  rewrite Hc, Hd, Hr in Hp by reflexivity. exact Hp.
Qed.

Lemma wstep_unmount_mounted s : (wstep s Unmount).(w_mounted) = false.
Proof. cbn [wstep]. unfold unmount. destruct (w_mounted s) eqn:Hm; [reflexivity | exact Hm]. Qed.

Lemma effect_isRecording snap x : (effect snap x).(isRecording) = x.(isRecording).
Proof.
  unfold effect. destruct (isRecording x) eqn:E, (analyserNode x) as [an|]; try (cbn; congruence).
  match goal with |- isRecording (draw ?cb ?snap ?y) = _ =>
    destruct (draw_fields cb snap y) as (_&_&_&_&_&_&Pi&_) end. now rewrite Pi.
Qed.

Lemma cleanup_isRecording x : (cleanup x).(isRecording) = x.(isRecording).
Proof. unfold cleanup. now destruct (eff_has_cleanup x), (Nat.eqb (animationFrameIdRef x) 0). Qed.

Lemma render_props r a snap s :
  (render r a snap s).(w_mounted) = true -> (render r a snap s).(isRecording) = r.
Proof.
  unfold render. destruct (w_mounted s) eqn:Hm; cbn [negb]; [|congruence].
  intros _. destruct (_ && _); [reflexivity|].
  now rewrite effect_isRecording, cleanup_isRecording.
Qed.

(** The props and the mount flag, which only a render or an unmount
    changes. *)
Definition props (s : WState) : bool * bool * option Analyser :=
  (s.(w_mounted), s.(isRecording), s.(analyserNode)).

Lemma draw_props cb snap s : props (draw cb snap s) = props s.
Proof.
  destruct (draw_fields cb snap s) as (_&_&_&Pm&_&_&Pi&Pa&_). unfold props. now rewrite Pm, Pi, Pa.
Qed.

Lemma effect_props snap x : props (effect snap x) = props x.
Proof.
  unfold effect. destruct (isRecording x), (analyserNode x) as [an|]; try reflexivity.
  now rewrite draw_props.
Qed.

Lemma cleanup_props x : props (cleanup x) = props x.
Proof. unfold cleanup. now destruct (eff_has_cleanup x), (Nat.eqb (animationFrameIdRef x) 0). Qed.

Lemma frame_props snap s : props (frame snap s) = props s.
Proof.
  unfold frame. change (props s) with (props (set_raf [] s.(raf_next) s)).
  generalize (set_raf [] (raf_next s) s). induction (raf_pending s) as [|[id cb] cbs IH]; intros y; [reflexivity|].
  cbn [run_callbacks]. now rewrite IH, draw_props.
Qed.

(** A render of a mounted visualiser installs its props; a render of an
    unmounted one does nothing. *)
Lemma render_props_eq r a snap s :
  props (render r a snap s) = if s.(w_mounted) then (true, r, a) else props s.
Proof.
  unfold render. destruct (w_mounted s) eqn:Hm; cbn [negb]; [|reflexivity].
  destruct (_ && _); [unfold props; cbn; now rewrite Hm|].
  rewrite effect_props, cleanup_props. unfold props. cbn. now rewrite Hm.
Qed.

Lemma mount_props r a snap next : props (mount r a snap next) = (true, r, a).
Proof. unfold mount. now rewrite effect_props. Qed.

Lemma unmount_not_mounted s : (unmount s).(w_mounted) = false.
Proof. unfold unmount. destruct (w_mounted s) eqn:Hm; [reflexivity | exact Hm]. Qed.

(** Frames keep redrawing from the live callback, each on the data the
    analyser hands over. *)
Lemma frames_live s cb an snaps :
  live_cb s cb -> s.(w_mounted) = true -> cb.(d_an) = an ->
  Forall (fun d => List.length d = an.(an_bins)) snaps ->
  let s' := run wstep s (map Frame snaps) in
  (exists cb', live_cb s' cb' /\ cb'.(d_an) = an) /\ s'.(w_mounted) = true /\
  (snaps <> [] -> s'.(pathD) = frame_path an.(an_bins) (last snaps [])).
Proof.
  intros Hl Hm Ha Hsn. revert s cb Hl Hm Ha. induction Hsn as [|d snaps Hd Hsn IH]; intros s cb Hl Hm Ha.
  - split; [eauto | split; [exact Hm | congruence]].
  - cbn [map run wstep]. pose proof Hl as (_ & _ & _ & Hb & Hlen).
    destruct (live_cb_frame d s cb Hl) as (Hl' & Fm & _ & _ & _ & _ & Fp).
    destruct (IH _ _ Hl' ltac:(congruence) ltac:(cbn; congruence)) as (Hx & Hm' & Hp').
    split; [exact Hx | split; [exact Hm'|]]. intros _.
    destruct snaps as [|d' snaps']; [|apply Hp'; discriminate].
    cbn [run map last]. rewrite Fp, Hm, Hb, Ha, getByteFrequencyData_full; congruence.
Qed.

(** ** Properties of the loop *)

(** C30: at most one frame callback is ever scheduled, and it is the one
    [animationFrameIdRef] names, with a non-zero id: the cleanup's
    [cancelAnimationFrame(animationFrameIdRef.current)] always reaches the
    live callback, and the truthiness guard never skips it. *)
Theorem one_frame_scheduled s :
  wreachable s ->
  s.(raf_pending) = [] \/
  exists cb, s.(raf_pending) = [(s.(animationFrameIdRef), cb)] /\ s.(w_mounted) = true /\
             s.(animationFrameIdRef) <> 0.
Proof.
  intros Hr. destruct (wreachable_WInv s Hr) as [_ _ Hp].
  destruct (w_mounted s) eqn:Hm, (eff_has_cleanup s); cbn in Hp; auto.
  destruct Hp as (cb & Hq & Hz & _). right. eauto.
Qed.

(** C29: unmounting the visualiser, or turning [isRecording] off, cancels
    the scheduled frame in the same step: nothing is left scheduled and no
    later frame draws (spec §4.3 and §5: no dangling callback after
    teardown). *)
Theorem teardown_cancels_frame s e snaps :
  wreachable s -> (e = Unmount \/ exists a snap, e = Rerender false a snap) ->
  (wstep s e).(raf_pending) = [] /\ run wstep (wstep s e) (map Frame snaps) = wstep s e.
Proof.
  intros Hr He. assert (Hp : (wstep s e).(raf_pending) = []).
  { apply WInv_no_loop; [apply wreachable_WInv, wreach_step, Hr|].
    destruct He as [-> | (a & snap & ->)]; intros Hm.
    - now rewrite wstep_unmount_mounted in Hm.
    - now apply render_props. }
  split; [exact Hp | now apply frames_idle].
Qed.

(** C31: while the visualiser is mounted with a recording analyser, the
    loop never stops: after any number of frames exactly one callback is
    scheduled, and the displayed path is the drawing of the last frame's
    frequency data (spec §4.3, re-running on every animation frame). *)
Theorem frames_keep_drawing s an snaps :
  wreachable s -> s.(w_mounted) = true -> s.(isRecording) = true -> s.(analyserNode) = Some an ->
  Forall (fun d => List.length d = an.(an_bins)) snaps ->
  let s' := run wstep s (map Frame snaps) in
  (exists cb, s'.(raf_pending) = [(s'.(animationFrameIdRef), cb)]) /\
  (snaps <> [] -> s'.(pathD) = frame_path an.(an_bins) (last snaps [])).
Proof.
  intros Hr Hm Hi Ha Hsn s'. destruct (wreachable_WInv s Hr) as [Hd Hc Hp].
  rewrite Hm, Hc, Hd, Hi, Ha in Hp by exact Hm. cbn in Hp. destruct Hp as (cb & Hl).
  pose proof Hl as (_ & _ & Hdeps & _). rewrite Hd, Hi, Ha in Hdeps by exact Hm.
  injection Hdeps as Hcb.
  destruct (frames_live s cb an snaps Hl Hm (eq_sym Hcb) Hsn) as ((cb' & (Hq & _) & _) & _ & Hpath).
  split; [eauto | exact Hpath].
Qed.

(** ** Witnesses *)


Lemma one_frame_scheduled_witness :
  demo_loop.(raf_pending) = [] \/
  exists cb, demo_loop.(raf_pending) = [(demo_loop.(animationFrameIdRef), cb)] /\
             demo_loop.(w_mounted) = true /\ demo_loop.(animationFrameIdRef) <> 0.
Proof. apply one_frame_scheduled, wreach_mount. Defined.

Lemma teardown_cancels_frame_witness :
  (wstep demo_loop Unmount).(raf_pending) = [] /\
  run wstep (wstep demo_loop Unmount) (map Frame [demo_snap]) = wstep demo_loop Unmount.
Proof. apply teardown_cancels_frame; [apply wreach_mount | now left]. Defined.

Lemma frames_keep_drawing_witness :
  let s' := run wstep demo_loop (map Frame [demo_snap; demo_snap]) in
  (exists cb, s'.(raf_pending) = [(s'.(animationFrameIdRef), cb)]) /\
  ([demo_snap; demo_snap] <> [] -> s'.(pathD) = frame_path demo_analyser.(an_bins) (last [demo_snap; demo_snap] [])).
Proof.
  apply frames_keep_drawing; [apply wreach_mount | reflexivity | reflexivity | reflexivity |].
  repeat constructor.
Defined.

End WaveLoop.
