(* ===== verification/Json.v ===== *)
(** * JSON text: [JSON.stringify] and [JSON.parse] on the values the app stores

    The auth store keeps a user object and a boolean in localStorage as
    JSON text (auth-context.tsx, lines 30-34, 47-48, 56-58, 62, 75).
    [JSON.stringify] and [JSON.parse] are ECMAScript library functions:
    they are modelled from the ECMAScript specification (QuoteJSONString
    and the JSON grammar) for the values the code passes: [null],
    booleans, strings and objects.  A JavaScript string is modelled as a
    [string] of 8-bit characters; [\uXXXX] escapes above 0xFF fall
    outside that model and are refused by the parser.  Other JSON forms
    (numbers, arrays, whitespace) are refused too: the code only parses
    what it stored itself.

    The main result is the round trip [parse_stringify]. *)

From Stdlib Require Import String Ascii.
From Stdlib Require Import List Lia Bool Arith.
From S2P Require Import Prelude.
Import ListNotations.
#[local] Open Scope string_scope.

Module Json.

#[local] Set Warnings "-register-all".
Inductive json :=
| JNull
| JBool (b : bool)
| JStr (s : string)
| JObj (kvs : list (string * json)).

(** The characters that need a name: the quotation mark and the reverse
    solidus. *)
Definition dquote : ascii := ascii_of_nat 34.
Definition bslash : ascii := ascii_of_nat 92.

(** A lowercase hexadecimal digit, as QuoteJSONString writes it. *)
Definition hex_digit (n : nat) : ascii :=
  ascii_of_nat (if Nat.ltb n 10 then 48 + n else 87 + n).

(** QuoteJSONString, one code unit. *)
Definition escape_char (c : ascii) : string :=
  let n := nat_of_ascii c in
  if Ascii.eqb c dquote then String bslash (String dquote EmptyString)
  else if Ascii.eqb c bslash then String bslash (String bslash EmptyString)
  else if Nat.eqb n 8 then String bslash "b"
  else if Nat.eqb n 9 then String bslash "t"
  else if Nat.eqb n 10 then String bslash "n"
  else if Nat.eqb n 12 then String bslash "f"
  else if Nat.eqb n 13 then String bslash "r"
  else if Nat.ltb n 32 then
    String bslash (String "u" (String "0" (String "0"
      (String (hex_digit (Nat.div n 16)) (String (hex_digit (Nat.modulo n 16)) EmptyString)))))
  else String c EmptyString.

Fixpoint escape (s : string) : string :=
  match s with
  | EmptyString => EmptyString
  | String c s' => escape_char c ++ escape s'
  end.

Definition quote (s : string) : string := String dquote (escape s ++ String dquote EmptyString).

(** [JSON.stringify]: SerializeJSONProperty for the modelled values. *)
Fixpoint stringify (j : json) : string :=
  match j with
  | JNull => "null"
  | JBool true => "true"
  | JBool false => "false"
  | JStr s => quote s
  | JObj kvs =>
      "{" ++ (fix members (kvs : list (string * json)) : string :=
                match kvs with
                | [] => ""
                | [(k, v)] => quote k ++ ":" ++ stringify v
                | (k, v) :: kvs' => quote k ++ ":" ++ stringify v ++ "," ++ members kvs'
                end) kvs ++ "}"
  end.

(** The members of an object, as [stringify] writes them. *)
Fixpoint members (kvs : list (string * json)) : string :=
  match kvs with
  | [] => ""
  | [(k, v)] => quote k ++ ":" ++ stringify v
  | (k, v) :: kvs' => quote k ++ ":" ++ stringify v ++ "," ++ members kvs'
  end.

(** ** The parser *)

Definition hex_val (c : ascii) : option nat :=
  let n := nat_of_ascii c in
  if (Nat.leb 48 n && Nat.leb n 57)%bool then Some (n - 48)
  else if (Nat.leb 97 n && Nat.leb n 102)%bool then Some (n - 87)
  else if (Nat.leb 65 n && Nat.leb n 70)%bool then Some (n - 55)
  else None.

(** [\uXXXX], for a code unit that is an 8-bit character. *)
Definition hex4 (a b c d : ascii) : option ascii :=
  match hex_val a, hex_val b, hex_val c, hex_val d with
  | Some x, Some y, Some z, Some w =>
      let n := x * 4096 + y * 256 + z * 16 + w in
      if Nat.ltb n 256 then Some (ascii_of_nat n) else None
  | _, _, _, _ => None
  end.

(** The one-letter escapes of the JSON grammar. *)
Definition simple_unescape (e : ascii) : option ascii :=
  if Ascii.eqb e dquote then Some dquote
  else if Ascii.eqb e bslash then Some bslash
  else if Ascii.eqb e "/" then Some "/"%char
  else if Ascii.eqb e "b" then Some (ascii_of_nat 8)
  else if Ascii.eqb e "f" then Some (ascii_of_nat 12)
  else if Ascii.eqb e "n" then Some (ascii_of_nat 10)
  else if Ascii.eqb e "r" then Some (ascii_of_nat 13)
  else if Ascii.eqb e "t" then Some (ascii_of_nat 9)
  else None.

Definition cons_fst (c : ascii) (o : option (string * string)) : option (string * string) :=
  match o with Some (t, r) => Some (String c t, r) | None => None end.

(** The characters of a string literal after its opening quote, up to
    its closing quote: the contents and what follows. *)
Fixpoint parse_str (s : string) : option (string * string) :=
  match s with
  | EmptyString => None
  | String c s1 =>
      if Ascii.eqb c dquote then Some (EmptyString, s1)
      else if Ascii.eqb c bslash then
        match s1 with
        | EmptyString => None
        | String e s2 =>
            match simple_unescape e with
            | Some c' => cons_fst c' (parse_str s2)
            | None =>
                if Ascii.eqb e "u" then
                  match s2 with
                  | String h1 (String h2 (String h3 (String h4 s3))) =>
                      match hex4 h1 h2 h3 h4 with
                      | Some c' => cons_fst c' (parse_str s3)
                      | None => None
                      end
                  | _ => None
                  end
                else None
            end
        end
      else if Nat.ltb (nat_of_ascii c) 32 then None
      else cons_fst c (parse_str s1)
  end.

(** [strip_prefix p s]: [s] without its prefix [p]. *)
Fixpoint strip_prefix (p s : string) : option string :=
  match p, s with
  | EmptyString, _ => Some s
  | String a p', String b s' => if Ascii.eqb a b then strip_prefix p' s' else None
  | String _ _, EmptyString => None
  end.

(** A value and the text after it; [fuel] bounds the nesting and the
    number of object members. *)
Fixpoint parse_value (fuel : nat) (s : string) : option (json * string) :=
  match fuel with
  | O => None
  | S f =>
      match s with
      | EmptyString => None
      | String c r =>
          if Ascii.eqb c dquote then
            match parse_str r with Some (t, r') => Some (JStr t, r') | None => None end
          else if Ascii.eqb c "{" then
            match r with
            | String d r' => if Ascii.eqb d "}" then Some (JObj [], r') else parse_members f [] r
            | EmptyString => None
            end
          else match strip_prefix "true" s with
               | Some r' => Some (JBool true, r')
               | None =>
                   match strip_prefix "false" s with
                   | Some r' => Some (JBool false, r')
                   | None =>
                       match strip_prefix "null" s with
                       | Some r' => Some (JNull, r')
                       | None => None
                       end
                   end
               end
      end
  end
with parse_members (fuel : nat) (acc : list (string * json)) (s : string) : option (json * string) :=
  match fuel with
  | O => None
  | S f =>
      match s with
      | String q r =>
          if Ascii.eqb q dquote then
            match parse_str r with
            | Some (k, String colon r1) =>
                if Ascii.eqb colon ":" then
                  match parse_value f r1 with
                  | Some (v, String sep r2) =>
                      if Ascii.eqb sep "," then parse_members f (acc ++ [(k, v)]) r2
                      else if Ascii.eqb sep "}" then Some (JObj (acc ++ [(k, v)]), r2)
                      else None
                  | _ => None
                  end
                else None
            | _ => None
            end
          else None
      | EmptyString => None
      end
  end.

(** [JSON.parse]: [None] where it throws a [SyntaxError]. *)
Definition parse (s : string) : option json :=
  match parse_value (String.length s) s with
  | Some (j, EmptyString) => Some j
  | _ => None
  end.

(** [obj.key] on a parsed object: the last member with that key, as
    JSON.parse keeps the last of repeated keys. *)
Fixpoint field (k : string) (kvs : list (string * json)) : option json :=
  match kvs with
  | [] => None
  | (k', v) :: kvs' =>
      match field k kvs' with
      | Some w => Some w
      | None => if String.eqb k k' then Some v else None
      end
  end.

Definition get (k : string) (j : json) : option json :=
  match j with JObj kvs => field k kvs | _ => None end.

(** JavaScript truthiness of a parsed value. *)
Definition truthy (j : json) : bool :=
  match j with
  | JNull => false
  | JBool b => b
  | JStr s => negb (String.eqb s "")
  | JObj _ => true
  end.

(** The fuel the parser needs for a value. *)
Fixpoint size (j : json) : nat :=
  match j with
  | JObj kvs => S ((fix msize (kvs : list (string * json)) : nat :=
                      match kvs with
                      | [] => 0
                      | (_, v) :: kvs' => S (size v + msize kvs')
                      end) kvs)
  | _ => 1
  end.

Fixpoint msize (kvs : list (string * json)) : nat :=
  match kvs with
  | [] => 0
  | (_, v) :: kvs' => S (size v + msize kvs')
  end.

(** ** Lemmas *)

(** Induction on values, with the hypothesis for every member of an
    object. *)
Section JsonInd.
Variable P : json -> Prop.
Hypothesis HNull : P JNull.
Hypothesis HBool : forall b, P (JBool b).
Hypothesis HStr : forall s, P (JStr s).
Hypothesis HObj : forall kvs, Forall (fun kv => P (snd kv)) kvs -> P (JObj kvs).

Fixpoint json_ind' (j : json) : P j :=
  match j with
  | JNull => HNull
  | JBool b => HBool b
  | JStr s => HStr s
  | JObj kvs =>
      HObj kvs ((fix go (kvs : list (string * json)) : Forall (fun kv => P (snd kv)) kvs :=
                   match kvs with
                   | [] => Forall_nil _
                   | kv :: kvs' => Forall_cons kv (json_ind' (snd kv)) (go kvs')
                   end) kvs)
  end.
End JsonInd.

Lemma stringify_obj kvs : stringify (JObj kvs) = "{" ++ members kvs ++ "}".
Proof. reflexivity. Qed.

Lemma size_obj kvs : size (JObj kvs) = S (msize kvs).
Proof. reflexivity. Qed.

(** QuoteJSONString is undone one character at a time: checked on the
    256 characters. *)
Lemma parse_escape_char c t : parse_str (escape_char c ++ t) = cons_fst c (parse_str t).
Proof. destruct c as [[] [] [] [] [] [] [] []]; reflexivity. Qed.

Lemma parse_str_quote s t : parse_str (escape s ++ String dquote t) = Some (s, t).
Proof.
  induction s as [|c s IH]; [reflexivity|].
  cbn [escape]. rewrite string_app_assoc, parse_escape_char, IH. reflexivity.
Qed.

Lemma quote_app k t : quote k ++ t = String dquote (escape k ++ String dquote t).
Proof. unfold quote. cbn [append]. now rewrite string_app_assoc. Qed.

(** More fuel gives the same result. *)
Lemma parse_mono n :
  (forall s m x, parse_value n s = Some x -> n <= m -> parse_value m s = Some x) /\
  (forall acc s m x, parse_members n acc s = Some x -> n <= m -> parse_members m acc s = Some x).
Proof.
  induction n as [|n [IHv IHm]]; split; try (intros; discriminate).
  - intros s [|m] x H Hle; [lia|]. cbn [parse_value] in *.
    destruct s as [|c r]; [discriminate|].
    destruct (Ascii.eqb c dquote); [exact H|].
    destruct (Ascii.eqb c "{"); [|exact H].
    destruct r as [|d r']; [discriminate|].
    destruct (Ascii.eqb d "}"); [exact H|]. apply (IHm _ _ _ _ H); lia.
  - intros acc s [|m] x H Hle; [lia|]. cbn [parse_members] in *.
    destruct s as [|q r]; [discriminate|]. destruct (Ascii.eqb q dquote); [|discriminate].
    destruct (parse_str r) as [[k [|colon r1]]|]; try discriminate.
    destruct (Ascii.eqb colon ":"); [|discriminate].
    destruct (parse_value n r1) as [[v [|sep r2]]|] eqn:E; try discriminate.
    rewrite (IHv _ _ _ E) by lia.
    destruct (Ascii.eqb sep ","); [apply (IHm _ _ _ _ H); lia | exact H].
Qed.

Lemma parse_members_stringify kvs :
  Forall (fun kv => forall n rest, size (snd kv) <= n ->
                    parse_value n (stringify (snd kv) ++ rest) = Some (snd kv, rest)) kvs ->
  kvs <> [] ->
  forall acc n rest, msize kvs <= n ->
  parse_members n acc (members kvs ++ "}" ++ rest) = Some (JObj (acc ++ kvs), rest).
Proof.
  induction 1 as [|[k v] kvs Hv Hkvs IH]; intros Hne acc n rest Hn; [congruence|].
  cbn [msize snd] in *. destruct n as [|n]; [lia|].
  destruct kvs as [|kv' kvs'].
  - cbn [members]. rewrite !string_app_assoc, quote_app. cbn [parse_members].
    rewrite parse_str_quote. cbn [append]. rewrite Hv by lia. reflexivity.
  - change (members ((k, v) :: kv' :: kvs'))
      with (quote k ++ ":" ++ stringify v ++ "," ++ members (kv' :: kvs')).
    rewrite !string_app_assoc, quote_app. cbn [parse_members].
    rewrite parse_str_quote. cbn [append]. rewrite Hv by lia. cbn -[members].
    change (String "}" rest) with ("}" ++ rest). rewrite IH by (discriminate || lia). now rewrite <- app_assoc.
Qed.

Lemma parse_value_stringify j : forall n rest, size j <= n ->
  parse_value n (stringify j ++ rest) = Some (j, rest).
Proof.
  induction j as [| b | s | kvs IH] using json_ind'; intros n rest Hn;
    (destruct n as [|n]; [cbn in Hn; lia|]).
  - reflexivity.
  - destruct b; reflexivity.
  - cbn [stringify]. rewrite quote_app. cbn [parse_value]. now rewrite parse_str_quote.
  - rewrite stringify_obj. rewrite size_obj in Hn. destruct kvs as [|kv kvs]; [reflexivity|].
    cbn [append]. rewrite string_app_assoc.
    change (parse_value (S n) (String "{" (members (kv :: kvs) ++ "}" ++ rest)))
      with (match members (kv :: kvs) ++ "}" ++ rest with
            | String d r' => if Ascii.eqb d "}" then Some (JObj [], r')
                             else parse_members n [] (members (kv :: kvs) ++ "}" ++ rest)
            | EmptyString => None end).
    destruct kv as [k v]. assert (Hq : exists t, members ((k, v) :: kvs) ++ "}" ++ rest = String dquote t)
      by (destruct kvs; cbn [members]; rewrite !string_app_assoc, quote_app; eauto).
    destruct Hq as (t & Ht). rewrite Ht. cbn [Ascii.eqb dquote]. rewrite <- Ht.
    apply parse_members_stringify; [exact IH | discriminate | lia].
Qed.

Lemma length_quote k : 2 <= String.length (quote k).
Proof. unfold quote. cbn [String.length]. rewrite string_length_app. cbn. lia. Qed.

Lemma msize_le_members kvs :
  Forall (fun kv => size (snd kv) <= String.length (stringify (snd kv))) kvs ->
  msize kvs <= String.length (members kvs).
Proof.
  induction 1 as [|[k v] kvs Hv Hkvs IH]; [reflexivity|]. cbn [snd] in Hv.
  pose proof (length_quote k). destruct kvs as [|kv' kvs'].
  - cbn [members msize]. rewrite !string_length_app. cbn [String.length]. lia.
  - change (members ((k, v) :: kv' :: kvs'))
      with (quote k ++ ":" ++ stringify v ++ "," ++ members (kv' :: kvs')).
    cbn [msize] in *. rewrite !string_length_app. cbn [String.length]. lia.
Qed.

Lemma size_le_length j : size j <= String.length (stringify j).
Proof.
  induction j as [| b | s | kvs IH] using json_ind'.
  - cbn; lia.
  - destruct b; cbn; lia.
  - pose proof (length_quote s). cbn [size stringify]. lia.
  - rewrite size_obj, stringify_obj. cbn [String.length append]. rewrite string_length_app.
    cbn [String.length]. pose proof (msize_le_members kvs IH). lia.
Qed.

(** [JSON.parse(JSON.stringify(v))] gives back [v] for every value of
    the modelled fragment, whatever characters its strings hold: the user
    record and the flag the store writes are read back exactly (spec §6:
    the payload must round-trip through the store). *)
Lemma parse_stringify j : parse (stringify j) = Some j.
Proof.
  unfold parse. rewrite <- (string_app_nil_r (stringify j)) at 2.
  rewrite parse_value_stringify by apply size_le_length. reflexivity.
Qed.

End Json.
