(* ===== verification/Store.v ===== *)
(** * The store interface the pages use (spec §6, §9)

    The login and register pages and the header call three functions of
    the auth context ([useAuth()]): [register], [login] and [logout],
    and read [isAuthenticated].  [AuthApi] names them for any state type;
    [AuthLaws] states what the mock promises (spec §6): a login after a
    registration succeeds whatever the payload, a successful login
    authenticates, a logout does not.  The pages' theorems ([Pages]) are
    proved against these laws; [Auth] provides the instance for
    [auth-context.tsx]. *)

From Stdlib Require Import String.

Class AuthApi (S : Type) := {
  api_register : string -> string -> S -> bool * S;
  api_login : string -> S -> bool * S;
  api_logout : S -> S;
  api_isAuthenticated : S -> bool
}.

Class AuthLaws (S : Type) `{AuthApi S} := {
  law_register_login : forall id vp vp' s,
    fst (api_login vp' (snd (api_register id vp s))) = true;
  law_register_ok : forall id vp s, fst (api_register id vp s) = true;
  law_login_authenticates : forall vp s,
    fst (api_login vp s) = true -> api_isAuthenticated (snd (api_login vp s)) = true;
  law_logout : forall s, api_isAuthenticated (api_logout s) = false
}.
