(* ===== verification/Auth.v ===== *)
(** * The mock authentication store ([context/auth-context.tsx])

    [AuthProvider] holds three pieces of React state ([user],
    [isAuthenticated], [isLoading]) and reads and writes two localStorage
    entries: ["voicekey_user"], the JSON text of the user record
    [{id, voicePrint}], and ["voicekey_user_auth"], the JSON text of a
    boolean.  localStorage is a finite map from strings to strings
    (stdpp's [gmap]); the JSON text is produced and read by [Json].

    [load] is the mount effect (lines 28-41); [register], [login] and
    [logout] are the context's functions (lines 43-76), each returning
    its result with the next state.  [AuthApi] is the interface the pages
    use (spec §6), with the laws the mock satisfies; the instance for
    this module discharges them. *)

From Stdlib Require Import String Ascii.
From stdpp Require Import gmap strings.
From S2P Require Import Prelude Json Store.

Module Auth.
Import Json.
#[local] Open Scope string_scope.

(** [USER_STORAGE_KEY] and [`${USER_STORAGE_KEY}_auth`] (lines 21, 31). *)
Definition USER_STORAGE_KEY : string := "voicekey_user".
Definition AUTH_STORAGE_KEY : string := String.append USER_STORAGE_KEY "_auth".

Abbreviation Storage := (gmap string string).

(** The object literal [{ id, voicePrint }] (line 46). *)
Definition user_json (id voicePrint : string) : json :=
  JObj [("id", JStr id); ("voicePrint", JStr voicePrint)].

Record AuthState := {
  storage : Storage;          (* window.localStorage *)
  user : option json;         (* useState<User | null>(null): the parsed object *)
  isAuthenticated : json;     (* useState(false); the load effect stores a parsed value *)
  isLoading : bool            (* useState(true) *)
}.

Definition set_storage v s :=
  {| storage := v; user := s.(user); isAuthenticated := s.(isAuthenticated); isLoading := s.(isLoading) |}.
Definition setUser v s :=
  {| storage := s.(storage); user := v; isAuthenticated := s.(isAuthenticated); isLoading := s.(isLoading) |}.
Definition setIsAuthenticated v s :=
  {| storage := s.(storage); user := s.(user); isAuthenticated := v; isLoading := s.(isLoading) |}.
Definition setIsLoading v s :=
  {| storage := s.(storage); user := s.(user); isAuthenticated := s.(isAuthenticated); isLoading := v |}.

(** The provider's first render, over the browser's storage. *)
Definition provider_init (st : Storage) : AuthState :=
  {| storage := st; user := None; isAuthenticated := JBool false; isLoading := true |}.

(** [localStorage.getItem(k)] is truthy: present and not empty. *)
Definition stored_truthy (o : option string) : bool :=
  match o with Some v => negb (String.eqb v "") | None => false end.

(** The mount effect (lines 28-41): both entries present and non-empty,
    the user is parsed and set, then the flag; a [JSON.parse] that throws
    stops the [try] block where it throws; [isLoading] is cleared in the
    [finally]. *)
Definition load (s : AuthState) : AuthState :=
  let storedUser := s.(storage) !! USER_STORAGE_KEY in
  let storedAuthState := s.(storage) !! AUTH_STORAGE_KEY in
  let s' :=
    match storedUser, storedAuthState with
    | Some su, Some sa =>
        if stored_truthy storedUser && stored_truthy storedAuthState then
          match parse su with
          | None => s
          | Some u =>
              let s1 := setUser (Some u) s in
              match parse sa with
              | None => s1
              | Some a => setIsAuthenticated a s1
              end
          end
        else s
    | _, _ => s
    end in
  setIsLoading false s'.

(** [register] (lines 43-50): both entries are overwritten; the result
    is always [true]. *)
Definition register (id voicePrint : string) (s : AuthState) : bool * AuthState :=
  let newUser := user_json id voicePrint in
  let st1 := <[USER_STORAGE_KEY := stringify newUser]> s.(storage) in
  let st2 := <[AUTH_STORAGE_KEY := stringify (JBool false)]> st1 in
  (true, set_storage st2 s).

(** [login] (lines 52-69): succeeds when a user entry is stored and
    parses, whatever [voicePrint] is. *)
Definition login (voicePrint : string) (s : AuthState) : bool * AuthState :=
  match s.(storage) !! USER_STORAGE_KEY with
  | Some storedUser =>
      if String.eqb storedUser "" then (false, s) else
      match parse storedUser with
      | Some parsedUser =>
          let s1 := setIsAuthenticated (JBool true) (setUser (Some parsedUser) s) in
          (true, set_storage (<[AUTH_STORAGE_KEY := stringify (JBool true)]> s1.(storage)) s1)
      | None => (false, s)
      end
  | None => (false, s)
  end.

(** [logout] (lines 71-76): the registration is kept. *)
Definition logout (s : AuthState) : AuthState :=
  let s1 := setIsAuthenticated (JBool false) (setUser None s) in
  set_storage (<[AUTH_STORAGE_KEY := stringify (JBool false)]> s1.(storage)) s1.

(** The store as a machine: the context's functions, and a page reload
    (a fresh provider over the same storage, then its mount effect). *)
Inductive AEvent :=
| ARegister (id voicePrint : string)
| ALogin (voicePrint : string)
| ALogout
| AReload.

Definition astep (s : AuthState) (e : AEvent) : AuthState :=
  match e with
  | ARegister id vp => snd (register id vp s)
  | ALogin vp => snd (login vp s)
  | ALogout => logout s
  | AReload => load (provider_init s.(storage))
  end.

Inductive areachable : AuthState -> Prop :=
| areach_init : areachable (load (provider_init ∅))
| areach_step s e : areachable s -> areachable (astep s e).

(** A stored user entry as [register] writes it. *)
Definition user_entry (o : option string) : Prop :=
  o = None \/ exists id vp, o = Some (stringify (user_json id vp)).

(** A user record held in React state. *)
Definition user_record (o : option json) : Prop :=
  o = None \/ exists id vp, o = Some (user_json id vp).

Record AInv (s : AuthState) : Prop := {
  ainv_stored : user_entry (s.(storage) !! USER_STORAGE_KEY);
  ainv_flag : exists b, s.(storage) !! AUTH_STORAGE_KEY = None \/
                        s.(storage) !! AUTH_STORAGE_KEY = Some (stringify (JBool b));
  ainv_user : user_record s.(user);
  ainv_bool : exists b, s.(isAuthenticated) = JBool b;
  ainv_session : truthy s.(isAuthenticated) = true -> s.(user) <> None
}.

#[export] Instance auth_api : AuthApi AuthState := {
  api_register := register;
  api_login := login;
  api_logout := logout;
  api_isAuthenticated s := truthy s.(isAuthenticated)
}.

(** ** Lemmas *)

(** Project the record setters, leaving the map operations alone. *)
Ltac simpl_state :=
  cbn [storage user isAuthenticated isLoading set_storage setUser setIsAuthenticated
       setIsLoading provider_init fst snd register logout astep] in *.

Lemma auth_key_ne : AUTH_STORAGE_KEY <> USER_STORAGE_KEY.
Proof. discriminate. Qed.

Lemma stringify_nonempty j : String.eqb (stringify j) "" = false.
Proof. destruct j as [| [] | | ]; reflexivity. Qed.

Lemma register_storage id vp s :
  (snd (register id vp s)).(storage) !! USER_STORAGE_KEY = Some (stringify (user_json id vp)) /\
  (snd (register id vp s)).(storage) !! AUTH_STORAGE_KEY = Some (stringify (JBool false)).
Proof.
  simpl_state. split; [rewrite lookup_insert_ne by exact auth_key_ne|]; apply lookup_insert_eq.
Qed.

(** A login over a stored record: it succeeds and the session holds the
    stored record, whatever payload was presented. *)
Lemma login_stored id vp vp' s :
  s.(storage) !! USER_STORAGE_KEY = Some (stringify (user_json id vp)) ->
  fst (login vp' s) = true /\ (snd (login vp' s)).(user) = Some (user_json id vp) /\
  (snd (login vp' s)).(isAuthenticated) = JBool true /\
  (snd (login vp' s)).(storage) = <[AUTH_STORAGE_KEY := stringify (JBool true)]> s.(storage).
Proof.
  intros Hs. unfold login. rewrite Hs, stringify_nonempty, parse_stringify. simpl_state. auto.
Qed.

Lemma login_none vp s : s.(storage) !! USER_STORAGE_KEY = None -> login vp s = (false, s).
Proof. intros Hs. unfold login. now rewrite Hs. Qed.

Lemma AInv_register id vp s : AInv s -> AInv (snd (register id vp s)).
Proof.
  intros [Hst Hf Hu Hb Hse]. destruct (register_storage id vp s) as [E1 E2].
  constructor; auto.
  - right. rewrite E1. eauto.
  - exists false. right. exact E2.
Qed.

Lemma AInv_login vp s : AInv s -> AInv (snd (login vp s)).
Proof.
  intros HI. destruct HI as [Hst Hf Hu Hb Hse].
  destruct Hst as [Hn | (id & vp0 & Hs)].
  - rewrite login_none by exact Hn. constructor; auto. now left.
  - destruct (login_stored id vp0 vp s Hs) as (_ & Eu & Ea & Est).
    constructor; rewrite ?Eu, ?Ea, ?Est.
    + rewrite lookup_insert_ne by (intros H; apply auth_key_ne; now symmetry). right. eauto.
    + exists true. right. apply lookup_insert_eq.
    + right. eauto.
    + eauto.
    + discriminate.
Qed.

Lemma AInv_logout s : AInv s -> AInv (logout s).
Proof.
  intros [Hst Hf Hu Hb Hse]. constructor; simpl_state.
  - rewrite lookup_insert_ne by (intros H; apply auth_key_ne; now symmetry). exact Hst.
  - exists false. right. apply lookup_insert_eq.
  - now left.
  - eauto.
  - discriminate.
Qed.

Lemma AInv_reload s : AInv s -> AInv (load (provider_init s.(storage))).
Proof.
  intros [Hst Hf Hu Hb Hse]. destruct Hf as (b & Hf).
  assert (Hflag : exists b, s.(storage) !! AUTH_STORAGE_KEY = None \/
                            s.(storage) !! AUTH_STORAGE_KEY = Some (stringify (JBool b))) by eauto.
  assert (Hfresh : AInv (setIsLoading false (provider_init s.(storage))))
    by (constructor; simpl_state; eauto; now left).
  unfold load. simpl_state.
  destruct Hst as [Hn | (id & vp & Hs)]; [now rewrite Hn|].
  destruct Hf as [Hn | Hf]; rewrite Hs; [now rewrite Hn|].
  rewrite Hf. cbn [stored_truthy]. rewrite !stringify_nonempty, !parse_stringify. cbn [negb andb].
  constructor; simpl_state; [right; eauto | exact Hflag | right; eauto | eauto | discriminate].
Qed.

Lemma AInv_astep s e : AInv s -> AInv (astep s e).
Proof.
  destruct e; cbn [astep]; auto using AInv_register, AInv_login, AInv_logout, AInv_reload.
Qed.

Lemma areachable_AInv s : areachable s -> AInv s.
Proof.
  induction 1; [|now apply AInv_astep].
  change (load (provider_init ∅)) with (load (provider_init (provider_init ∅).(storage))).
  apply AInv_reload. constructor; simpl_state; [now left | exists false; now left | now left | eauto | discriminate].
Qed.

(** A reload after [logout] restores the stored user record into the
    session, with the flag [false] read back from its text. *)
Lemma logout_reload id vp s :
  s.(storage) !! USER_STORAGE_KEY = Some (stringify (user_json id vp)) ->
  (astep (astep s ALogout) AReload).(user) = Some (user_json id vp) /\
  (astep (astep s ALogout) AReload).(isAuthenticated) = JBool false.
Proof.
  intros Hs. simpl_state. unfold load. simpl_state.
  rewrite lookup_insert_ne by (intros H; apply auth_key_ne; now symmetry).
  rewrite Hs, lookup_insert_eq. cbn [stored_truthy].
  rewrite !stringify_nonempty, !parse_stringify. cbn. auto.
Qed.

(** The mock satisfies the store laws of spec §6. *)
#[export] Instance auth_laws : AuthLaws AuthState.
Proof.
  constructor; cbn [api_register api_login api_logout api_isAuthenticated auth_api].
  - intros id vp vp' s. now destruct (login_stored id vp vp' _ (proj1 (register_storage id vp s))).
  - reflexivity.
  - intros vp s. unfold login.
    destruct (storage s !! USER_STORAGE_KEY) as [su|]; [|discriminate].
    destruct (String.eqb su ""); [discriminate|]. destruct (parse su); [reflexivity | discriminate].
  - reflexivity.
Qed.

(** ** Properties of the store *)

(** C15: spec §8, sixth scenario: after [register(id, P1)], [login(P2)]
    succeeds for any payload [P2]; the session then holds the registered
    record, with [P1], and is authenticated. *)
Theorem register_then_login s id p1 p2 :
  let s1 := snd (register id p1 s) in
  fst (register id p1 s) = true /\ fst (login p2 s1) = true /\
  (snd (login p2 s1)).(user) = Some (user_json id p1) /\
  truthy (snd (login p2 s1)).(isAuthenticated) = true.
Proof.
  intros s1. destruct (login_stored id p1 p2 s1 (proj1 (register_storage id p1 s))) as (H1 & H2 & H3 & _).
  repeat split; auto. now rewrite H3.
Qed.

(** C19: [register] never refuses: registering a username that is
    already stored succeeds and replaces its voice print; the spec's
    [DuplicateUser] error (§7) is never raised. *)
Theorem register_replaces_user s id vp1 vp2 vp' :
  let s2 := snd (register id vp2 (snd (register id vp1 s))) in
  fst (register id vp2 (snd (register id vp1 s))) = true /\
  s2.(storage) !! USER_STORAGE_KEY = Some (stringify (user_json id vp2)) /\
  (snd (login vp' s2)).(user) = Some (user_json id vp2).
Proof.
  intros s2. destruct (register_storage id vp2 (snd (register id vp1 s))) as [E _].
  split; [reflexivity | split; [exact E|]]. now destruct (login_stored id vp2 vp' s2 E) as (_ & H & _).
Qed.

(** C17: in every state the store reaches from an empty localStorage, the
    flag is a boolean, an authenticated session holds a user record
    [{id, voicePrint}] of strings, and the stored user entry is the JSON
    text of such a record. *)
Theorem session_invariant s :
  areachable s ->
  (exists b, s.(isAuthenticated) = JBool b) /\
  (truthy s.(isAuthenticated) = true -> exists id vp, s.(user) = Some (user_json id vp)) /\
  user_entry (s.(storage) !! USER_STORAGE_KEY).
Proof.
  intros Hr. destruct (areachable_AInv s Hr) as [Hst _ Hu Hb Hse].
  split; [exact Hb | split; [|exact Hst]]. intros Ht. destruct Hu as [Hn | Hu]; [|exact Hu].
  now destruct (Hse Ht).
Qed.

(** C18: [logout] clears the user from React state but writes the flag
    as the text ["false"], which is a non-empty, truthy string: after a
    reload the mount effect restores the stored user record into the
    session, unauthenticated.  The dashboard route has no guard, so its
    security analysis runs on that voice print after logging out. *)
Theorem reload_after_logout s id vp :
  s.(storage) !! USER_STORAGE_KEY = Some (stringify (user_json id vp)) ->
  let s' := astep (astep s ALogout) AReload in
  (astep s ALogout).(user) = None /\
  s'.(user) = Some (user_json id vp) /\ truthy s'.(isAuthenticated) = false.
Proof.
  intros Hs s'. subst s'. destruct (logout_reload id vp s Hs) as [E1 E2].
  rewrite E1, E2. repeat split.
Qed.

(** The voice print survives the store: the stored entry, read back
    with [JSON.parse], has [voicePrint] equal to the registered payload,
    whatever characters it holds. *)
Lemma stored_voicePrint s id vp :
  (((snd (register id vp s)).(storage) !! USER_STORAGE_KEY ≫= parse) ≫= get "voicePrint") = Some (JStr vp).
Proof. rewrite (proj1 (register_storage id vp s)). cbn [mbind option_bind]. now rewrite parse_stringify. Qed.


(** C13: the mount effect's [JSON.parse] calls never throw on what the
    store has written: in every reachable state the user entry parses to
    a record [{id, voicePrint}] and the flag entry to a boolean, so the
    [catch] of lines 36-38 is unreachable. *)
Theorem stored_entries_parse s :
  areachable s ->
  (forall txt, s.(storage) !! USER_STORAGE_KEY = Some txt -> exists id vp, parse txt = Some (user_json id vp)) /\
  (forall txt, s.(storage) !! AUTH_STORAGE_KEY = Some txt -> exists b, parse txt = Some (JBool b)).
Proof.
  intros Hr. destruct (areachable_AInv s Hr) as [Hst (b & Hf) _ _ _]. split; intros txt Ht.
  - destruct Hst as [Hn | (id & vp & Hs)]; [congruence|].
    assert (E : txt = stringify (user_json id vp)) by congruence. subst txt.
    exists id, vp. apply parse_stringify.
  - destruct Hf as [Hn | Hf]; [congruence|].
    assert (E : txt = stringify (JBool b)) by congruence. subst txt.
    exists b. apply parse_stringify.
Qed.

(** ** Witnesses *)

Lemma session_invariant_witness :
  let s := astep (load (provider_init ∅)) (ALogin "p") in
  (exists b, s.(isAuthenticated) = JBool b) /\
  (truthy s.(isAuthenticated) = true -> exists id vp, s.(user) = Some (user_json id vp)) /\
  user_entry (s.(storage) !! USER_STORAGE_KEY).
Proof. apply session_invariant. apply areach_step, areach_init. Defined.

Lemma stored_entries_parse_witness :
  let s := astep (load (provider_init ∅)) (ARegister "alice" "P1") in
  (forall txt, s.(storage) !! USER_STORAGE_KEY = Some txt -> exists id vp, parse txt = Some (user_json id vp)) /\
  (forall txt, s.(storage) !! AUTH_STORAGE_KEY = Some txt -> exists b, parse txt = Some (JBool b)).
Proof. apply stored_entries_parse. apply areach_step, areach_init. Defined.

Lemma reload_after_logout_witness :
  let s := snd (register "alice" "data:audio/wav;base64," (provider_init ∅)) in
  let s' := astep (astep s ALogout) AReload in
  (astep s ALogout).(user) = None /\
  s'.(user) = Some (user_json "alice" "data:audio/wav;base64,") /\ truthy s'.(isAuthenticated) = false.
Proof. apply reload_after_logout. apply (proj1 (register_storage _ _ _)). Defined.

End Auth.
