(* ===== verification/Pages.v ===== *)
(** * The pages: login ([app/page.tsx]), registration
    ([app/register/page.tsx]) and the header's logout ([components/header.tsx])

    Each page keeps its React state ([audioData], [username],
    [isAuthenticating] / [isRegistering]) per mounted instance and calls
    the store through [useAuth()].  The handlers are [async]: the part
    before [await new Promise(... setTimeout ...)] runs on the click and
    suspends a continuation ([Pending]) with the [audioData] and
    [username] the closure captured; [fire] runs it when its timer
    fires, even if the page has been left meanwhile.  [router.push] and
    the pages' links change the route and mount the target page as a
    fresh instance; React drops the setters of an unmounted instance.

    Everything here is generic in the store: a [Section] over any
    [AuthApi] instance satisfying [AuthLaws], so the theorems hold for
    every store with the spec's contract, and [App] instantiates them
    with the mock of [auth-context.tsx]. *)

From Stdlib Require Import String List Bool Arith Lia.
From S2P Require Import Prelude Icons Store.
Import ListNotations.

Module Pages.

Inductive Route := RLogin | RRegister | RDashboard.

(** The toasts the pages raise, by title. *)
Inductive PageToast :=
| TAuthFailedNoAudio | TAuthOk | TAuthFailed
| TRegFailedMissing | TRegOk | TRegFailed.

(** Each mounted page is an instance, numbered in mount order: a
    continuation updates the state of its own instance only. *)
Record LoginPage := {
  lp_inst : nat;
  lp_audioData : option string;       (* useState<string | null>(null) *)
  lp_isAuthenticating : bool          (* useState(false) *)
}.

Record RegisterPage := {
  rp_inst : nat;
  rp_audioData : option string;
  rp_username : string;
  rp_isRegistering : bool
}.

Definition fresh_login (i : nat) : LoginPage :=
  {| lp_inst := i; lp_audioData := None; lp_isAuthenticating := false |}.
Definition fresh_register (i : nat) : RegisterPage :=
  {| rp_inst := i; rp_audioData := None; rp_username := ""; rp_isRegistering := false |}.

(** A handler suspended at its [await new Promise(... setTimeout ...)]:
    the page instance it belongs to and the values its closure captured.
    It runs when the timer fires, whether or not the page is still
    mounted. *)
Inductive Pending :=
| PLogin (inst : nat) (audioData : string)
| PRegister (inst : nat) (username audioData : string).

(** JavaScript truthiness of a [string | null]. *)
Definition truthy_str (o : option string) : bool :=
  match o with Some v => negb (String.eqb v "") | None => false end.

Definition route_eqb (a b : Route) : bool :=
  match a, b with
  | RLogin, RLogin | RRegister, RRegister | RDashboard, RDashboard => true
  | _, _ => false
  end.

(** [l] without its [n]-th element. *)
Definition remove_nth {A} (n : nat) (l : list A) : list A := firstn n l ++ skipn (S n) l.

Section Pages.
Context {S : Type} `{AuthLaws S}.

Record World := {
  store : S;
  route : Route;
  pushes : list Route;          (* router.push calls, in order *)
  toasts : list PageToast;
  login_page : LoginPage;       (* the last login page mounted *)
  register_page : RegisterPage; (* the last registration page mounted *)
  instances : nat;              (* pages mounted so far *)
  timers : list Pending         (* suspended handlers, in the order they were suspended *)
}.

Definition set_store st w := {| store := st; route := w.(route); pushes := w.(pushes); toasts := w.(toasts); login_page := w.(login_page); register_page := w.(register_page); instances := w.(instances); timers := w.(timers) |}.
Definition toast t w := {| store := w.(store); route := w.(route); pushes := w.(pushes); toasts := w.(toasts) ++ [t]; login_page := w.(login_page); register_page := w.(register_page); instances := w.(instances); timers := w.(timers) |}.
Definition set_login_page p w := {| store := w.(store); route := w.(route); pushes := w.(pushes); toasts := w.(toasts); login_page := p; register_page := w.(register_page); instances := w.(instances); timers := w.(timers) |}.
Definition set_register_page p w := {| store := w.(store); route := w.(route); pushes := w.(pushes); toasts := w.(toasts); login_page := w.(login_page); register_page := p; instances := w.(instances); timers := w.(timers) |}.
Definition set_timers ts w := {| store := w.(store); route := w.(route); pushes := w.(pushes); toasts := w.(toasts); login_page := w.(login_page); register_page := w.(register_page); instances := w.(instances); timers := ts |}.

(** [router.push(r)]: the target page mounts as a fresh instance. *)
Definition push (r : Route) (w : World) : World :=
  {| store := w.(store); route := r; pushes := w.(pushes) ++ [r]; toasts := w.(toasts);
     login_page := if r is RLogin then fresh_login w.(instances) else w.(login_page);
     register_page := if r is RRegister then fresh_register w.(instances) else w.(register_page);
     instances := Nat.succ w.(instances); timers := w.(timers) |}.

(** A state setter of login page instance [i]: React ignores it once
    that instance is unmounted. *)
Definition login_setState (i : nat) (p : LoginPage) (w : World) : World :=
  if route_eqb w.(route) RLogin && Nat.eqb w.(login_page).(lp_inst) i then set_login_page p w else w.

Definition register_setState (i : nat) (p : RegisterPage) (w : World) : World :=
  if route_eqb w.(route) RRegister && Nat.eqb w.(register_page).(rp_inst) i then set_register_page p w else w.

(** The login page's effect (lines 21-25): an authenticated session is
    sent to the dashboard. *)
Definition login_redirect (w : World) : World :=
  if route_eqb w.(route) RLogin && api_isAuthenticated w.(store) then push RDashboard w else w.

(** [handleLogin] up to the [await] (lines 27-39). *)
Definition handleLogin_click (w : World) : World :=
  let p := w.(login_page) in
  if negb (truthy_str p.(lp_audioData)) then toast TAuthFailedNoAudio w
  else match p.(lp_audioData) with
       | Some audio =>
           set_timers (w.(timers) ++ [PLogin p.(lp_inst) audio])
             (set_login_page {| lp_inst := p.(lp_inst); lp_audioData := p.(lp_audioData);
                                lp_isAuthenticating := true |} w)
       | None => w
       end.

(** The rest of [handleLogin] when its timer fires (lines 41-57). *)
Definition handleLogin_resume (i : nat) (audio : string) (w : World) : World :=
  let (success, st) := api_login audio w.(store) in
  let w1 := set_store st w in
  if success then push RDashboard (toast TAuthOk w1)
  else login_setState i {| lp_inst := i; lp_audioData := None; lp_isAuthenticating := false |}
         (toast TAuthFailed w1).

(** [disabled={isAuthenticating || !audioData}] (line 83). *)
Definition login_disabled (p : LoginPage) : bool :=
  p.(lp_isAuthenticating) || negb (truthy_str p.(lp_audioData)).

(** [handleRegister] up to the [await] (lines 24-36). *)
Definition handleRegister_click (w : World) : World :=
  let p := w.(register_page) in
  if negb (truthy_str p.(rp_audioData)) || String.eqb p.(rp_username) "" then toast TRegFailedMissing w
  else
    match p.(rp_audioData) with
    | Some audio =>
        set_timers (w.(timers) ++ [PRegister p.(rp_inst) p.(rp_username) audio])
          (set_register_page {| rp_inst := p.(rp_inst); rp_audioData := p.(rp_audioData);
                                rp_username := p.(rp_username); rp_isRegistering := true |} w)
    | None => w
    end.

(** The rest of [handleRegister] (lines 38-53). *)
Definition handleRegister_resume (i : nat) (username audio : string) (w : World) : World :=
  let (success, st) := api_register username audio w.(store) in
  let w1 := set_store st w in
  if success then push RLogin (toast TRegOk w1)
  else let p := w1.(register_page) in
       register_setState i {| rp_inst := i; rp_audioData := p.(rp_audioData); rp_username := p.(rp_username);
                              rp_isRegistering := false |} (toast TRegFailed w1).

(** [disabled={isRegistering || !audioData || !username}] (line 95). *)
Definition register_disabled (p : RegisterPage) : bool :=
  p.(rp_isRegistering) || negb (truthy_str p.(rp_audioData)) || String.eqb p.(rp_username) "".

(** A suspended handler resumes. *)
Definition resume (k : Pending) (w : World) : World :=
  match k with
  | PLogin i audio => handleLogin_resume i audio w
  | PRegister i u audio => handleRegister_resume i u audio w
  end.

(** The [n]-th suspended handler's timer fires. *)
Definition fire (n : nat) (w : World) : World :=
  match nth_error w.(timers) n with
  | Some k => resume k (set_timers (remove_nth n w.(timers)) w)
  | None => w
  end.

(** [handleLogout] (header.tsx, lines 13-16). *)
Definition handleLogout (w : World) : World := push RLogin (set_store (api_logout w.(store)) w).

(** The recorder's [onRecordingComplete={setAudioData}] on each page. *)
Definition login_recorded (uri : string) (w : World) : World :=
  let p := w.(login_page) in
  login_setState p.(lp_inst) {| lp_inst := p.(lp_inst); lp_audioData := Some uri;
                                lp_isAuthenticating := p.(lp_isAuthenticating) |} w.

Definition register_recorded (uri : string) (w : World) : World :=
  let p := w.(register_page) in
  register_setState p.(rp_inst) {| rp_inst := p.(rp_inst); rp_audioData := Some uri; rp_username := p.(rp_username);
                                   rp_isRegistering := p.(rp_isRegistering) |} w.

(** The username input's [onChange] (line 81). *)
Definition type_username (u : string) (w : World) : World :=
  let p := w.(register_page) in
  register_setState p.(rp_inst) {| rp_inst := p.(rp_inst); rp_audioData := p.(rp_audioData); rp_username := u;
                                   rp_isRegistering := p.(rp_isRegistering) |} w.

(** The pages' buttons: a press on a disabled button does nothing. *)
Definition press_login (w : World) : World :=
  if route_eqb w.(route) RLogin && negb (login_disabled w.(login_page)) then handleLogin_click w else w.

Definition press_register (w : World) : World :=
  if route_eqb w.(route) RRegister && negb (register_disabled w.(register_page)) then handleRegister_click w else w.

(** The links under each card: [<Link href="/register">] (line 90 of the
    login page) and [<Link href="/">] (line 102 of the registration page). *)
Definition follow_link (w : World) : World :=
  match w.(route) with
  | RLogin => push RRegister w
  | RRegister => push RLogin w
  | RDashboard => w
  end.

(** What a page's button shows: the spinner or its label (line 86 of the
    login page, line 98 of the registration page). *)
Inductive ButtonBody := Spinner | Label (text : string).

Record PageView := {
  pv_logo : Icons.SvgElement;
  pv_title : string;
  pv_button : ButtonBody;
  pv_disabled : bool;
  pv_link : string;
  pv_href : Route
}.

(** The login page's markup (lines 60-97). *)
Definition login_view (p : LoginPage) : PageView :=
  {| pv_logo := Icons.VoiceKeyLogo [("className", "h-16 w-16 text-primary")%string];
     pv_title := "Welcome to VoiceKey";
     pv_button := if p.(lp_isAuthenticating) then Spinner else Label "Authenticate";
     pv_disabled := login_disabled p;
     pv_link := "Register here"; pv_href := RRegister |}.

(** The registration page's markup (lines 56-109). *)
Definition register_view (p : RegisterPage) : PageView :=
  {| pv_logo := Icons.VoiceKeyLogo [("className", "h-16 w-16 text-primary")%string];
     pv_title := "Create Your VoiceKey";
     pv_button := if p.(rp_isRegistering) then Spinner else Label "Create VoiceKey";
     pv_disabled := register_disabled p;
     pv_link := "Login here"; pv_href := RLogin |}.

(** ** Lemmas *)

Lemma remove_nth_last {A} (l : list A) x : remove_nth (List.length l) (l ++ [x]) = l.
Proof.
  unfold remove_nth. rewrite firstn_app, Nat.sub_diag, firstn_all, firstn_O, app_nil_r.
  rewrite (skipn_all2 (l ++ [x])) by (rewrite length_app; cbn; lia). apply app_nil_r.
Qed.

Lemma set_timers_same w : set_timers w.(timers) w = w.
Proof. now destruct w. Qed.

(** The timer of the handler suspended last fires. *)
Lemma fire_last k w :
  fire (List.length w.(timers)) (set_timers (w.(timers) ++ [k]) w) = resume k w.
Proof.
  unfold fire. cbn [timers set_timers]. rewrite nth_error_app2, Nat.sub_diag by lia. cbn [nth_error].
  rewrite remove_nth_last. f_equal. now destruct w.
Qed.

(** A press of "Create VoiceKey" with a username and a recording, then
    its timer: [register] is called with the values the press captured. *)
Lemma register_click_fire w a :
  w.(register_page).(rp_audioData) = Some a -> a <> ""%string -> w.(register_page).(rp_username) <> ""%string ->
  fire (List.length w.(timers)) (handleRegister_click w) =
  handleRegister_resume w.(register_page).(rp_inst) w.(register_page).(rp_username) a
    (set_register_page {| rp_inst := w.(register_page).(rp_inst); rp_audioData := Some a;
                          rp_username := w.(register_page).(rp_username); rp_isRegistering := true |} w).
Proof.
  intros Ha Hne Hu. apply String.eqb_neq in Hne, Hu. unfold handleRegister_click.
  rewrite Ha. cbn [truthy_str negb orb]. rewrite Hne, Hu. cbn [negb orb].
  exact (fire_last (PRegister _ _ a) _).
Qed.

Lemma login_click_fire w a :
  w.(login_page).(lp_audioData) = Some a -> a <> ""%string ->
  fire (List.length w.(timers)) (handleLogin_click w) =
  handleLogin_resume w.(login_page).(lp_inst) a
    (set_login_page {| lp_inst := w.(login_page).(lp_inst); lp_audioData := Some a;
                       lp_isAuthenticating := true |} w).
Proof.
  intros Ha Hne. apply String.eqb_neq in Hne. unfold handleLogin_click.
  rewrite Ha. cbn [truthy_str negb]. rewrite Hne. cbn [negb].
  exact (fire_last (PLogin _ a) _).
Qed.

(** Filling in the mounted registration form: the username typed and the
    recording set, nothing else changed. *)
Lemma register_form w u a :
  w.(route) = RRegister ->
  let w0 := register_recorded a (type_username u w) in
  w0.(register_page).(rp_audioData) = Some a /\ w0.(register_page).(rp_username) = u /\
  w0.(timers) = w.(timers) /\ w0.(store) = w.(store).
Proof.
  intros Hr w0. unfold w0, register_recorded, type_username, register_setState.
  rewrite Hr, Nat.eqb_refl. cbn. rewrite Hr, Nat.eqb_refl. cbn. auto.
Qed.

(** The recorder's output set on the mounted login page. *)
Lemma login_form w a :
  w.(route) = RLogin ->
  let w0 := login_recorded a w in
  w0.(login_page).(lp_audioData) = Some a /\ w0.(route) = RLogin /\
  w0.(timers) = w.(timers) /\ w0.(store) = w.(store) /\ w0.(toasts) = w.(toasts).
Proof.
  intros Hr w0. unfold w0, login_recorded, login_setState. rewrite Hr, Nat.eqb_refl. cbn. auto.
Qed.

(** ** Properties, for every store with the spec's contract *)

(** C16: spec §8, sixth scenario, through the pages: on the registration
    page, type a username, record [p1], press "Create VoiceKey" and let
    the timer fire; the page sends the user to the login page.  There,
    record any [p2], press "Authenticate" and let the timer fire: the
    user lands on the dashboard, authenticated. *)
Theorem register_then_login_flow w u p1 p2 :
  w.(route) = RRegister -> u <> ""%string -> p1 <> ""%string -> p2 <> ""%string ->
  let w1 := fire (List.length w.(timers)) (handleRegister_click (register_recorded p1 (type_username u w))) in
  let w2 := fire (List.length w1.(timers)) (handleLogin_click (login_recorded p2 w1)) in
  w1.(route) = RLogin /\ w2.(route) = RDashboard /\ api_isAuthenticated w2.(store) = true.
Proof.
  intros Hr Hu Hp1 Hp2 w1 w2.
  destruct (register_form w u p1 Hr) as (Ea & Eu & Et & Es).
  set (w0 := register_recorded p1 (type_username u w)) in *.
  assert (Hw1 : exists x, w1 = push RLogin (toast TRegOk (set_store (snd (api_register u p1 w.(store))) x))
                          /\ x.(timers) = w.(timers)).
  { unfold w1. fold w0. rewrite <- Et, (register_click_fire w0 p1 Ea Hp1) by congruence.
    unfold handleRegister_resume. cbn [store set_register_page]. rewrite Es, Eu.
    rewrite (surjective_pairing (api_register u p1 _)), law_register_ok. eexists; split; [reflexivity|].
    cbn. reflexivity. }
  destruct Hw1 as (x & Hw1 & Hx).
  destruct (login_form w1 p2 ltac:(now rewrite Hw1)) as (Ea1 & _ & Et1 & Es1 & _).
  set (w1' := login_recorded p2 w1) in *.
  assert (Hw2 : w2 = push RDashboard (toast TAuthOk (set_store (snd (api_login p2 w1.(store)))
                  (set_login_page {| lp_inst := w1'.(login_page).(lp_inst); lp_audioData := Some p2;
                                     lp_isAuthenticating := true |} w1')))).
  { unfold w2. fold w1'. rewrite <- Et1, (login_click_fire w1' p2 Ea1 Hp2).
    unfold handleLogin_resume. cbn [store set_login_page]. rewrite Es1.
    rewrite (surjective_pairing (api_login p2 _)).
    replace (fst (api_login p2 _)) with true; [reflexivity|].
    symmetry. rewrite Hw1. cbn. apply law_register_login. }
  split; [now rewrite Hw1|]. split; [now rewrite Hw2|].
  rewrite Hw2. cbn. apply law_login_authenticates. rewrite Hw1. cbn. apply law_register_login.
Qed.

(** A suspended login outlives its page: press "Authenticate", follow
    the "Register here" link before the timer fires, and the timer still
    calls [login] and, when it succeeds, sends the user to the dashboard
    from the registration page. *)
Lemma login_after_leaving w a :
  w.(route) = RLogin -> w.(login_page).(lp_audioData) = Some a -> a <> ""%string ->
  fst (api_login a w.(store)) = true ->
  let w' := fire (List.length w.(timers)) (follow_link (handleLogin_click w)) in
  w'.(route) = RDashboard /\ w'.(pushes) = w.(pushes) ++ [RRegister; RDashboard].
Proof.
  intros Hr Ha Hne Hl w'. apply String.eqb_neq in Hne. unfold w', handleLogin_click.
  rewrite Ha. cbn [truthy_str negb]. rewrite Hne. cbn [negb follow_link].
  unfold follow_link. cbn [route set_timers set_login_page]. rewrite Hr.
  change (push RRegister (set_timers ?ts ?x)) with (set_timers ts (push RRegister x)).
  match goal with |- context [set_timers _ (push RRegister ?x)] =>
    pose proof (fire_last (PLogin (lp_inst (login_page w)) a) (push RRegister x)) as E end.
  cbn [timers push set_login_page] in E. rewrite E. cbn [resume]. unfold handleLogin_resume.
  cbn [store push set_login_page]. rewrite (surjective_pairing (api_login a _)), Hl.
  cbn. now rewrite <- app_assoc.
Qed.

(** C22: the header's logout returns to the login page unauthenticated,
    and the login page's redirect effect keeps the user there. *)
Theorem logout_stays_on_login w :
  let w' := handleLogout w in
  w'.(route) = RLogin /\ api_isAuthenticated w'.(store) = false /\ login_redirect w' = w'.
Proof.
  cbn. rewrite law_logout. repeat split. unfold login_redirect. cbn. now rewrite law_logout.
Qed.

End Pages.
End Pages.
