(* ===== verification/RecorderUI.v ===== *)
(** * The recorder's rendering and its visualiser child
    ([components/voice-recorder.tsx], lines 108-139)

    The recorder renders a panel and a button.  The panel holds the
    [WaveformVisualizer] while [status === 'recording' && analyserNode]
    (line 128), with [isRecording={status === 'recording'}], and a
    message otherwise (line 132); the button's label is
    [getButtonContent()] (lines 108-123).

    The two components run together: after each recorder event React
    commits the recorder ([Recorder.step]) and reconciles the panel, which
    mounts the visualiser, re-renders it with new props, or unmounts it
    ([reconcile]).  The browser's animation frames run the visualiser's
    loop ([WaveLoop.frame]).  [UI] is the pair of states, [ustep] its
    events.  The analyser the recorder creates is the context's
    [AnalyserNode] with [fftSize = 2048] (line 49), so it has
    [Waveform.frequencyBinCount] bins. *)

From Stdlib Require Import String List Bool.
From S2P Require Import Prelude Waveform WaveLoop Recorder.
Import ListNotations.

Module RecorderUI.
Import Waveform WaveLoop Recorder.
#[local] Open Scope string_scope.

(** ** Rendering *)

(** The five labels of [getButtonContent] (lines 108-123); its [default]
    case cannot be reached, [status] being one of the five values. *)
Inductive ButtonContent :=
| ContentStart | ContentRequesting | ContentStop | ContentProcessing | ContentAgain.

Definition getButtonContent (st : RecordingStatus) : ButtonContent :=
  match st with
  | Idle => ContentStart
  | Permission => ContentRequesting
  | Recording => ContentStop
  | Processing => ContentProcessing
  | Finished => ContentAgain
  end.

Definition button_text (c : ButtonContent) : string :=
  match c with
  | ContentStart => "Start Recording"
  | ContentRequesting => "Requesting Mic"
  | ContentStop => "Stop Recording"
  | ContentProcessing => "Processing..."
  | ContentAgain => "Record Again"
  end.

(** The analyser of AudioContext [c], as the visualiser receives it. *)
Definition analyser_of (c : nat) : Analyser := {| an_id := c; an_bins := frequencyBinCount |}.

Definition passphrase_msg : string := "Recite the passphrase: 'My voice is my password'".
Definition complete_msg : string := "Recording complete!".

(** The panel (lines 127-134). *)
Inductive Panel :=
| PVisualiser (an : Analyser) (isRecording : bool)
| PMessage (text : string).

Definition panel (s : RecState) : Panel :=
  match s.(status), s.(analyserNode) with
  | Recording, Some c => PVisualiser (analyser_of c) (status_eqb s.(status) Recording)
  | st, _ => PMessage (if status_eqb st Finished then complete_msg else passphrase_msg)
  end.

(** The recorder's markup (lines 125-139): the panel, and the button
    with its label and [disabled] flag. *)
Record RecorderView := { rv_panel : Panel; rv_button : ButtonContent; rv_disabled : bool }.

Definition VoiceRecorder_view (s : RecState) : RecorderView :=
  {| rv_panel := panel s; rv_button := getButtonContent s.(status); rv_disabled := button_disabled s |}.

(** ** The recorder with its visualiser *)

Record UI := { rec : RecState; vis : WState }.

(** React's reconciliation of the panel after a recorder commit: the
    visualiser stays mounted (and re-renders with its new props) while the
    mounted recorder shows it, mounts when it appears, and unmounts when
    the panel shows the message or the recorder is unmounted.  A fresh
    visualiser takes its animation-frame ids from the browser's counter. *)
Definition reconcile (snap : list Byte.byte) (s : RecState) (v : WState) : WState :=
  match (if s.(mounted) then Some (panel s) else None) with
  | Some (PVisualiser an r) =>
      if v.(w_mounted) then WaveLoop.render r (Some an) snap v
      else WaveLoop.mount r (Some an) snap v.(raf_next)
  | _ => WaveLoop.unmount v
  end.

(** Events: a recorder event, with the frequency data the visualiser's
    effect reads if it runs in this commit, and an animation frame. *)
Inductive UEvent :=
| URec (e : Recorder.Event) (snap : list Byte.byte)
| UFrame (snap : list Byte.byte).

Definition ustep (u : UI) (e : UEvent) : UI :=
  match e with
  | URec e snap => let r := Recorder.step u.(rec) e in {| rec := r; vis := reconcile snap r u.(vis) |}
  | UFrame snap => {| rec := u.(rec); vis := WaveLoop.frame snap u.(vis) |}
  end.

(** No visualiser has been mounted yet. *)
Definition vis_init : WState :=
  {| w_mounted := false; WaveLoop.isRecording := false; WaveLoop.analyserNode := None;
     eff_deps := (false, None); eff_has_cleanup := false; pathD := [];
     animationFrameIdRef := 0; raf_next := 0; raf_pending := [] |}.

Definition ui_init (media : bool) : UI := {| rec := init media; vis := vis_init |}.

Inductive ui_reachable : UI -> Prop :=
| ureach_init m : ui_reachable (ui_init m)
| ureach_step u e : ui_reachable u -> ui_reachable (ustep u e).

(** The visualiser is mounted only as the mounted recorder's panel, with
    the props the panel gives it. *)
Definition vis_ok (u : UI) : Prop :=
  u.(vis).(w_mounted) = true ->
  u.(rec).(mounted) = true /\
  exists an, panel u.(rec) = PVisualiser an u.(vis).(WaveLoop.isRecording) /\
             u.(vis).(WaveLoop.analyserNode) = Some an.

Record UInv (u : UI) : Prop := {
  uinv_rec : reachable u.(rec);
  uinv_vis : WInv u.(vis);
  uinv_ok : vis_ok u
}.

(** The start of a recording, used by the witnesses: the user presses
    "Start Recording", then the microphone is granted. *)
Definition demo_ui_click : UI := ustep (ui_init true) (URec Click []).
Definition demo_ui_rec : UI := ustep demo_ui_click (URec (PermissionSettled true) []).

(** ** Lemmas *)

Lemma panel_visualiser s an r :
  panel s = PVisualiser an r ->
  s.(status) = Recording /\ r = true /\ exists c, s.(Recorder.analyserNode) = Some c /\ an = analyser_of c.
Proof.
  unfold panel. destruct (status s), (Recorder.analyserNode s) as [c|]; try discriminate.
  intros H. injection H as <- <-. eauto.
Qed.

Lemma panel_no_analyser s :
  s.(Recorder.analyserNode) = None ->
  panel s = PMessage (if status_eqb s.(status) Finished then complete_msg else passphrase_msg).
Proof. intros Ha. unfold panel. rewrite Ha. now destruct (status s). Qed.

Lemma WInv_reconcile snap r v : WInv v -> WInv (reconcile snap r v).
Proof.
  intros HW. unfold reconcile.
  destruct (mounted r); [destruct (panel r) as [an b|t]; [destruct (w_mounted v)|]|].
  all: auto using WInv_render, WInv_mount, WInv_unmount.
Qed.

Lemma vis_ok_reconcile snap r v : vis_ok {| rec := r; vis := reconcile snap r v |}.
Proof.
  unfold vis_ok, reconcile. cbn [rec vis].
  destruct (mounted r) eqn:Hm; [|rewrite unmount_not_mounted; discriminate].
  destruct (panel r) as [an b|t] eqn:Hp; [|rewrite unmount_not_mounted; discriminate].
  intros _. split; [reflexivity|]. exists an.
  assert (E : props (if w_mounted v then WaveLoop.render b (Some an) snap v
                     else mount b (Some an) snap (raf_next v)) = (true, b, Some an)).
  { destruct (w_mounted v) eqn:Hv; [rewrite render_props_eq, Hv | rewrite mount_props]; reflexivity. }
  unfold props in E. injection E as _ -> ->. auto.
Qed.

Lemma vis_ok_frame snap u : vis_ok u -> vis_ok {| rec := u.(rec); vis := frame snap u.(vis) |}.
Proof.
  unfold vis_ok. cbn [rec vis]. pose proof (frame_props snap (vis u)) as E. unfold props in E.
  injection E as -> -> ->. auto.
Qed.

Lemma ui_reachable_UInv u : ui_reachable u -> UInv u.
Proof.
  induction 1 as [m | u [e snap|snap] Hr [Hrec HW Hok]]; cbn [ustep].
  - constructor; [apply reach_init | constructor; cbn; auto | discriminate].
  - constructor; cbn [rec vis]; auto using reach_step, WInv_reconcile, vis_ok_reconcile.
  - constructor; cbn [rec vis]; auto using WInv_frame, vis_ok_frame.
Qed.

(** A mounted visualiser with a recording analyser has exactly one frame
    scheduled, drawing from that analyser. *)
Lemma WInv_live v an :
  WInv v -> v.(w_mounted) = true -> v.(WaveLoop.isRecording) = true -> v.(WaveLoop.analyserNode) = Some an ->
  exists cb, v.(raf_pending) = [(v.(animationFrameIdRef), cb)] /\ cb.(d_an) = an.
Proof.
  intros [Hd Hc Hp] Hm Hi Ha. rewrite Hm, Hc, Hd, Hi, Ha in Hp by exact Hm. cbn in Hp.
  destruct Hp as (cb & Hq & _ & Hdeps & _). rewrite Hd, Hi, Ha in Hdeps by exact Hm.
  injection Hdeps as Hcb. eauto.
Qed.

(** A scheduled frame belongs to a mounted visualiser with a recording
    analyser. *)
Lemma WInv_scheduled v :
  WInv v -> v.(raf_pending) <> [] ->
  v.(w_mounted) = true /\ v.(WaveLoop.isRecording) = true /\ exists an, v.(WaveLoop.analyserNode) = Some an.
Proof.
  intros HW Hp. pose proof HW as [Hd Hc Hq].
  destruct (w_mounted v) eqn:Hm; [|exfalso; exact (Hp Hq)].
  rewrite Hc, Hd in Hq by reflexivity. cbn [andb fst snd] in Hq.
  destruct (WaveLoop.isRecording v), (WaveLoop.analyserNode v) as [an|]; cbn in Hq; try (exfalso; exact (Hp Hq)).
  eauto.
Qed.

(** A granted permission starts the recording on a fresh AudioContext,
    whose analyser the component then holds. *)
Lemma grant_recording s :
  Inv s -> s.(mounted) = true -> s.(perm_pending) = true ->
  (step s (PermissionSettled true)).(status) = Recording /\
  (step s (PermissionSettled true)).(Recorder.analyserNode) = Some (List.length s.(contexts)).
Proof.
  intros HI Hm Hpp. destruct (pending_phase s HI Hm Hpp) as (_ & Hs & He & _).
  unfold step, handle, permissionSettled, startRecording, commit, stream_effect_cleanup,
    close_if_open, stop_stream, setStatus, setStream, setAnalyserNode, react_set.
  destruct s as [ms mo st str an mrr ch cr es sl cs pp rd cp ts cl gc]; cbn in *; subst.
  split_ifs; auto.
Qed.

(** In a reachable recorder, the analyser held while recording belongs to
    the context in [audioContextRef], which is closed. *)
Lemma recording_analyser_closed s c :
  reachable s -> s.(mounted) = true -> s.(status) = Recording -> s.(Recorder.analyserNode) = Some c ->
  s.(audioContextRef) = Some c /\ ctx_closed s c = true.
Proof.
  intros Hr Hm Hst Ha. destruct (inv_phase s (reachable_Inv s Hr) Hm) as [_ Hph]. unfold phase in Hph.
  rewrite Hst in Hph. destruct Hph as (_ & _ & _ & (c' & Hc' & Hcl & [Ha'|Ha'])); [congruence|].
  rewrite Ha in Ha'. injection Ha' as <-. auto.
Qed.

(** ** Properties of the recorder with its visualiser *)

(** C33: an animation frame is scheduled only while the recorder is
    mounted and recording: the one scheduled callback is the live one and
    it draws from the analyser of the AudioContext the recorder holds
    (spec §4.3: the loop runs while recording, and only then). *)
Theorem frames_only_while_recording u :
  ui_reachable u -> u.(vis).(raf_pending) <> [] ->
  u.(rec).(mounted) = true /\ u.(rec).(status) = Recording /\
  exists c cb, u.(rec).(Recorder.analyserNode) = Some c /\
               u.(vis).(raf_pending) = [(u.(vis).(animationFrameIdRef), cb)] /\ cb.(d_an) = analyser_of c.
Proof.
  intros Hr Hp. destruct (ui_reachable_UInv u Hr) as [_ HW Hok].
  destruct (WInv_scheduled _ HW Hp) as (Hm & Hi & an & Ha).
  destruct (Hok Hm) as (Hrm & an' & Hpan & Ha'). rewrite Ha in Ha'. injection Ha' as <-.
  destruct (panel_visualiser _ _ _ Hpan) as (Hst & _ & c & Hc & ->).
  destruct (WInv_live _ _ HW Hm Hi Ha) as (cb & Hq & Hcb). eauto 7.
Qed.

(** C34: when the microphone is granted, the same commit mounts the
    visualiser on the new analyser and schedules its first frame, and
    the AudioContext of that analyser is already closed (the [stream]
    effect's cleanup closed it, lines 99-106): the waveform is drawn from
    a closed context for the whole recording. *)
Theorem recording_start_draws_closed_context u snap :
  ui_reachable u -> u.(rec).(mounted) = true -> u.(rec).(perm_pending) = true ->
  let u' := ustep u (URec (PermissionSettled true) snap) in
  exists c cb, u'.(rec).(Recorder.analyserNode) = Some c /\ panel u'.(rec) = PVisualiser (analyser_of c) true /\
               u'.(vis).(raf_pending) = [(u'.(vis).(animationFrameIdRef), cb)] /\ cb.(d_an) = analyser_of c /\
               ctx_closed u'.(rec) c = true.
Proof.
  intros Hr Hm Hpp u'. destruct (ui_reachable_UInv u Hr) as [Hrec HW Hok].
  pose proof (reachable_Inv _ Hrec) as HI.
  destruct (grant_fields _ HI Hm Hpp) as (Hm' & _).
  destruct (grant_recording _ HI Hm Hpp) as (Hst & Ha).
  set (c := List.length (contexts (rec u))) in Ha.
  assert (Hpan : panel (step (rec u) (PermissionSettled true)) = PVisualiser (analyser_of c) true)
    by (unfold panel; now rewrite Hst, Ha).
  assert (Hv : w_mounted (vis u) = false).
  { destruct (w_mounted (vis u)) eqn:Hv; [|reflexivity]. destruct (Hok Hv) as (_ & an & Hp & _).
    destruct (panel_visualiser _ _ _ Hp) as (Hs & _).
    destruct (pending_phase _ HI Hm Hpp) as (Hs' & _). congruence. }
  assert (Hvis : vis u' = mount true (Some (analyser_of c)) snap (raf_next (vis u))).
  { cbn [u' ustep vis]. unfold reconcile. now rewrite Hm', Hpan, Hv. }
  pose proof (mount_props true (Some (analyser_of c)) snap (raf_next (vis u))) as E.
  rewrite <- Hvis in E. unfold props in E. injection E as E1 E2 E3.
  destruct (WInv_live _ _ (WInv_reconcile snap _ _ HW) E1 E2 E3) as (cb & Hq & Hcb).
  exists c, cb. split; [exact Ha | split; [exact Hpan | split; [exact Hq | split; [exact Hcb|]]]].
  apply (recording_analyser_closed _ _ (reach_step _ _ Hrec) Hm' Hst Ha).
Qed.

(** C35: pressing "Stop Recording" unmounts the visualiser in the same
    commit: its cleanup cancels the scheduled frame, and no later frame
    draws (spec §5).  Until the recorder's [stop] event arrives the status
    stays [recording]: the button still reads "Stop Recording" while the
    panel shows the passphrase prompt again. *)
Theorem stop_click_cancels_frame u snap snaps :
  ui_reachable u -> u.(rec).(mounted) = true -> u.(rec).(status) = Recording ->
  let u' := ustep u (URec Click snap) in
  u'.(vis).(raf_pending) = [] /\ u'.(vis).(w_mounted) = false /\
  run ustep u' (map UFrame snaps) = u' /\
  panel u'.(rec) = PMessage passphrase_msg /\
  button_text (getButtonContent u'.(rec).(status)) = "Stop Recording".
Proof.
  intros Hr Hm Hst u'. destruct (ui_reachable_UInv u Hr) as [Hrec HW Hok].
  pose proof (reachable_Inv _ Hrec) as HI. pose proof (inv_phase _ HI Hm) as [_ Hph].
  unfold phase in Hph. rewrite Hst in Hph. destruct Hph as (_ & _ & (mr & Emr & _) & (c & Ec & _)).
  destruct (stop_click_fields _ mr c HI Hm Hst Emr Ec) as (Hm' & Hst' & _ & Ha' & _).
  assert (Hpan : panel (rec u') = PMessage passphrase_msg)
    by (cbn [u' ustep rec]; rewrite panel_no_analyser, Hst' by exact Ha'; reflexivity).
  assert (Hv : vis u' = WaveLoop.unmount (vis u)).
  { cbn [u' ustep vis rec] in *. unfold reconcile. now rewrite Hm', Hpan. }
  assert (Hq : raf_pending (vis u') = []).
  { rewrite Hv. pose proof (WInv_unmount _ HW) as [_ _ Hp]. rewrite unmount_not_mounted in Hp. exact Hp. }
  split; [exact Hq | split; [rewrite Hv; apply unmount_not_mounted | split]].
  - clearbody u'. induction snaps as [|d snaps IH]; [reflexivity|].
    cbn [map run ustep]. rewrite frame_idle by exact Hq. destruct u'; exact IH.
  - split; [exact Hpan|]. cbn [u' ustep rec]. now rewrite Hst'.
Qed.

(** ** Witnesses *)

Lemma frames_only_while_recording_witness :
  demo_ui_rec.(rec).(mounted) = true /\ demo_ui_rec.(rec).(status) = Recording /\
  exists c cb, demo_ui_rec.(rec).(Recorder.analyserNode) = Some c /\
               demo_ui_rec.(vis).(raf_pending) = [(demo_ui_rec.(vis).(animationFrameIdRef), cb)] /\
               cb.(d_an) = analyser_of c.
Proof.
  apply frames_only_while_recording; [apply ureach_step, ureach_step, ureach_init|].
  vm_compute. discriminate.
Defined.

Lemma recording_start_draws_closed_context_witness :
  let u' := ustep demo_ui_click (URec (PermissionSettled true) []) in
  exists c cb, u'.(rec).(Recorder.analyserNode) = Some c /\ panel u'.(rec) = PVisualiser (analyser_of c) true /\
               u'.(vis).(raf_pending) = [(u'.(vis).(animationFrameIdRef), cb)] /\ cb.(d_an) = analyser_of c /\
               ctx_closed u'.(rec) c = true.
Proof.
  apply recording_start_draws_closed_context; [apply ureach_step, ureach_init | vm_compute; reflexivity ..].
Defined.

Lemma stop_click_cancels_frame_witness :
  let u' := ustep demo_ui_rec (URec Click []) in
  u'.(vis).(raf_pending) = [] /\ u'.(vis).(w_mounted) = false /\
  run ustep u' (map UFrame [[Byte.x80]]) = u' /\
  panel u'.(rec) = PMessage passphrase_msg /\
  button_text (getButtonContent u'.(rec).(status)) = "Stop Recording".
Proof.
  apply stop_click_cancels_frame; [apply ureach_step, ureach_step, ureach_init | vm_compute; reflexivity ..].
Defined.

End RecorderUI.
