(* ===== verification/Analysis.v ===== *)
(** * The AI security analysis ([lib/actions.ts],
    [ai/flows/enhance-voice-print-security.ts],
    [components/security-analysis.tsx])

    The remote model is opaque: what it answers is an input of the model
    ([RemoteAnswer]): an output object, no output, or a thrown value.
    The flow validates its input against the input schema, renders the
    prompt on it (the request the model receives), then returns
    the prompt's output as Genkit gives it: validated against the JSON
    Schema of the output schema and otherwise unchanged.  An output
    that fails that check makes the prompt call throw (a
    [ThrowsError] answer), and a missing output makes the flow's own
    output check throw a validation [Error];
    [analyzeSecurity] turns a rejection into the error result; the
    dashboard card calls it and renders the assessment.  The card's
    state is [isLoading], [analysisResult] and its toasts; its handler
    is split at the [await] as the pages' are. *)

From Stdlib Require Import String Ascii List Bool.
From S2P Require Import Prelude Json.
Import ListNotations.
#[local] Open Scope string_scope.

Module Analysis.
Import Json.

(** The assessment object as the model may produce it. *)
Record Assessment := {
  isSecure : bool;
  threatLevel : string;
  anomaliesDetected : list string;
  recommendedActions : list string;
  voiceWordCloud : option string
}.

(** What the call to the remote model gives. *)
Inductive RemoteAnswer :=
| Answered (output : option Assessment)   (* the response, with or without an output *)
| ThrowsError (message : string)          (* rejects with an [Error] *)
| ThrowsOther.                            (* rejects with a non-Error value *)

(** [EnhanceVoicePrintSecurityInputSchema] (lines 16-23): both fields
    must be strings; the flow parses its input with it before calling the
    prompt, and a mismatch throws a [ZodError], which is an [Error]. *)
Definition input_schema (input : json * option json) : bool :=
  match input with
  | (JStr _, Some (JStr _)) => true
  | _ => false
  end.

(** [enhanceVoicePrintSecurityFlow] (lines 69-79): the input is
    validated, the prompt is called, and [output!] is returned unchanged.
    When the model gave no output, [output!] is [null], which the flow's
    [outputSchema] check rejects with a validation error (an [Error]). *)
Inductive FlowResult :=
| FlowReturns (data : Assessment)
| FlowThrows (error_is_Error : bool) (message : string).

Definition enhanceVoicePrintSecurityFlow (input : json * option json) (r : RemoteAnswer) : FlowResult :=
  if negb (input_schema input) then FlowThrows true "ZodError" else
  match r with
  | Answered (Some a) => FlowReturns a
  | Answered None => FlowThrows true "ValidationError"
  | ThrowsError m => FlowThrows true m
  | ThrowsOther => FlowThrows false ""
  end.

(** The exported [enhanceVoicePrintSecurity] (lines 44-48) returns the
    flow's result. *)
Definition enhanceVoicePrintSecurity (input : json * option json) (r : RemoteAnswer) : FlowResult :=
  enhanceVoicePrintSecurityFlow input r.

(** ** The prompt sent to the model *)

(** A part of the rendered prompt: text, or a media reference
    ([{{media url=...}}]). *)
Inductive Part := TextPart (text : string) | MediaPart (url : string).

Definition nl : string := String (ascii_of_nat 10) EmptyString.

Definition prompt_head : string :=
  "You are an AI-powered security analyst specializing in voice biometrics." ++ nl ++ nl ++
  "You will analyze the provided voice print for anomalies, potential threats like voice cloning or mimicking, and overall security." ++ nl ++ nl ++
  "Based on your analysis, you will provide a security assessment, including the overall security status (isSecure), threat level, any detected anomalies, and recommended actions to enhance security." ++ nl ++ nl ++
  "Voice Print: ".

Definition prompt_tail (userId schema : string) : string :=
  nl ++ "User ID: " ++ userId ++ nl ++ nl ++
  "Consider factors such as voice consistency, unusual patterns, and indicators of synthetic voice generation." ++ nl ++ nl ++
  "Format your response as a JSON object conforming to the following schema:" ++ nl ++ schema.

(** [enhanceVoicePrintSecurityPrompt] (lines 50-67) rendered on an input:
    the template's text, the voice print as a media part, and the user id
    inserted unescaped ([{{{userId}}}]).  [schema] is the text of
    [JSON.stringify(EnhanceVoicePrintSecurityOutputSchema.shape, null, 2)],
    computed by zod and taken as given. *)
Definition enhanceVoicePrintSecurityPrompt (schema voicePrintDataUri userId : string) : list Part :=
  [TextPart prompt_head; MediaPart voicePrintDataUri; TextPart (prompt_tail userId schema)].

(** What the flow sends to the model for an input (lines 75-76): the
    rendered prompt once the input has passed the input schema, nothing
    otherwise. *)
Definition prompt_request (schema : string) (input : json * option json) : option (list Part) :=
  match input with
  | (JStr vp, Some (JStr uid)) => Some (enhanceVoicePrintSecurityPrompt schema vp uid)
  | _ => None
  end.

Record ActionResult := { success : bool; data : option Assessment; error : option string }.

Definition unavailable_msg : string := "AI service is currently unavailable. Please try again later.".
Definition unexpected_msg : string := "An unexpected error occurred during security analysis.".

(** [analyzeSecurity] (actions.ts, lines 9-22). *)
Definition analyzeSecurity (input : json * option json) (r : RemoteAnswer) : ActionResult :=
  match enhanceVoicePrintSecurity input r with
  | FlowReturns d => {| success := true; data := Some d; error := None |}
  | FlowThrows true _ => {| success := false; data := None; error := Some unavailable_msg |}
  | FlowThrows false _ => {| success := false; data := None; error := Some unexpected_msg |}
  end.

Inductive CardToast :=
| TNoVoicePrint
| TAnalysisComplete
| TAnalysisFailed (description : string).

Record Card := {
  isLoading : bool;
  analysisResult : option Assessment;
  card_toasts : list CardToast;
  inflight : option (json * option json)   (* (voicePrintDataUri, userId) sent *)
}.

Definition card_init : Card :=
  {| isLoading := false; analysisResult := None; card_toasts := []; inflight := None |}.

(** [user?.voicePrint]: the field of the user object, if any. *)
Definition voicePrint_of (user : option json) : option json :=
  match user with Some u => get "voicePrint" u | None => None end.

Definition id_of (user : option json) : option json :=
  match user with Some u => get "id" u | None => None end.

(** [handleAnalysis] up to the [await] (lines 19-35), for the user in
    the auth context. *)
Definition handleAnalysis_click (user : option json) (c : Card) : Card :=
  match voicePrint_of user with
  | Some vp =>
      if truthy vp then
        {| isLoading := true; analysisResult := None; card_toasts := c.(card_toasts);
           inflight := Some (vp, id_of user) |}
      else {| isLoading := c.(isLoading); analysisResult := c.(analysisResult);
              card_toasts := c.(card_toasts) ++ [TNoVoicePrint]; inflight := c.(inflight) |}
  | None =>
      {| isLoading := c.(isLoading); analysisResult := c.(analysisResult);
         card_toasts := c.(card_toasts) ++ [TNoVoicePrint]; inflight := c.(inflight) |}
  end.

(** The rest of [handleAnalysis] when [analyzeSecurity] settles (lines
    37-51), for the request the click sent. *)
Definition handleAnalysis_resume (r : RemoteAnswer) (c : Card) : Card :=
  match c.(inflight) with
  | None => c
  | Some input =>
      let result := analyzeSecurity input r in
      match result.(success), result.(data) with
      | true, Some d =>
          {| isLoading := false; analysisResult := Some d;
             card_toasts := c.(card_toasts) ++ [TAnalysisComplete]; inflight := None |}
      | _, _ =>
          let msg := match result.(error) with Some e => if String.eqb e "" then "An unknown error occurred." else e
                                              | None => "An unknown error occurred." end in
          {| isLoading := false; analysisResult := c.(analysisResult);
             card_toasts := c.(card_toasts) ++ [TAnalysisFailed msg]; inflight := None |}
      end
  end.

(** The card's events: the button, which is [disabled={isLoading}]
    (line 136), and the settling of the request. *)
Inductive CardEvent :=
| CClick (user : option json)
| CSettled (r : RemoteAnswer).

Definition cstep (c : Card) (e : CardEvent) : Card :=
  match e with
  | CClick u => if c.(isLoading) then c else handleAnalysis_click u c
  | CSettled r => handleAnalysis_resume r c
  end.

(** [level.toLowerCase()] on 8-bit characters. *)
Definition lower (c : ascii) : ascii :=
  let n := nat_of_ascii c in
  if (Nat.leb 65 n && Nat.leb n 90)%bool then ascii_of_nat (n + 32) else c.

Fixpoint toLowerCase (s : string) : string :=
  match s with
  | EmptyString => EmptyString
  | String c s' => String (lower c) (toLowerCase s')
  end.

Inductive Badge := BadgeLow | BadgeMedium | BadgeHigh | BadgeOther (level : string).

(** [ThreatLevelBadge] (lines 54-65). *)
Definition ThreatLevelBadge (level : string) : Badge :=
  let l := toLowerCase level in
  if String.eqb l "low" then BadgeLow
  else if String.eqb l "medium" then BadgeMedium
  else if String.eqb l "high" then BadgeHigh
  else BadgeOther level.

(** A list section: its items, or the sentence shown when it is empty
    (lines 101-105 and 110-114). *)
Inductive ListView := Items (xs : list string) | EmptyNote (note : string).

Definition list_view (xs : list string) (note : string) : ListView :=
  if Nat.ltb 0 (List.length xs) then Items xs else EmptyNote note.

Definition no_anomalies_msg : string := "No anomalies detected.".
Definition no_actions_msg : string := "No specific actions recommended at this time.".

(** The "Voice Word Cloud" section (lines 116-126):
    [{voiceWordCloud && ...}] renders nothing for a missing or empty
    string. *)
Definition shown_word_cloud (a : Assessment) : option string :=
  match a.(voiceWordCloud) with
  | Some w => if String.eqb w "" then None else Some w
  | None => None
  end.

(** What the card renders under "AI-Enhanced Security" (lines 79-133). *)
Inductive CardView :=
| ViewLoading
| ViewAssessment (secure : string) (badge : Badge) (anomalies actions : ListView) (wordCloud : option string)
| ViewReady.

Definition render (c : Card) : CardView :=
  if c.(isLoading) then ViewLoading
  else match c.(analysisResult) with
       | Some a => ViewAssessment (if a.(isSecure) then "Secure" else "Insecure")
                     (ThreatLevelBadge a.(threatLevel))
                     (list_view a.(anomaliesDetected) no_anomalies_msg)
                     (list_view a.(recommendedActions) no_actions_msg)
                     (shown_word_cloud a)
       | None => ViewReady
       end.

(** The button's label (lines 136-142). *)
Definition button_label (c : Card) : string :=
  if c.(isLoading) then "Analyzing..." else "Run Security Analysis".

(** The whole card (lines 67-145): its header, the content, and the
    button with its [disabled={isLoading}]. *)
Record CardMarkup := {
  card_title : string; card_description : string;
  card_content : CardView; card_button : string; card_button_disabled : bool
}.

Definition SecurityAnalysis_view (c : Card) : CardMarkup :=
  {| card_title := "AI-Enhanced Security";
     card_description := "Actively monitor and enhance your voice print security. Our AI analyzes your voice data for potential threats like cloning or mimicking.";
     card_content := render c; card_button := button_label c; card_button_disabled := c.(isLoading) |}.

(** The description of the failure toast, by what the model answered:
    every [Error] (a rejected call, or the validation error of a missing
    output) gives the unavailable message. *)
Definition failure_message (r : RemoteAnswer) : string :=
  match r with
  | ThrowsOther => unexpected_msg
  | _ => unavailable_msg
  end.

(** ** Properties *)

(** A click on an idle card with a voice print sends the request
    [(user.voicePrint, user.id)] and shows the loading view. *)
Lemma click_sends user c vp :
  c.(isLoading) = false -> voicePrint_of user = Some vp -> truthy vp = true ->
  cstep c (CClick user) =
  {| isLoading := true; analysisResult := None; card_toasts := c.(card_toasts);
     inflight := Some (vp, id_of user) |}.
Proof. intros Hl Hu Hvp. cbn [cstep]. rewrite Hl. unfold handleAnalysis_click. now rewrite Hu, Hvp. Qed.

(** C32: spec §8, last scenario, and the other failures: when the remote
    call rejects (with an [Error] or another value) or answers without an
    output, the card shows no assessment, stops loading, and raises the
    failure toast: "AI service is currently unavailable..." for an
    [Error], including the validation error the flow raises for a missing
    output, and "An unexpected error occurred..." for a rejection with a
    value that is not an [Error]. *)
Theorem analysis_failure_no_assessment user c r vp :
  c.(isLoading) = false -> voicePrint_of user = Some vp -> truthy vp = true ->
  input_schema (vp, id_of user) = true -> (forall a, r <> Answered (Some a)) ->
  let c' := cstep (cstep c (CClick user)) (CSettled r) in
  render c' = ViewReady /\ c'.(card_toasts) = (c.(card_toasts) ++ [TAnalysisFailed (failure_message r)])%list.
Proof.
  intros Hl Hu Hvp Hin Hr c'. unfold c'. rewrite (click_sends user c vp Hl Hu Hvp).
  cbn [cstep]. unfold handleAnalysis_resume, analyzeSecurity, enhanceVoicePrintSecurity, enhanceVoicePrintSecurityFlow. cbn [inflight].
  rewrite Hin. destruct r as [[o|] | m | ]; [now destruct (Hr o) | ..]; cbn; auto.
Qed.

(** C37: a successful analysis, from an idle card whose user has a voice
    print: while the request is in flight the card shows the loading view,
    the button reads "Analyzing..." and is disabled (a second press sends
    nothing); when the model answers, the card shows its assessment:
    "Secure" or "Insecure", the badge of its threat level, each list or
    its empty-list sentence, the word cloud the model sent when it is a
    non-empty string, and the "Analysis Complete" toast. *)
Theorem analysis_success_renders user user' c vp a :
  c.(isLoading) = false -> voicePrint_of user = Some vp -> truthy vp = true ->
  input_schema (vp, id_of user) = true ->
  let c1 := cstep c (CClick user) in
  let c2 := cstep c1 (CSettled (Answered (Some a))) in
  render c1 = ViewLoading /\ button_label c1 = "Analyzing..." /\ cstep c1 (CClick user') = c1 /\
  render c2 = ViewAssessment (if a.(isSecure) then "Secure" else "Insecure") (ThreatLevelBadge a.(threatLevel))
                (list_view a.(anomaliesDetected) no_anomalies_msg)
                (list_view a.(recommendedActions) no_actions_msg) (shown_word_cloud a) /\
  button_label c2 = "Run Security Analysis" /\
  c2.(card_toasts) = (c.(card_toasts) ++ [TAnalysisComplete])%list.
Proof.
  intros Hl Hu Hvp Hin c1 c2. unfold c2, c1. rewrite (click_sends user c vp Hl Hu Hvp).
  cbn [cstep]. unfold handleAnalysis_resume, analyzeSecurity, enhanceVoicePrintSecurity, enhanceVoicePrintSecurityFlow. cbn [inflight].
  rewrite Hin. cbn. repeat split.
Qed.

(** ** Witnesses *)

Definition demo_user : json := JObj [("id", JStr "alice"); ("voicePrint", JStr "data:audio/wav;base64,")].

Lemma analysis_failure_no_assessment_witness :
  let c' := cstep (cstep card_init (CClick (Some demo_user))) (CSettled (ThrowsError "quota")) in
  render c' = ViewReady /\ c'.(card_toasts) = (card_init.(card_toasts) ++ [TAnalysisFailed (failure_message (ThrowsError "quota"))])%list.
Proof.
  apply (analysis_failure_no_assessment _ _ _ (JStr "data:audio/wav;base64,")); [reflexivity .. | discriminate].
Defined.

Lemma analysis_success_renders_witness :
  let a := {| isSecure := true; threatLevel := "LOW"; anomaliesDetected := [];
              recommendedActions := ["Re-record in a quiet room"]; voiceWordCloud := Some "voice" |} in
  let c1 := cstep card_init (CClick (Some demo_user)) in
  let c2 := cstep c1 (CSettled (Answered (Some a))) in
  render c1 = ViewLoading /\ button_label c1 = "Analyzing..." /\ cstep c1 (CClick None) = c1 /\
  render c2 = ViewAssessment (if a.(isSecure) then "Secure" else "Insecure") (ThreatLevelBadge a.(threatLevel))
                (list_view a.(anomaliesDetected) no_anomalies_msg)
                (list_view a.(recommendedActions) no_actions_msg) (shown_word_cloud a) /\
  button_label c2 = "Run Security Analysis" /\
  c2.(card_toasts) = (card_init.(card_toasts) ++ [TAnalysisComplete])%list.
Proof. apply (analysis_success_renders _ _ _ (JStr "data:audio/wav;base64,")); reflexivity. Defined.

End Analysis.
