(* ===== verification/Views.v ===== *)
(** * The signed-in views: the header's greeting ([components/header.tsx])
    and the dashboard page ([app/dashboard/page.tsx])

    Both read the auth context: the header greets [user.id] when a user
    is set (line 25), the dashboard shows the account card and the
    security analysis card, whose button sends [user.voicePrint] and
    [user.id] to the flow.  JSX renders a child expression [{e}] as text
    when it is a string, renders nothing for [undefined], [null] and
    booleans, and throws for an object ([jsx_child]).

    The placeholder images are the data of [lib/placeholder-images],
    which is not among the sources: the page is modelled for any list of
    them, and [find_avatar] is its [PlaceHolderImages.find] (line 13).
    The dashboard page has no guard of its own on [isAuthenticated]. *)

From Stdlib Require Import String List Bool.
From stdpp Require Import gmap strings.
From S2P Require Import Prelude Icons Json Auth Analysis.

Module Views.
Import Json Auth Analysis.
#[local] Open Scope string_scope.

(** A JSX child expression [{e}]. *)
Inductive Child := CText (s : string) | CEmpty | CThrows.

Definition jsx_child (o : option json) : Child :=
  match o with
  | Some (JStr s) => CText s
  | Some (JObj _) => CThrows
  | _ => CEmpty
  end.

(** [{user && <span>Welcome, {user.id}</span>}] (header.tsx, line 25):
    [None] when the expression renders nothing. *)
Definition header_welcome (user : option json) : option Child :=
  match user with
  | Some u => if truthy u then Some (jsx_child (get "id" u)) else None
  | None => None
  end.

(** [AppHeader]'s markup (header.tsx, lines 18-32): the brand, the
    greeting, and the logout button (its label is for screen readers). *)
Record HeaderView := { logo : Icons.SvgElement; brand : string; welcome : option Child; logout_label : string }.

Definition AppHeader (user : option json) : HeaderView :=
  {| logo := Icons.VoiceKeyLogo [("className", "h-8 w-8 text-primary")];
     brand := "VoiceKey"; welcome := header_welcome user; logout_label := "Logout" |}.

(** An entry of [PlaceHolderImages]. *)
Record ImagePlaceholder := {
  img_id : string; description : string; imageUrl : string; imageHint : string
}.

(** [PlaceHolderImages.find(p => p.id === 'user-avatar-1')] (line 13). *)
Definition find_avatar (imgs : list ImagePlaceholder) : option ImagePlaceholder :=
  List.find (fun p => String.eqb p.(img_id) "user-avatar-1") imgs.

(** The [Image] the account card shows: [src], [alt], [data-ai-hint]. *)
Record Avatar := { src : string; alt : string; ai_hint : string }.

Record DashboardView := {
  avatar : option Avatar;            (* {userAvatar && <Image .../>} (lines 21-30) *)
  account_status : string;           (* line 33 *)
  status_note : string;              (* line 35 *)
  analysis : CardMarkup              (* <SecurityAnalysis /> (line 41) *)
}.

(** [DashboardPage] (lines 12-45), with the security card's state. *)
Definition DashboardPage (imgs : list ImagePlaceholder) (c : Card) : DashboardView :=
  {| avatar := option_map (fun p => {| src := p.(imageUrl); alt := p.(description); ai_hint := p.(imageHint) |})
                 (find_avatar imgs);
     account_status := "Verified";
     status_note := "Your voice print is active and secure.";
     analysis := SecurityAnalysis_view c |}.

(** ** Lemmas *)

Lemma get_id_user_json id vp : get "id" (user_json id vp) = Some (JStr id).
Proof. reflexivity. Qed.

Lemma voicePrint_user_json id vp : voicePrint_of (Some (user_json id vp)) = Some (JStr vp).
Proof. reflexivity. Qed.

Lemma header_user_json id vp : header_welcome (Some (user_json id vp)) = Some (CText id).
Proof. reflexivity. Qed.

(** The security card's request for a registered user record. *)
Lemma click_user_json c id vp :
  c.(isLoading) = false -> vp <> "" ->
  (cstep c (CClick (Some (user_json id vp)))).(inflight) = Some (JStr vp, Some (JStr id)) /\
  input_schema (JStr vp, Some (JStr id)) = true.
Proof.
  intros Hl Hvp. apply String.eqb_neq in Hvp.
  rewrite (click_sends _ c (JStr vp) Hl (voicePrint_user_json id vp)) by (cbn; now rewrite Hvp).
  split; reflexivity.
Qed.

(** ** Properties *)

(** C36: in every state the store reaches, the session's [user] has the
    type [User | null] the context declares: [null], or a record whose
    [id] and [voicePrint] are strings.  So the header's
    [Welcome, {user.id}] renders the id as text and never throws, and the
    security card's request passes the flow's input schema ([z.string()]
    on both fields). *)
Theorem session_user_typed s c :
  areachable s -> c.(isLoading) = false ->
  (s.(user) = None /\ header_welcome s.(user) = None /\
   (cstep c (CClick s.(user))).(card_toasts) = (c.(card_toasts) ++ [TNoVoicePrint])%list) \/
  exists id vp, s.(user) = Some (user_json id vp) /\ header_welcome s.(user) = Some (CText id) /\
    (vp <> "" -> exists input, (cstep c (CClick s.(user))).(inflight) = Some input /\ input_schema input = true).
Proof.
  intros Hr Hl. destruct (areachable_AInv s Hr) as [_ _ [Hu | (id & vp & Hu)] _ _]; rewrite Hu.
  - left. cbn [cstep]. rewrite Hl. auto.
  - right. exists id, vp. split; [reflexivity | split; [apply header_user_json|]].
    intros Hvp. destruct (click_user_json c id vp Hl Hvp) as [E Hin]. eauto.
Qed.

(** ** Witnesses *)

Lemma session_user_typed_witness :
  let s := astep (astep (load (provider_init ∅)) (ARegister "alice" "P1")) (ALogin "P2") in
  (s.(user) = None /\ header_welcome s.(user) = None /\
   (cstep card_init (CClick s.(user))).(card_toasts) = (card_init.(card_toasts) ++ [TNoVoicePrint])%list) \/
  exists id vp, s.(user) = Some (user_json id vp) /\ header_welcome s.(user) = Some (CText id) /\
    (vp <> "" -> exists input, (cstep card_init (CClick s.(user))).(inflight) = Some input /\ input_schema input = true).
Proof. apply session_user_typed; [apply areach_step, areach_step, areach_init | reflexivity]. Defined.

End Views.
