(* ===== verification/App.v ===== *)
(** * The application: the pages over the mock store, fed by the recorder

    [Pages] is proved for any store with the spec's contract; here it is
    instantiated with [Auth]'s store.  The recorder's output format
    ([Base64.data_uri]) is followed through the registration page, the
    store's JSON text, the login page, the dashboard's security card and
    the flow, to the prompt the model receives: the media part of the
    prompt is the data URI the recorder produced, and it decodes to the
    recorded bytes (spec §6).  The login page's failure path is proved on
    the same store. *)

From Stdlib Require Import String Ascii List Arith.
From stdpp Require Import gmap strings.
From S2P Require Import Prelude Base64 Json Store Auth Pages Analysis Views.

Module App.
Import Json Auth Pages.

(** The browser's state on the registration page, opened first on an
    empty storage: page instance 0, nothing suspended. *)
Definition app_init : World :=
  {| store := load (provider_init ∅); route := RRegister; pushes := []; toasts := [];
     login_page := fresh_login 0; register_page := fresh_register 0; instances := 1; timers := [] |}.

(** The registration as the user performs it: type the username, record
    (the recorder calls [setAudioData]), press "Create VoiceKey", and the
    timer of that [handleRegister] fires. *)
Definition register_with_recording (u uri : string) (w : World) : World :=
  fire (List.length w.(timers)) (handleRegister_click (register_recorded uri (type_username u w))).

(** What the dashboard's [user?.voicePrint] is after a reload: the
    [voicePrint] field of the stored user entry, read with [JSON.parse]. *)
Definition stored_voice_print (w : World) : option json :=
  (w.(store).(storage) !! USER_STORAGE_KEY ≫= parse) ≫= get "voicePrint".

(** The login as the user performs it: record (the recorder calls
    [setAudioData]), press "Authenticate", and the timer of that
    [handleLogin] fires. *)
Definition login_with_recording (uri : string) (w : World) : World :=
  fire (List.length w.(timers)) (handleLogin_click (login_recorded uri w)).

(** A recording's data URI is never empty. *)
Lemma data_uri_nonempty mime bs : Base64.data_uri mime bs <> ""%string.
Proof. unfold Base64.data_uri. discriminate. Qed.

(** The registration writes the store and returns to the login page. *)
Lemma register_with_recording_store w u uri :
  w.(route) = RRegister -> u <> ""%string -> uri <> ""%string ->
  let w1 := register_with_recording u uri w in
  w1.(store) = snd (register u uri w.(store)) /\ w1.(route) = RLogin.
Proof.
  intros Hr Hu Huri w1. destruct (register_form w u uri Hr) as (Ea & Eu & Et & Es).
  set (w0 := register_recorded uri (type_username u w)) in *.
  unfold w1, register_with_recording. fold w0. rewrite <- Et.
  rewrite (register_click_fire w0 uri Ea Huri) by congruence.
  unfold handleRegister_resume. cbn [store set_register_page]. rewrite Es, Eu. cbn. auto.
Qed.

(** Over a stored user record, the login page's login succeeds with any
    recording and opens the dashboard on that record. *)
Lemma login_after_register w id vp a :
  w.(route) = RLogin -> w.(store).(storage) !! USER_STORAGE_KEY = Some (stringify (user_json id vp)) ->
  a <> ""%string ->
  let w2 := login_with_recording a w in
  w2.(route) = RDashboard /\ w2.(store).(user) = Some (user_json id vp).
Proof.
  intros Hr Hs Ha w2. destruct (login_form w a Hr) as (Ea & _ & Et & Es & _).
  unfold w2, login_with_recording. rewrite <- Et, (login_click_fire _ a Ea Ha).
  unfold handleLogin_resume. cbn [store set_login_page]. rewrite Es.
  destruct (login_stored id vp a _ Hs) as (H1 & H2 & _).
  cbn [api_login auth_api]. rewrite (surjective_pairing (login a (store w))), H1. cbn.
  split; [reflexivity | exact H2].
Qed.

(** C12: registering with the recorder's output: the page returns to the
    login page, and the voice print read back from localStorage with
    [JSON.parse] is the recorder's data URI, which decodes to the
    recorded bytes (spec §6: the payload round-trips through the store). *)
Theorem registered_voice_print_decodes w u bytes :
  w.(route) = RRegister -> u <> ""%string ->
  let w1 := register_with_recording u (Base64.data_uri "audio/wav" bytes) w in
  w1.(route) = RLogin /\
  exists vp, stored_voice_print w1 = Some (JStr vp) /\
             Base64.parse_data_uri vp = Some ("audio/wav"%string, bytes).
Proof.
  intros Hr Hu w1. set (uri := Base64.data_uri "audio/wav" bytes) in w1.
  destruct (register_with_recording_store w u uri Hr Hu (data_uri_nonempty _ _)) as [Hs Hr1].
  split; [exact Hr1|]. exists uri. unfold stored_voice_print, w1. rewrite Hs. split.
  - apply (stored_voicePrint (store w) u uri).
  - apply Base64.parse_data_uri_data_uri. reflexivity.
Qed.

(** C20: the login page's failure path on the mock store: with no
    registered user, recording and pressing "Authenticate" leaves the
    store unchanged, stays on the login page, raises the "Authentication
    Failed" toast and clears the page's recording, so the button is
    disabled until the user records again (app/page.tsx, lines 49-56). *)
Theorem login_failure_resets_page w a :
  w.(route) = RLogin -> w.(store).(storage) !! USER_STORAGE_KEY = None -> a <> ""%string ->
  let w' := login_with_recording a w in
  w'.(route) = RLogin /\ w'.(store) = w.(store) /\ w'.(toasts) = (w.(toasts) ++ [TAuthFailed])%list /\
  w'.(login_page).(lp_audioData) = None /\ w'.(login_page).(lp_isAuthenticating) = false /\
  login_disabled w'.(login_page) = true.
Proof.
  intros Hr Hs Ha w'. destruct (login_form w a Hr) as (Ea & Er & Et & Es & Eto).
  unfold w', login_with_recording. rewrite <- Et, (login_click_fire _ a Ea Ha).
  unfold handleLogin_resume. cbn [store set_login_page]. rewrite Es.
  cbn [api_login auth_api]. rewrite (login_none a _ Hs). cbn.
  unfold login_setState. cbn. rewrite Er, Nat.eqb_refl. cbn.
  rewrite Er, Eto. repeat split.
Qed.

(** C21: spec §6, the data-URI format round-trips through both
    collaborators: register with the recorder's output, log in with any
    recording, and press "Run Security Analysis" on the dashboard; the
    request passes the flow's input schema, and the prompt the model
    receives carries, as its media part, a data URI that decodes to
    exactly the recorded bytes, with the username as the user id. *)
Theorem voice_print_reaches_prompt w u bytes p2 c schema :
  w.(route) = RRegister -> u <> ""%string -> p2 <> ""%string -> c.(Analysis.isLoading) = false ->
  let w2 := login_with_recording p2 (register_with_recording u (Base64.data_uri "audio/wav" bytes) w) in
  w2.(route) = RDashboard /\
  exists input parts vp, (Analysis.cstep c (Analysis.CClick w2.(store).(user))).(Analysis.inflight) = Some input /\
    Analysis.prompt_request schema input = Some parts /\
    In (Analysis.MediaPart vp) parts /\ In (Analysis.TextPart (Analysis.prompt_tail u schema)) parts /\
    Base64.parse_data_uri vp = Some ("audio/wav"%string, bytes).
Proof.
  intros Hr Hu Hp Hl w2. set (uri := Base64.data_uri "audio/wav" bytes) in w2.
  destruct (register_with_recording_store w u uri Hr Hu (data_uri_nonempty _ _)) as [Hs1 Hr1].
  assert (Hst : (register_with_recording u uri w).(store).(storage) !! USER_STORAGE_KEY =
                Some (stringify (user_json u uri))) by (rewrite Hs1; apply register_storage).
  destruct (login_after_register _ u uri p2 Hr1 Hst Hp) as [Hr2 Hu2].
  split; [exact Hr2|]. fold w2 in Hu2. rewrite Hu2.
  destruct (Views.click_user_json c u uri Hl (data_uri_nonempty _ _)) as [E _].
  exists (JStr uri, Some (JStr u)), (Analysis.enhanceVoicePrintSecurityPrompt schema uri u), uri.
  split; [exact E | split; [reflexivity | split; [cbn; auto | split; [cbn; auto|]]]].
  apply Base64.parse_data_uri_data_uri. reflexivity.
Qed.

(** ** Witnesses *)

Lemma registered_voice_print_decodes_witness :
  let w1 := register_with_recording "alice" (Base64.data_uri "audio/wav" [Byte.x4d; Byte.x61; Byte.x6e]) app_init in
  w1.(route) = RLogin /\
  exists vp, stored_voice_print w1 = Some (JStr vp) /\
             Base64.parse_data_uri vp = Some ("audio/wav"%string, [Byte.x4d; Byte.x61; Byte.x6e]).
Proof. apply registered_voice_print_decodes; [reflexivity | discriminate]. Defined.

Lemma login_failure_resets_page_witness :
  let w := push RLogin app_init in
  let w' := login_with_recording "P" w in
  w'.(route) = RLogin /\ w'.(store) = w.(store) /\ w'.(toasts) = (w.(toasts) ++ [TAuthFailed])%list /\
  w'.(login_page).(lp_audioData) = None /\ w'.(login_page).(lp_isAuthenticating) = false /\
  login_disabled w'.(login_page) = true.
Proof. apply login_failure_resets_page; [reflexivity | reflexivity | discriminate]. Defined.

Lemma voice_print_reaches_prompt_witness :
  let w2 := login_with_recording "P2"
              (register_with_recording "alice" (Base64.data_uri "audio/wav" [Byte.x4d; Byte.x61; Byte.x6e]) app_init) in
  w2.(route) = RDashboard /\
  exists input parts vp, (Analysis.cstep Analysis.card_init (Analysis.CClick w2.(store).(user))).(Analysis.inflight) = Some input /\
    Analysis.prompt_request "{}" input = Some parts /\
    In (Analysis.MediaPart vp) parts /\ In (Analysis.TextPart (Analysis.prompt_tail "alice" "{}")) parts /\
    Base64.parse_data_uri vp = Some ("audio/wav"%string, [Byte.x4d; Byte.x61; Byte.x6e]).
Proof. apply voice_print_reaches_prompt; [reflexivity | discriminate | discriminate | reflexivity]. Defined.

Lemma register_then_login_flow_witness :
  let w1 := fire (List.length app_init.(timers))
              (handleRegister_click (register_recorded "P1" (type_username "alice" app_init))) in
  let w2 := fire (List.length w1.(timers)) (handleLogin_click (login_recorded "P2" w1)) in
  w1.(route) = RLogin /\ w2.(route) = RDashboard /\ api_isAuthenticated w2.(store) = true.
Proof. apply register_then_login_flow; [reflexivity | discriminate ..]. Defined.

Lemma logout_stays_on_login_witness :
  let w' := handleLogout app_init in
  w'.(route) = RLogin /\ api_isAuthenticated w'.(store) = false /\ login_redirect w' = w'.
Proof. apply logout_stays_on_login. Defined.

End App.
